(** * concrete-cuda: device layer, bootstrapping-key conversion and the
    amortized programmable bootstrap

    A shallow embedding of [concrete-cuda/cuda/src/device.cu], of the
    bootstrapping-key header (index functions, twiddle builder, key
    converter) and of the amortized bootstrap kernel with its host launcher,
    followed by the properties established about them.

    Conventions.
    - C integers are [Z]; every conversion the C++ performs implicitly
      (to [uint32_t], to [int], to [short]) is written out with the wrapping
      functions of [CInt].
    - Host functions that talk to the CUDA runtime are computations in the
      state monad [Host] over [cuda_runtime]; each runtime entry point they
      call is appended to the [calls] log of that state.
    - Raw buffers are lists; a store [a[i] = v] is stdpp's [<[i:=v]>] (which
      leaves the list alone when [i] is out of range, where the C++ is
      undefined) and a load [a[i]] is [a !!! i] with a default. *)

From Stdlib Require Import ZArith Lia QArith Qround SpecFloat.
From stdpp Require Import base numbers list vector.

Local Open Scope Z_scope.

(** ** Fixed-width integers *)

Module CInt.

Definition to_uint32 (z : Z) : Z := z mod 2 ^ 32.

Definition to_uint64 (z : Z) : Z := z mod 2 ^ 64.

(** Conversion to a signed type of [w] bits (two's complement wrap). *)
Definition to_signed (w : Z) (z : Z) : Z :=
  (z + 2 ^ (w - 1)) mod 2 ^ w - 2 ^ (w - 1).

Definition to_int32 (z : Z) : Z := to_signed 32 z.

Definition to_int16 (z : Z) : Z := to_signed 16 z.

(** [std::numeric_limits<T>::max()] for an unsigned [T] of [w] bits. *)
Definition unsigned_max (w : Z) : Z := 2 ^ w - 1.

End CInt.

(** ** The CUDA runtime as seen from the host *)

Module Cuda.

Inductive cudaMemoryType : Type :=
| cudaMemoryTypeUnregistered
| cudaMemoryTypeHost
| cudaMemoryTypeDevice
| cudaMemoryTypeManaged.

Definition cudaMemoryType_eqb (a b : cudaMemoryType) : bool :=
  match a, b with
  | cudaMemoryTypeUnregistered, cudaMemoryTypeUnregistered
  | cudaMemoryTypeHost, cudaMemoryTypeHost
  | cudaMemoryTypeDevice, cudaMemoryTypeDevice
  | cudaMemoryTypeManaged, cudaMemoryTypeManaged => true
  | _, _ => false
  end.

Record cudaPointerAttributes : Type := {
  attr_type : cudaMemoryType;
  attr_device : Z
}.

Inductive cudaMemcpyKind : Type :=
| cudaMemcpyHostToDevice
| cudaMemcpyDeviceToHost.

(** The three instantiations of the bootstrap kernel. *)
Inductive sharedMemDegree : Type := NOSM | PARTIALSM | FULLSM.

(** Runtime entry points, as they appear in the [calls] log. *)
Inductive cuda_call : Type :=
| CudaGetDeviceCount
| CudaSetDevice (device : Z)
| CudaMemGetInfo
| CudaPointerGetAttributes (ptr : Z)
| CudaMalloc (size : Z)
| CudaFree
| CudaMemcpy (size : Z) (kind : cudaMemcpyKind)
| CudaMemcpyAsync (dest src size : Z) (kind : cudaMemcpyKind) (stream : Z)
| CudaFuncSetAttribute (kernel : sharedMemDegree) (max_dynamic_shared : Z)
| CudaFuncSetCacheConfig (kernel : sharedMemDegree)
| CudaLaunchKernel (kernel : sharedMemDegree) (grid thds shared : Z)
                   (stream : Z) (device_memory_size_per_sample : Z)
| CudaLaunchFFT (degree grid thds shared : Z) (stream : Z)
| CudaStreamSynchronize (stream : Z)
| CudaDeviceSynchronize.

(** Entry points that suspend the calling host thread until device work
    has drained (a stream, or the whole device). *)
Definition blocks_host (c : cuda_call) : bool :=
  match c with
  | CudaStreamSynchronize _ | CudaDeviceSynchronize => true
  | _ => false
  end.

(** Entry points that only append work to a stream. *)
Definition enqueues_work (c : cuda_call) : bool :=
  match c with
  | CudaMemcpyAsync _ _ _ _ _ | CudaLaunchKernel _ _ _ _ _ _
  | CudaLaunchFFT _ _ _ _ _ => true
  | _ => false
  end.

Definition is_malloc (c : cuda_call) : bool :=
  match c with CudaMalloc _ => true | _ => false end.

Record cuda_runtime : Type := {
  device_count : Z;                       (* what cudaGetDeviceCount stores *)
  current_device : Z;
  free_mem : Z -> Z;                      (* free bytes, per device *)
  total_mem : Z -> Z;
  pointer_attributes : Z -> cudaPointerAttributes;
  allocations : list (Z * Z);             (* (device, size), oldest first *)
  calls : list cuda_call                  (* oldest first *)
}.

Definition Host (A : Type) : Type := cuda_runtime -> A * cuda_runtime.

Definition ret {A} (a : A) : Host A := fun rt => (a, rt).

Definition bind {A B} (m : Host A) (k : A -> Host B) : Host B :=
  fun rt => let '(a, rt') := m rt in k a rt'.

Definition log (c : cuda_call) : Host unit := fun rt =>
  (tt, {| device_count := device_count rt;
          current_device := current_device rt;
          free_mem := free_mem rt;
          total_mem := total_mem rt;
          pointer_attributes := pointer_attributes rt;
          allocations := allocations rt;
          calls := calls rt ++ [c] |}).

(** [cudaGetDeviceCount(&n)]. *)
Definition cudaGetDeviceCount : Host Z :=
  bind (log CudaGetDeviceCount) (fun _ rt => (device_count rt, rt)).

(** [cudaSetDevice(d)]: the runtime rejects an ordinal it does not have
    and keeps the current device in that case. *)
Definition cudaSetDevice (d : Z) : Host unit :=
  bind (log (CudaSetDevice d)) (fun _ rt =>
    (tt, if (0 <=? d) && (d <? device_count rt)
         then {| device_count := device_count rt;
                 current_device := d;
                 free_mem := free_mem rt;
                 total_mem := total_mem rt;
                 pointer_attributes := pointer_attributes rt;
                 allocations := allocations rt;
                 calls := calls rt |}
         else rt)).

(** [cudaMemGetInfo(&free, &total)] for the current device. *)
Definition cudaMemGetInfo : Host (Z * Z) :=
  bind (log CudaMemGetInfo) (fun _ rt =>
    ((free_mem rt (current_device rt), total_mem rt (current_device rt)), rt)).

Definition cudaPointerGetAttributes (ptr : Z) : Host cudaPointerAttributes :=
  bind (log (CudaPointerGetAttributes ptr)) (fun _ rt =>
    (pointer_attributes rt ptr, rt)).

(** [cudaMalloc(&p, size)] on the current device. *)
Definition cudaMalloc (size : Z) : Host unit :=
  bind (log (CudaMalloc size)) (fun _ rt =>
    (tt, {| device_count := device_count rt;
            current_device := current_device rt;
            free_mem := fun d => if d =? current_device rt
                                 then free_mem rt d - size else free_mem rt d;
            total_mem := total_mem rt;
            pointer_attributes := pointer_attributes rt;
            allocations := allocations rt ++ [(current_device rt, size)];
            calls := calls rt |})).

(** [cudaMalloc(&p, size)] with its outcome. The runtime grants the request
    when the current device has [size] bytes free; the pointer it stores is
    represented by the position of the new entry in the allocation table.
    Otherwise it reports [cudaErrorMemoryAllocation], here [None], and
    allocates nothing. *)
Definition cudaMalloc_checked (size : Z) : Host (option Z) := fun rt =>
  if size <=? free_mem rt (current_device rt) then
    (Some (Z.of_nat (length (allocations rt))), snd (cudaMalloc size rt))
  else
    (None, snd (log (CudaMalloc size) rt)).

(** [cudaFree(p)]. The runtime accepts a pointer that [cudaMalloc] returned
    and that has not been freed since: the bytes of the entry it designates
    go back to the device of the entry, which stays in the table with the
    size -1, a size no allocation has. Any other pointer is an error
    ([cudaErrorInvalidValue], here [false]) and changes nothing. *)
Definition cudaFree (ptr : Z) : Host bool :=
  bind (log CudaFree) (fun _ rt =>
    match (if 0 <=? ptr then allocations rt !! Z.to_nat ptr else None) with
    | Some (device, size) =>
        if 0 <=? size then
          (true, {| device_count := device_count rt;
                    current_device := current_device rt;
                    free_mem := fun d => if d =? device
                                         then free_mem rt d + size else free_mem rt d;
                    total_mem := total_mem rt;
                    pointer_attributes := pointer_attributes rt;
                    allocations := <[Z.to_nat ptr := (device, -1)]> (allocations rt);
                    calls := calls rt |})
        else (false, rt)
    | None => (false, rt)
    end).

(** [cudaDeviceProp], as far as device.cu reads it. *)
Record cudaDeviceProp : Type := {
  major : Z;
  sharedMemPerMultiprocessor : Z;
  sharedMemPerBlock : Z
}.

End Cuda.

Declare Scope host_scope.
Delimit Scope host_scope with host.
Notation "x <~ m ;; k" := (Cuda.bind m (fun x => k))
  (at level 100, m at next level, right associativity) : host_scope.
Notation "m ;;; k" := (Cuda.bind m (fun _ => k))
  (at level 100, right associativity) : host_scope.

(** ** device.cu: the device resource manager *)

Module Device.
Import Cuda CInt.
Local Open Scope host_scope.

(** [int cuda_get_number_of_gpus()]. *)
Definition cuda_get_number_of_gpus : Host Z :=
  cudaGetDeviceCount.

(** [int cuda_check_valid_malloc(uint64_t size, uint32_t gpu_index)].
    The comparison of the [uint32_t] index with the [int] count is done on
    [unsigned]. *)
Definition cuda_check_valid_malloc (size gpu_index : Z) : Host Z :=
  num_gpus <~ cuda_get_number_of_gpus ;;
  if gpu_index >=? to_uint32 num_gpus then ret (-2)
  else
    cudaSetDevice gpu_index ;;;
    mem <~ cudaMemGetInfo ;;
    if size >? fst mem then ret (-1) else ret 0.

(** The pointer test shared by both asynchronous copies:
    [attr.device != gpu_index && attr.type != cudaMemoryTypeDevice]
    ([attr.device] is an [int], compared on [unsigned]). *)
Definition pointer_rejected (attr : cudaPointerAttributes) (gpu_index : Z) : bool :=
  negb (to_uint32 (attr_device attr) =? gpu_index)
  && negb (cudaMemoryType_eqb (attr_type attr) cudaMemoryTypeDevice).

(** [int cuda_memcpy_async_to_gpu(void *dest, void *src, uint64_t size,
    void *v_stream, uint32_t gpu_index)]; the attributes queried are those
    of [dest]. *)
Definition cuda_memcpy_async_to_gpu (dest src size v_stream gpu_index : Z) : Host Z :=
  if size =? 0 then ret (-3)
  else
    num_gpus <~ cuda_get_number_of_gpus ;;
    if gpu_index >=? to_uint32 num_gpus then ret (-2)
    else
      attr <~ cudaPointerGetAttributes dest ;;
      if pointer_rejected attr gpu_index then ret (-1)
      else
        cudaSetDevice gpu_index ;;;
        log (CudaMemcpyAsync dest src size cudaMemcpyHostToDevice v_stream) ;;;
        ret 0.

(** [int cuda_memcpy_async_to_cpu(void *dest, const void *src, uint64_t size,
    void *v_stream, uint32_t gpu_index)]; the attributes queried are those
    of [src]. *)
Definition cuda_memcpy_async_to_cpu (dest src size v_stream gpu_index : Z) : Host Z :=
  if size =? 0 then ret (-3)
  else
    num_gpus <~ cuda_get_number_of_gpus ;;
    if gpu_index >=? to_uint32 num_gpus then ret (-2)
    else
      attr <~ cudaPointerGetAttributes src ;;
      if pointer_rejected attr gpu_index then ret (-1)
      else
        cudaSetDevice gpu_index ;;;
        log (CudaMemcpyAsync dest src size cudaMemcpyDeviceToHost v_stream) ;;;
        ret 0.

(** [int cuda_synchronize_device(uint32_t gpu_index)]. *)
Definition cuda_synchronize_device (gpu_index : Z) : Host Z :=
  num_gpus <~ cuda_get_number_of_gpus ;;
  if gpu_index >=? to_uint32 num_gpus then ret (-2)
  else
    cudaSetDevice gpu_index ;;;
    log CudaDeviceSynchronize ;;;
    ret 0.

(** The status codes, by the names the comments of device.cu give them. *)
Definition ok : Z := 0.
Definition InvalidPointer : Z := -1.
Definition OutOfMemory : Z := -1.
Definition InvalidDevice : Z := -2.
Definition ZeroSizeCopy : Z := -3.

(** [void *cuda_malloc(uint64_t size, uint32_t gpu_index)]: neither the
    index nor the size is tested. [checkCudaErrors] ends the process when
    the runtime reports an error: [None]. *)
Definition cuda_malloc (size gpu_index : Z) : Host (option Z) :=
  cudaSetDevice gpu_index ;;;
  cudaMalloc_checked size.

(** [int cuda_drop(void *ptr, uint32_t gpu_index)]. [checkCudaErrors] ends
    the process when [cudaFree] reports an error: [None]. *)
Definition cuda_drop (ptr gpu_index : Z) : Host (option Z) :=
  num_gpus <~ cuda_get_number_of_gpus ;;
  if gpu_index >=? to_uint32 num_gpus then ret (Some (-2))
  else
    cudaSetDevice gpu_index ;;;
    freed <~ cudaFree ptr ;;
    if freed then ret (Some 0) else ret None.

(** [int cuda_get_max_shared_memory(uint32_t gpu_index)]. [properties] is
    what [cudaGetDeviceProperties] reports for each device, which does not
    change while the process runs; the [size_t] capacities are stored in an
    [int]. *)
Definition cuda_get_max_shared_memory (properties : Z -> cudaDeviceProp)
    (gpu_index : Z) : Host Z :=
  num_gpus <~ cuda_get_number_of_gpus ;;
  if gpu_index >=? to_uint32 num_gpus then ret (-2)
  else
    cudaSetDevice gpu_index ;;;
    let prop := properties gpu_index in
    let max_shared_memory := 0 in
    let max_shared_memory :=
      if major prop >? 7 then to_int32 (sharedMemPerMultiprocessor prop)
      else to_int32 (sharedMemPerBlock prop) in
    ret max_shared_memory.

End Device.


(** ** Floating point and the device routines that are not part of these files *)

(** [double] arithmetic, as far as the host code uses it: conversion of an
    integer and division. *)
Class FloatOps : Type := {
  double : Type;
  double_of_Z : Z -> double;
  double_div : double -> double -> double
}.

(** CUDA's [double2]: [.x] is the first component, [.y] the second. *)
Definition double2 `{FloatOps} : Type := (double * double)%type.

(** Exact arithmetic on rationals. *)
Definition exact_double : FloatOps :=
  {| double := Q; double_of_Z := inject_Z; double_div := Qdiv |}.

(** IEEE 754 binary64 with rounding to nearest, ties to even. *)
Definition binary64 : FloatOps :=
  {| double := spec_float;
     double_of_Z := fun z => binary_normalize 53 1024 z 0 false;
     double_div := SFdiv 53 1024 |}.

(** ** The bootstrapping-key header *)

Module Bsk.
Import CInt.

(** Products and quotients of [uint32_t] values. *)
Definition mul32 (a b : Z) : Z := to_uint32 (a * b).
Definition div32 (a b : Z) : Z := to_uint32 a / to_uint32 b.

(** [get_start_ith_ggsw]: [i * polynomial_size / 2 * (glwe_dimension + 1) *
    (glwe_dimension + 1) * l_gadget], evaluated left to right on [unsigned]
    and returned as [int]. *)
Definition get_start_ith_ggsw (i polynomial_size glwe_dimension l_gadget : Z) : Z :=
  to_int32
    (mul32 (mul32 (mul32 (div32 (mul32 i polynomial_size) 2)
                         (glwe_dimension + 1))
                  (glwe_dimension + 1))
           l_gadget).

(** [get_ith_mask_kth_block]: the index into [ptr] of the returned pointer. *)
Definition get_ith_mask_kth_block
    (i k level polynomial_size glwe_dimension l_gadget : Z) : Z :=
  to_uint32
    (get_start_ith_ggsw i polynomial_size glwe_dimension l_gadget
     + mul32 (mul32 (div32 (mul32 level polynomial_size) 2) (glwe_dimension + 1))
             (glwe_dimension + 1)
     + mul32 (div32 (mul32 k polynomial_size) 2) (glwe_dimension + 1)).

(** [get_ith_body_kth_block]: the index into [ptr] of the returned pointer. *)
Definition get_ith_body_kth_block
    (i k level polynomial_size glwe_dimension l_gadget : Z) : Z :=
  to_uint32
    (get_start_ith_ggsw i polynomial_size glwe_dimension l_gadget
     + mul32 (mul32 (div32 (mul32 level polynomial_size) 2) (glwe_dimension + 1))
             (glwe_dimension + 1)
     + mul32 (div32 (mul32 k polynomial_size) 2) (glwe_dimension + 1)
     + div32 polynomial_size 2).

(** *** [cuda_initialize_twiddles] *)

(** The inner loop [for (; j & bit; bit >>= 1) j ^= bit;]. [bit] is an
    [int], so 32 shifts exhaust it; [None] means the fuel ran out first. *)
Fixpoint clear_leading_ones (fuel : nat) (j bit : Z) : option (Z * Z) :=
  if Z.land j bit =? 0 then Some (j, bit)
  else match fuel with
       | O => None
       | S fuel' => clear_leading_ones fuel' (Z.lxor j bit) (Z.shiftr bit 1)
       end.

Record twiddle_state : Type := {
  tw_j : Z;
  tw_cnt : Z;
  sw1_h : list Z;
  sw2_h : list Z
}.

(** One turn of the outer loop, for the given [i]. The stores convert to
    [short]. *)
Definition twiddle_step (polynomial_size : Z) (st : option twiddle_state) (i : Z)
  : option twiddle_state :=
  match st with
  | None => None
  | Some st =>
      let bit := Z.shiftr (div32 polynomial_size 2) 1 in
      match clear_leading_ones 32 (tw_j st) bit with
      | None => None
      | Some (j, bit) =>
          let j := Z.lxor j bit in
          if i <? j then
            Some {| tw_j := j;
                    tw_cnt := tw_cnt st + 1;
                    sw1_h := <[Z.to_nat (tw_cnt st) := to_int16 i]> (sw1_h st);
                    sw2_h := <[Z.to_nat (tw_cnt st) := to_int16 j]> (sw2_h st) |}
          else
            Some {| tw_j := j; tw_cnt := tw_cnt st;
                    sw1_h := sw1_h st; sw2_h := sw2_h st |}
      end
  end.

(** [cuda_initialize_twiddles(polynomial_size, gpu_index)]: the contents
    uploaded to the constant tables [SW1] and [SW2]. *)
Definition cuda_initialize_twiddles (polynomial_size : Z) : option (list Z * list Z) :=
  let sw_size := to_int32 (div32 polynomial_size 2) in
  let init := {| tw_j := 0; tw_cnt := 0;
                 sw1_h := replicate (Z.to_nat sw_size) 0;
                 sw2_h := replicate (Z.to_nat sw_size) 0 |} in
  match fold_left (twiddle_step polynomial_size)
                  (seqZ 1 (div32 polynomial_size 2 - 1)) (Some init) with
  | None => None
  | Some st => Some (sw1_h st, sw2_h st)
  end.

(** *** [cuda_convert_lwe_bootstrap_key] *)

Section Convert.
Context {FO : FloatOps}.

(** [choose_opt] and the batched forward FFT kernel live in other files of
    concrete-cuda; [batch_NSMFFT degree grid d_bsk dest] is the content of
    [dest] once the kernel launched on [grid] blocks has read [d_bsk]. *)
Variable choose_opt : Z -> Z.
Variable batch_NSMFFT : Z -> Z -> list double2 -> list double2 -> list double2.

(** Contents of memory fresh from [malloc]. *)
Variable uninitialized : nat -> double2.

Definition set_x (v : double) (c : double2) : double2 := (v, snd c).
Definition set_y (v : double) (c : double2) : double2 := (fst c, v).

(** [int complex_current_poly_idx = i * polynomial_size / 2] and
    [int torus_current_poly_idx = i * polynomial_size], for the [int i] of
    the outer packing loop. *)
Definition complex_current_poly_idx (i polynomial_size : Z) : Z :=
  to_int32 (div32 (mul32 i polynomial_size) 2).

Definition torus_current_poly_idx (i polynomial_size : Z) : Z :=
  to_int32 (mul32 i polynomial_size).

(** The body of the inner packing loop, for polynomial [i] and pair [j];
    [w] is the bit width of the unsigned type [T]. *)
Definition pack_pair (w : Z) (src : list Z) (polynomial_size : Z) (i : Z)
    (h_bsk : list double2) (j : Z) : list double2 :=
  let complex_current_poly_idx := complex_current_poly_idx i polynomial_size in
  let torus_current_poly_idx := torus_current_poly_idx i polynomial_size in
  let at_ := Z.to_nat (complex_current_poly_idx + j) in
  let h_bsk :=
    alter (set_x (double_of_Z (src !!! Z.to_nat (torus_current_poly_idx + 2 * j))))
          at_ h_bsk in
  let h_bsk :=
    alter (set_y (double_of_Z (src !!! Z.to_nat (torus_current_poly_idx + 2 * j + 1))))
          at_ h_bsk in
  let h_bsk :=
    alter (fun c => set_x (double_div (fst c) (double_of_Z (unsigned_max w))) c)
          at_ h_bsk in
  alter (fun c => set_y (double_div (snd c) (double_of_Z (unsigned_max w))) c)
        at_ h_bsk.

Definition pack_polynomial (w : Z) (src : list Z) (polynomial_size : Z)
    (h_bsk : list double2) (i : Z) : list double2 :=
  fold_left (pack_pair w src polynomial_size i)
            (seqZ 0 (div32 polynomial_size 2)) h_bsk.

Definition total_polynomials (input_lwe_dim glwe_dim l_gadget : Z) : Z :=
  to_int32 (mul32 (mul32 (mul32 input_lwe_dim (to_uint32 (glwe_dim + 1)))
                         (to_uint32 (glwe_dim + 1)))
                  l_gadget).

(** Number of [double2] the staging buffers hold: [buffer_size /
    sizeof(double2)]. *)
Definition buffer_len (input_lwe_dim glwe_dim l_gadget polynomial_size : Z) : Z :=
  div32 (mul32 (total_polynomials input_lwe_dim glwe_dim l_gadget) polynomial_size) 2.

(** The staging buffer [h_bsk] after the packing loops. *)
Definition packed_key (w : Z) (src : list Z)
    (input_lwe_dim glwe_dim l_gadget polynomial_size : Z) : list double2 :=
  fold_left (pack_polynomial w src polynomial_size)
            (seqZ 0 (total_polynomials input_lwe_dim glwe_dim l_gadget))
            (map uninitialized
                 (seq 0 (Z.to_nat (buffer_len input_lwe_dim glwe_dim l_gadget
                                              polynomial_size)))).

(** The [case] labels of the [switch (polynomial_size)]. *)
Definition supported_degree (polynomial_size : Z) : bool :=
  existsb (Z.eqb polynomial_size) [512; 1024; 2048; 4096; 8192].

(** What a call leaves behind: the kernels it launched, in order, and the
    contents of [dest]. The function is [void]: there is no status. *)
Record conversion : Type := {
  launches : list Cuda.cuda_call;
  dest_after : list double2
}.

(** [cuda_convert_lwe_bootstrap_key<T, ST>]; [w] is the width of [T], [src]
    holds the [ST] values. *)
Definition cuda_convert_lwe_bootstrap_key (w : Z) (dest : list double2)
    (src : list Z) (v_stream gpu_index : Z)
    (input_lwe_dim glwe_dim l_gadget polynomial_size : Z) : conversion :=
  let shared_memory_size := to_int32 (8 * polynomial_size) in
  let gridSize := total_polynomials input_lwe_dim glwe_dim l_gadget in
  let blockSize := to_int32 (div32 polynomial_size (choose_opt polynomial_size)) in
  let d_bsk := packed_key w src input_lwe_dim glwe_dim l_gadget polynomial_size in
  if supported_degree polynomial_size then
    {| launches := [Cuda.CudaLaunchFFT polynomial_size gridSize blockSize
                                       shared_memory_size v_stream];
       dest_after := batch_NSMFFT polynomial_size gridSize d_bsk dest |}
  else
    {| launches := []; dest_after := dest |}.

(** The two exported entry points. *)
Definition cuda_convert_lwe_bootstrap_key_32 :=
  cuda_convert_lwe_bootstrap_key 32.

Definition cuda_convert_lwe_bootstrap_key_64 :=
  cuda_convert_lwe_bootstrap_key 64.

End Convert.

End Bsk.

(** ** The amortized bootstrap *)

(** The template parameters of the kernel: the width of [Torus] in bytes,
    [params::degree] and [params::opt]. *)
Class Params : Type := {
  sizeof_Torus : Z;
  degree : Z;
  opt : Z
}.

(** [HalfDegree<params>]: the number of [double2] of a compressed polynomial. *)
Definition half_degree `{Params} : nat := Z.to_nat (degree / 2).

Definition fft_buffer `{FloatOps} `{Params} : Type := vec double2 half_degree.

(** The [__device__] routines the kernel calls and that other files of
    concrete-cuda define. Each is taken as the function from what it reads to
    what it leaves in the buffer it writes: a routine with a separate output
    buffer returns that buffer, an [_inplace] routine maps the old contents to
    the new ones, an accumulating routine also takes the old contents of its
    result. Torus and [int16_t] polynomials are lists, a pointer into an array
    being the list from that position on. *)
Class DeviceFunctions `{FloatOps} `{Params} : Type := {
  rescale_torus_element : Z -> Z -> Z;
  (* (input, j, zeroAcc) gives accumulator *)
  divide_by_monomial_negacyclic_inplace : list Z -> Z -> bool -> list Z;
  (* (acc, j) gives result_acc *)
  multiply_by_monomial_negacyclic_and_sub_polynomial : list Z -> Z -> list Z;
  (* (rotated_acc, base_log, l_gadget) gives rotated_acc *)
  round_to_closest_multiple_inplace : list Z -> Z -> Z -> list Z;
  (* GadgetMatrix(base_log, l_gadget).decompose_one_level(result, polynomial, level) *)
  decompose_one_level : Z -> Z -> list Z -> Z -> list Z;
  (* (src) gives dst *)
  real_to_complex_compressed : list Z -> fft_buffer;
  NSMFFT_direct : fft_buffer -> fft_buffer;
  correction_direct_fft_inplace : fft_buffer -> fft_buffer;
  (* (result, first, second) gives result *)
  polynomial_product_accumulate_in_fourier_domain :
    fft_buffer -> fft_buffer -> list double2 -> fft_buffer;
  correction_inverse_fft_inplace : fft_buffer -> fft_buffer;
  NSMFFT_inverse : fft_buffer -> fft_buffer;
  (* (m_values, result) gives result *)
  add_to_torus : fft_buffer -> list Z -> list Z;
  (* (lwe_out from the block's slot on, accumulator) gives lwe_out from there on *)
  sample_extract_mask : list Z -> list Z -> list Z;
  sample_extract_body : list Z -> list Z -> list Z
}.

Module Pbs.
Import CInt Cuda.
Local Open Scope host_scope.

(** *** Launch arithmetic of [host_bootstrap_amortized] *)

Section Launch.
Context `{Params}.

(** [int SM_FULL]: the sum is computed in [size_t] and stored in an [int];
    [sizeof(int16_t)] is 2 and [sizeof(double2)] is 16. *)
Definition SM_FULL (polynomial_size : Z) : Z :=
  to_int32 (to_uint64
    (sizeof_Torus * polynomial_size + sizeof_Torus * polynomial_size
     + sizeof_Torus * polynomial_size + sizeof_Torus * polynomial_size
     + 2 * polynomial_size + 2 * polynomial_size
     + 16 * polynomial_size / 2 + 16 * polynomial_size / 2
     + 16 * polynomial_size / 2)).

Definition SM_PART (polynomial_size : Z) : Z :=
  to_int32 (to_uint64 (16 * polynomial_size / 2)).

Definition DM_PART (polynomial_size : Z) : Z :=
  to_int32 (SM_FULL polynomial_size - SM_PART polynomial_size).

Definition DM_FULL (polynomial_size : Z) : Z := SM_FULL polynomial_size.

(** What one call configures: the kernel instantiation, the grid and block
    widths, the dynamic shared memory of the launch, the bytes asked of
    [cudaMalloc] for [d_mem] and the [device_memory_size_per_sample]
    argument. *)
Record launch : Type := {
  tier : sharedMemDegree;
  grid_x : Z;
  thds_x : Z;
  dynamic_shared : Z;
  d_mem_bytes : Z;
  per_sample : Z
}.

(** The three-way choice; [max_shared_memory] is a [uint32_t], so the
    comparisons with the [int] footprints are done on [unsigned]. *)
Definition choose_launch (polynomial_size input_lwe_ciphertext_count
                          max_shared_memory : Z) : launch :=
  let grid := input_lwe_ciphertext_count in
  let thds := to_uint32 polynomial_size / to_uint32 opt in
  if max_shared_memory <? to_uint32 (SM_PART polynomial_size) then
    {| tier := NOSM; grid_x := grid; thds_x := thds;
       dynamic_shared := 0;
       d_mem_bytes := to_uint32 (DM_FULL polynomial_size * input_lwe_ciphertext_count);
       per_sample := to_uint64 (DM_FULL polynomial_size) |}
  else if max_shared_memory <? to_uint32 (SM_FULL polynomial_size) then
    {| tier := PARTIALSM; grid_x := grid; thds_x := thds;
       dynamic_shared := SM_PART polynomial_size;
       d_mem_bytes := to_uint32 (DM_PART polynomial_size * input_lwe_ciphertext_count);
       per_sample := to_uint64 (DM_PART polynomial_size) |}
  else
    {| tier := FULLSM; grid_x := grid; thds_x := thds;
       dynamic_shared := SM_FULL polynomial_size;
       d_mem_bytes := 0;
       per_sample := 0 |}.

(** *** Where the kernel puts its buffers

    The kernel carves its nine buffers out of [selected_memory] by pointer
    arithmetic; [selected_memory] is [sharedmem] under [FULLSM] and the
    block's slice of [device_mem] otherwise, and under [PARTIALSM]
    [accumulator_fft] is [sharedmem] itself. Offsets are in bytes from the
    start of the memory named. *)
Inductive memory_space : Type := sharedmem | device_mem.

Record region : Type := {
  space : memory_space;
  start : Z;
  bytes : Z
}.

Definition selected_memory (SMD : sharedMemDegree) : memory_space :=
  match SMD with FULLSM => sharedmem | NOSM | PARTIALSM => device_mem end.

Definition accumulator_mask_decomposed_at : Z := 0.

(** [accumulator_mask_decomposed], as a pointer to [int16_t], plus
    [polynomial_size]. *)
Definition accumulator_body_decomposed_at (polynomial_size : Z) : Z :=
  accumulator_mask_decomposed_at + 2 * polynomial_size.

(** [accumulator_body_decomposed], cast to a pointer to [Torus], plus
    [polynomial_size / (sizeof(Torus) / sizeof(int16_t))]. *)
Definition accumulator_mask_at (polynomial_size : Z) : Z :=
  accumulator_body_decomposed_at polynomial_size
  + sizeof_Torus * (polynomial_size / (sizeof_Torus / 2)).

Definition accumulator_body_at (polynomial_size : Z) : Z :=
  accumulator_mask_at polynomial_size + sizeof_Torus * polynomial_size.

Definition accumulator_mask_rotated_at (polynomial_size : Z) : Z :=
  accumulator_body_at polynomial_size + sizeof_Torus * polynomial_size.

Definition accumulator_body_rotated_at (polynomial_size : Z) : Z :=
  accumulator_mask_rotated_at polynomial_size + sizeof_Torus * polynomial_size.

(** [accumulator_body_rotated], cast to a pointer to [double2], plus
    [polynomial_size / (sizeof(double2) / sizeof(Torus))]. *)
Definition mask_res_fft_at (polynomial_size : Z) : Z :=
  accumulator_body_rotated_at polynomial_size
  + 16 * (polynomial_size / (16 / sizeof_Torus)).

(** [mask_res_fft] plus [polynomial_size / 2]. *)
Definition body_res_fft_at (polynomial_size : Z) : Z :=
  mask_res_fft_at polynomial_size + 16 * (polynomial_size / 2).

(** [sharedmem] itself, replaced when [SMD != PARTIALSM] by [body_res_fft]
    plus [polynomial_size / 2]. *)
Definition accumulator_fft_at (SMD : sharedMemDegree) (polynomial_size : Z) : Z :=
  match SMD with
  | PARTIALSM => 0
  | FULLSM | NOSM => body_res_fft_at polynomial_size + 16 * (polynomial_size / 2)
  end.

(** The nine buffers with the bytes the kernel uses of each: [N] values of
    [int16_t] or [Torus], [N / 2] values of [double2]. *)
Definition layout (SMD : sharedMemDegree) (polynomial_size : Z) : list region :=
  let base := selected_memory SMD in
  [ {| space := base; start := accumulator_mask_decomposed_at;
       bytes := 2 * polynomial_size |};
    {| space := base; start := accumulator_body_decomposed_at polynomial_size;
       bytes := 2 * polynomial_size |};
    {| space := base; start := accumulator_mask_at polynomial_size;
       bytes := sizeof_Torus * polynomial_size |};
    {| space := base; start := accumulator_body_at polynomial_size;
       bytes := sizeof_Torus * polynomial_size |};
    {| space := base; start := accumulator_mask_rotated_at polynomial_size;
       bytes := sizeof_Torus * polynomial_size |};
    {| space := base; start := accumulator_body_rotated_at polynomial_size;
       bytes := sizeof_Torus * polynomial_size |};
    {| space := base; start := mask_res_fft_at polynomial_size;
       bytes := 16 * (polynomial_size / 2) |};
    {| space := base; start := body_res_fft_at polynomial_size;
       bytes := 16 * (polynomial_size / 2) |};
    {| space := match SMD with PARTIALSM => sharedmem | _ => base end;
       start := accumulator_fft_at SMD polynomial_size;
       bytes := 16 * (polynomial_size / 2) |} ].

(** The bytes a launch provides per block in each memory. *)
Definition provided (cfg : launch) (m : memory_space) : Z :=
  match m with
  | sharedmem => dynamic_shared cfg
  | device_mem => per_sample cfg
  end.

End Launch.

(** [selected_memory] as a byte offset: [sharedmem] itself under [FULLSM],
    [&device_mem[blockIdx.x * device_memory_size_per_sample]] otherwise, the
    product being computed in [size_t]. *)
Definition selected_memory_at (SMD : sharedMemDegree)
    (blockIdx device_memory_size_per_sample : Z) : Z :=
  match SMD with
  | FULLSM => 0
  | NOSM | PARTIALSM => to_uint64 (blockIdx * device_memory_size_per_sample)
  end.

(** *** Buffers of the kernel *)

(** The position [i] of a buffer of [n] cells, when there is one. *)
Definition cell {n : nat} (i : Z) : option (fin n) :=
  if decide (0 <= i) then
    match decide (Z.to_nat i < n)%nat with
    | left Hlt => Some (nat_to_fin Hlt)
    | right _ => None
    end
  else None.

(** [b[i] = f(b[i])]. *)
Definition buf_alter {A : Type} {n : nat} (f : A -> A) (i : Z) (b : vec A n) : vec A n :=
  match cell i with
  | Some k => vinsert k (f (b !!! k)) b
  | None => b
  end.

(** [dst[i] = src[i]]. *)
Definition buf_copy {A : Type} {n : nat} (src : vec A n) (i : Z) (dst : vec A n) : vec A n :=
  match cell i with
  | Some k => vinsert k (src !!! k) dst
  | None => dst
  end.

(** What the kernel is observed to do, in program order. The log is ghost
    state: no instruction reads it. *)
Inductive event : Type :=
| Barrier                                   (* synchronize_threads_in_block *)
| Rotated (iteration a_hat : Z)             (* ACC * (X^a_hat - 1), mask and body *)
| Rounded (iteration : Z)
| Cleared (iteration : Z)                   (* mask_res_fft, body_res_fft zeroed *)
| Decomposed (iteration decomp_level : Z)
| Accumulated (iteration decomp_level : Z)  (* the four products of one level *)
| AddedBack (iteration : Z).                (* inverse FFT and add_to_torus *)

Section Kernel.
Context {FO : FloatOps} {P : Params} {DF : DeviceFunctions}.

(** The buffers carved out of [selected_memory] (and, for [accumulator_fft]
    under [PARTIALSM], out of [sharedmem]). *)
Record scratch : Type := {
  accumulator_mask_decomposed : list Z;
  accumulator_body_decomposed : list Z;
  accumulator_mask : list Z;
  accumulator_body : list Z;
  accumulator_mask_rotated : list Z;
  accumulator_body_rotated : list Z;
  mask_res_fft : fft_buffer;
  body_res_fft : fft_buffer;
  accumulator_fft : fft_buffer;
  events : list event
}.

Definition set_accumulator_mask_decomposed (v : list Z) (s : scratch) : scratch :=
  {| accumulator_mask_decomposed := v;
     accumulator_body_decomposed := accumulator_body_decomposed s;
     accumulator_mask := accumulator_mask s;
     accumulator_body := accumulator_body s;
     accumulator_mask_rotated := accumulator_mask_rotated s;
     accumulator_body_rotated := accumulator_body_rotated s;
     mask_res_fft := mask_res_fft s;
     body_res_fft := body_res_fft s;
     accumulator_fft := accumulator_fft s;
     events := events s |}.

Definition set_accumulator_body_decomposed (v : list Z) (s : scratch) : scratch :=
  {| accumulator_mask_decomposed := accumulator_mask_decomposed s;
     accumulator_body_decomposed := v;
     accumulator_mask := accumulator_mask s;
     accumulator_body := accumulator_body s;
     accumulator_mask_rotated := accumulator_mask_rotated s;
     accumulator_body_rotated := accumulator_body_rotated s;
     mask_res_fft := mask_res_fft s;
     body_res_fft := body_res_fft s;
     accumulator_fft := accumulator_fft s;
     events := events s |}.

Definition set_accumulator_mask (v : list Z) (s : scratch) : scratch :=
  {| accumulator_mask_decomposed := accumulator_mask_decomposed s;
     accumulator_body_decomposed := accumulator_body_decomposed s;
     accumulator_mask := v;
     accumulator_body := accumulator_body s;
     accumulator_mask_rotated := accumulator_mask_rotated s;
     accumulator_body_rotated := accumulator_body_rotated s;
     mask_res_fft := mask_res_fft s;
     body_res_fft := body_res_fft s;
     accumulator_fft := accumulator_fft s;
     events := events s |}.

Definition set_accumulator_body (v : list Z) (s : scratch) : scratch :=
  {| accumulator_mask_decomposed := accumulator_mask_decomposed s;
     accumulator_body_decomposed := accumulator_body_decomposed s;
     accumulator_mask := accumulator_mask s;
     accumulator_body := v;
     accumulator_mask_rotated := accumulator_mask_rotated s;
     accumulator_body_rotated := accumulator_body_rotated s;
     mask_res_fft := mask_res_fft s;
     body_res_fft := body_res_fft s;
     accumulator_fft := accumulator_fft s;
     events := events s |}.

Definition set_accumulator_mask_rotated (v : list Z) (s : scratch) : scratch :=
  {| accumulator_mask_decomposed := accumulator_mask_decomposed s;
     accumulator_body_decomposed := accumulator_body_decomposed s;
     accumulator_mask := accumulator_mask s;
     accumulator_body := accumulator_body s;
     accumulator_mask_rotated := v;
     accumulator_body_rotated := accumulator_body_rotated s;
     mask_res_fft := mask_res_fft s;
     body_res_fft := body_res_fft s;
     accumulator_fft := accumulator_fft s;
     events := events s |}.

Definition set_accumulator_body_rotated (v : list Z) (s : scratch) : scratch :=
  {| accumulator_mask_decomposed := accumulator_mask_decomposed s;
     accumulator_body_decomposed := accumulator_body_decomposed s;
     accumulator_mask := accumulator_mask s;
     accumulator_body := accumulator_body s;
     accumulator_mask_rotated := accumulator_mask_rotated s;
     accumulator_body_rotated := v;
     mask_res_fft := mask_res_fft s;
     body_res_fft := body_res_fft s;
     accumulator_fft := accumulator_fft s;
     events := events s |}.

Definition set_mask_res_fft (v : fft_buffer) (s : scratch) : scratch :=
  {| accumulator_mask_decomposed := accumulator_mask_decomposed s;
     accumulator_body_decomposed := accumulator_body_decomposed s;
     accumulator_mask := accumulator_mask s;
     accumulator_body := accumulator_body s;
     accumulator_mask_rotated := accumulator_mask_rotated s;
     accumulator_body_rotated := accumulator_body_rotated s;
     mask_res_fft := v;
     body_res_fft := body_res_fft s;
     accumulator_fft := accumulator_fft s;
     events := events s |}.

Definition set_body_res_fft (v : fft_buffer) (s : scratch) : scratch :=
  {| accumulator_mask_decomposed := accumulator_mask_decomposed s;
     accumulator_body_decomposed := accumulator_body_decomposed s;
     accumulator_mask := accumulator_mask s;
     accumulator_body := accumulator_body s;
     accumulator_mask_rotated := accumulator_mask_rotated s;
     accumulator_body_rotated := accumulator_body_rotated s;
     mask_res_fft := mask_res_fft s;
     body_res_fft := v;
     accumulator_fft := accumulator_fft s;
     events := events s |}.

Definition set_accumulator_fft (v : fft_buffer) (s : scratch) : scratch :=
  {| accumulator_mask_decomposed := accumulator_mask_decomposed s;
     accumulator_body_decomposed := accumulator_body_decomposed s;
     accumulator_mask := accumulator_mask s;
     accumulator_body := accumulator_body s;
     accumulator_mask_rotated := accumulator_mask_rotated s;
     accumulator_body_rotated := accumulator_body_rotated s;
     mask_res_fft := mask_res_fft s;
     body_res_fft := body_res_fft s;
     accumulator_fft := v;
     events := events s |}.

Definition emit (e : event) (s : scratch) : scratch :=
  {| accumulator_mask_decomposed := accumulator_mask_decomposed s;
     accumulator_body_decomposed := accumulator_body_decomposed s;
     accumulator_mask := accumulator_mask s;
     accumulator_body := accumulator_body s;
     accumulator_mask_rotated := accumulator_mask_rotated s;
     accumulator_body_rotated := accumulator_body_rotated s;
     mask_res_fft := mask_res_fft s;
     body_res_fft := body_res_fft s;
     accumulator_fft := accumulator_fft s;
     events := events s ++ [e] |}.

Definition synchronize_threads_in_block (s : scratch) : scratch := emit Barrier s.

(** The loop every thread runs over its cells:
    [pos = threadIdx.x; for (j = 0; j < params::opt / 2; j++)
     { body(pos); pos += params::degree / params::opt; }]. *)
Definition thread_cells {S : Type} (body : Z -> S -> S) (threadIdx : Z) (s : S) : S :=
  snd (fold_left (fun '(pos, s) (_ : Z) => (pos + degree / opt, body pos s))
                 (seqZ 0 (opt / 2)) (threadIdx, s)).

(** The threads of the block, [threadIdx.x] from 0 to [blockDim.x - 1],
    between two barriers. They touch disjoint cells, so they are run one
    after the other. *)
Definition all_threads {S : Type} (blockDim : Z) (code : Z -> S -> S) (s : S) : S :=
  fold_left (fun s threadIdx => code threadIdx s) (seqZ 0 blockDim) s.

Definition zero : double := double_of_Z 0.

(** [mask_res_fft[pos].x = 0; mask_res_fft[pos].y = 0;
     body_res_fft[pos].x = 0; body_res_fft[pos].y = 0;]. *)
Definition clear_cell (pos : Z) (s : scratch) : scratch :=
  let s := set_mask_res_fft (buf_alter (fun c => (zero, snd c)) pos (mask_res_fft s)) s in
  let s := set_mask_res_fft (buf_alter (fun c => (fst c, zero)) pos (mask_res_fft s)) s in
  let s := set_body_res_fft (buf_alter (fun c => (zero, snd c)) pos (body_res_fft s)) s in
  set_body_res_fft (buf_alter (fun c => (fst c, zero)) pos (body_res_fft s)) s.

(** [PolynomialFourier<double2, params>(&bootstrapping_key[offset])]. *)
Definition bsk_slice (bootstrapping_key : list double2) (offset : Z) : list double2 :=
  drop (Z.to_nat offset) bootstrapping_key.

(** One turn of the loop over [decomp_level]. *)
Definition external_product_level (bootstrapping_key : list double2)
    (polynomial_size base_log l_gadget iteration : Z)
    (s : scratch) (decomp_level : Z) : scratch :=
  let s := set_accumulator_mask_decomposed
             (decompose_one_level base_log l_gadget
                                  (accumulator_mask_rotated s) decomp_level) s in
  let s := set_accumulator_body_decomposed
             (decompose_one_level base_log l_gadget
                                  (accumulator_body_rotated s) decomp_level) s in
  let s := emit (Decomposed iteration decomp_level) s in
  let s := synchronize_threads_in_block s in
  (* the mask polynomial *)
  let s := set_accumulator_fft
             (real_to_complex_compressed (accumulator_mask_decomposed s)) s in
  let s := synchronize_threads_in_block s in
  let s := set_accumulator_fft (NSMFFT_direct (accumulator_fft s)) s in
  let s := synchronize_threads_in_block s in
  let s := set_accumulator_fft (correction_direct_fft_inplace (accumulator_fft s)) s in
  let bsk_mask_slice :=
    bsk_slice bootstrapping_key
      (Bsk.get_ith_mask_kth_block iteration 0 decomp_level polynomial_size 1 l_gadget) in
  let bsk_body_slice :=
    bsk_slice bootstrapping_key
      (Bsk.get_ith_body_kth_block iteration 0 decomp_level polynomial_size 1 l_gadget) in
  let s := synchronize_threads_in_block s in
  let s := set_mask_res_fft
             (polynomial_product_accumulate_in_fourier_domain
                (mask_res_fft s) (accumulator_fft s) bsk_mask_slice) s in
  let s := set_body_res_fft
             (polynomial_product_accumulate_in_fourier_domain
                (body_res_fft s) (accumulator_fft s) bsk_body_slice) s in
  let s := synchronize_threads_in_block s in
  (* the body polynomial *)
  let s := set_accumulator_fft
             (real_to_complex_compressed (accumulator_body_decomposed s)) s in
  let s := synchronize_threads_in_block s in
  let s := set_accumulator_fft (NSMFFT_direct (accumulator_fft s)) s in
  let s := synchronize_threads_in_block s in
  let s := set_accumulator_fft (correction_direct_fft_inplace (accumulator_fft s)) s in
  let bsk_mask_slice_2 :=
    bsk_slice bootstrapping_key
      (Bsk.get_ith_mask_kth_block iteration 1 decomp_level polynomial_size 1 l_gadget) in
  let bsk_body_slice_2 :=
    bsk_slice bootstrapping_key
      (Bsk.get_ith_body_kth_block iteration 1 decomp_level polynomial_size 1 l_gadget) in
  let s := synchronize_threads_in_block s in
  let s := set_mask_res_fft
             (polynomial_product_accumulate_in_fourier_domain
                (mask_res_fft s) (accumulator_fft s) bsk_mask_slice_2) s in
  let s := set_body_res_fft
             (polynomial_product_accumulate_in_fourier_domain
                (body_res_fft s) (accumulator_fft s) bsk_body_slice_2) s in
  emit (Accumulated iteration decomp_level) s.

(** "Come back to the coefficient representation": the branch of
    [if constexpr (SMD == FULLSM || SMD == NOSM)] and its [else]. *)
Definition back_to_coefficients (SMD : sharedMemDegree) (blockDim : Z)
    (s : scratch) : scratch :=
  match SMD with
  | FULLSM | NOSM =>
      let s := synchronize_threads_in_block s in
      let s := set_mask_res_fft (correction_inverse_fft_inplace (mask_res_fft s)) s in
      let s := set_body_res_fft (correction_inverse_fft_inplace (body_res_fft s)) s in
      let s := synchronize_threads_in_block s in
      let s := set_mask_res_fft (NSMFFT_inverse (mask_res_fft s)) s in
      let s := set_body_res_fft (NSMFFT_inverse (body_res_fft s)) s in
      let s := synchronize_threads_in_block s in
      let s := set_accumulator_mask (add_to_torus (mask_res_fft s) (accumulator_mask s)) s in
      let s := set_accumulator_body (add_to_torus (body_res_fft s) (accumulator_body s)) s in
      synchronize_threads_in_block s
  | PARTIALSM =>
      let s := all_threads blockDim
                 (thread_cells (fun tid s =>
                    set_accumulator_fft
                      (buf_copy (mask_res_fft s) tid (accumulator_fft s)) s)) s in
      let s := synchronize_threads_in_block s in
      let s := set_accumulator_fft (correction_inverse_fft_inplace (accumulator_fft s)) s in
      let s := synchronize_threads_in_block s in
      let s := set_accumulator_fft (NSMFFT_inverse (accumulator_fft s)) s in
      let s := synchronize_threads_in_block s in
      let s := set_accumulator_mask (add_to_torus (accumulator_fft s) (accumulator_mask s)) s in
      let s := synchronize_threads_in_block s in
      let s := all_threads blockDim
                 (thread_cells (fun tid s =>
                    set_accumulator_fft
                      (buf_copy (body_res_fft s) tid (accumulator_fft s)) s)) s in
      let s := synchronize_threads_in_block s in
      let s := set_accumulator_fft (correction_inverse_fft_inplace (accumulator_fft s)) s in
      let s := synchronize_threads_in_block s in
      let s := set_accumulator_fft (NSMFFT_inverse (accumulator_fft s)) s in
      let s := synchronize_threads_in_block s in
      let s := set_accumulator_body (add_to_torus (accumulator_fft s) (accumulator_body s)) s in
      synchronize_threads_in_block s
  end.

(** One turn of the loop over the mask elements; [block_lwe_in] is [lwe_in]
    from the block's ciphertext on. *)
Definition blind_rotate_iteration (SMD : sharedMemDegree) (blockDim : Z)
    (block_lwe_in : list Z) (bootstrapping_key : list double2)
    (polynomial_size base_log l_gadget : Z)
    (s : scratch) (iteration : Z) : scratch :=
  let s := synchronize_threads_in_block s in
  let a_hat :=
    rescale_torus_element (block_lwe_in !!! Z.to_nat iteration) (2 * degree) in
  (* if (a_hat == 0) { // continue } : the branch is empty *)
  let s := if a_hat =? 0 then s else s in
  let s := set_accumulator_mask_rotated
             (multiply_by_monomial_negacyclic_and_sub_polynomial
                (accumulator_mask s) a_hat) s in
  let s := set_accumulator_body_rotated
             (multiply_by_monomial_negacyclic_and_sub_polynomial
                (accumulator_body s) a_hat) s in
  let s := emit (Rotated iteration a_hat) s in
  let s := synchronize_threads_in_block s in
  let s := set_accumulator_mask_rotated
             (round_to_closest_multiple_inplace
                (accumulator_mask_rotated s) base_log l_gadget) s in
  let s := set_accumulator_body_rotated
             (round_to_closest_multiple_inplace
                (accumulator_body_rotated s) base_log l_gadget) s in
  let s := emit (Rounded iteration) s in
  let s := all_threads blockDim (thread_cells clear_cell) s in
  let s := emit (Cleared iteration) s in
  let s := fold_left
             (external_product_level bootstrapping_key polynomial_size
                                     base_log l_gadget iteration)
             (seqZ 0 l_gadget) s in
  let s := back_to_coefficients SMD blockDim s in
  emit (AddedBack iteration) s.

(** The state of a block when the loop over the mask elements has ended. *)
Definition blind_rotation (SMD : sharedMemDegree) (blockDim blockIdx : Z)
    (lut_vector lut_vector_indexes lwe_in : list Z)
    (bootstrapping_key : list double2)
    (lwe_mask_size polynomial_size base_log l_gadget lwe_idx : Z)
    (s : scratch) : scratch :=
  let block_lwe_in :=
    drop (Z.to_nat (Bsk.mul32 blockIdx (lwe_mask_size + 1))) lwe_in in
  let block_lut_vector :=
    drop (Z.to_nat
            (Bsk.mul32
               (Bsk.mul32 (lut_vector_indexes !!! Z.to_nat (to_uint32 (lwe_idx + blockIdx)))
                          degree) 2))
         lut_vector in
  let b_hat :=
    rescale_torus_element (block_lwe_in !!! Z.to_nat lwe_mask_size) (2 * degree) in
  let s := set_accumulator_mask
             (divide_by_monomial_negacyclic_inplace block_lut_vector b_hat false) s in
  let s := set_accumulator_body
             (divide_by_monomial_negacyclic_inplace
                (drop (Z.to_nat degree) block_lut_vector) b_hat false) s in
  fold_left
    (blind_rotate_iteration SMD blockDim block_lwe_in bootstrapping_key
                            polynomial_size base_log l_gadget)
    (seqZ 0 lwe_mask_size) s.

(** [device_bootstrap_amortized<Torus, params, SMD>] for the block
    [blockIdx.x]: the contents of [lwe_out] when the block has finished;
    [s] is what the block finds in its scratch memory. *)
Definition device_bootstrap_amortized (SMD : sharedMemDegree) (blockDim blockIdx : Z)
    (lwe_out lut_vector lut_vector_indexes lwe_in : list Z)
    (bootstrapping_key : list double2)
    (lwe_mask_size polynomial_size base_log l_gadget lwe_idx : Z)
    (s : scratch) : list Z :=
  let s := blind_rotation SMD blockDim blockIdx lut_vector lut_vector_indexes
                          lwe_in bootstrapping_key lwe_mask_size polynomial_size
                          base_log l_gadget lwe_idx s in
  let at_ := Z.to_nat (Bsk.mul32 blockIdx (to_uint32 (polynomial_size + 1))) in
  let block_lwe_out := drop at_ lwe_out in
  let block_lwe_out := sample_extract_mask block_lwe_out (accumulator_mask s) in
  let block_lwe_out := sample_extract_body block_lwe_out (accumulator_body s) in
  take at_ lwe_out ++ block_lwe_out.

(** The grid of a launch: one block per input ciphertext. Blocks share
    nothing but read-only inputs; [memory b] is the scratch block [b] starts
    from. *)
Definition run_grid (SMD : sharedMemDegree) (gridDim blockDim : Z)
    (memory : Z -> scratch)
    (lwe_out lut_vector lut_vector_indexes lwe_in : list Z)
    (bootstrapping_key : list double2)
    (lwe_mask_size polynomial_size base_log l_gadget lwe_idx : Z) : list Z :=
  fold_left
    (fun lwe_out blockIdx =>
       device_bootstrap_amortized SMD blockDim blockIdx lwe_out lut_vector
         lut_vector_indexes lwe_in bootstrapping_key lwe_mask_size
         polynomial_size base_log l_gadget lwe_idx (memory blockIdx))
    (seqZ 0 gridDim) lwe_out.

(** [host_bootstrap_amortized<Torus, params>]: the contents of [lwe_out]
    when the call returns, or [None] when [checkCudaErrors] has ended the
    process. The kernel runs between its launch and the return from
    [cudaStreamSynchronize].

    Whether the runtime accepts a function attribute, a cache configuration
    or a launch configuration depends on the device and on the compiled
    kernel, which are not part of these files: [accepted] is its verdict on
    each such call. Under [FULLSM] the attribute and the cache configuration
    are wrapped in [checkCudaErrors]; under [PARTIALSM] their status is
    dropped. The allocation of [d_mem] is wrapped in [checkCudaErrors] in
    the three branches. Neither the launch nor what follows it is checked:
    a launch the runtime refuses runs no block and leaves [lwe_out] as it
    was. *)
Definition host_bootstrap_amortized (accepted : cuda_call -> bool)
    (memory : Z -> scratch) (v_stream : Z)
    (lwe_out lut_vector lut_vector_indexes lwe_in : list Z)
    (bootstrapping_key : list double2)
    (input_lwe_dimension polynomial_size base_log l_gadget
     input_lwe_ciphertext_count num_lut_vectors lwe_idx max_shared_memory : Z)
  : Host (option (list Z)) :=
  let cfg := choose_launch polynomial_size input_lwe_ciphertext_count
                           max_shared_memory in
  let attribute := CudaFuncSetAttribute (tier cfg) (dynamic_shared cfg) in
  let cache_config := CudaFuncSetCacheConfig (tier cfg) in
  let kernel := CudaLaunchKernel (tier cfg) (grid_x cfg) (thds_x cfg)
                                 (dynamic_shared cfg) v_stream (per_sample cfg) in
  configured <~ (match tier cfg with
                 | NOSM => ret true
                 | PARTIALSM => log attribute ;;; log cache_config ;;; ret true
                 | FULLSM =>
                     log attribute ;;;
                     if accepted attribute
                     then (log cache_config ;;; ret (accepted cache_config))
                     else ret false
                 end) ;;
  if configured then
    d_mem <~ cudaMalloc_checked (d_mem_bytes cfg) ;;
    match d_mem with
    | Some d_mem =>
        log kernel ;;;
        log (CudaStreamSynchronize v_stream) ;;;
        cudaFree d_mem ;;;
        ret (Some (if accepted kernel
                   then run_grid (tier cfg) (grid_x cfg) (thds_x cfg) memory lwe_out
                          lut_vector lut_vector_indexes lwe_in bootstrapping_key
                          input_lwe_dimension polynomial_size base_log l_gadget
                          lwe_idx
                   else lwe_out))
    | None => ret None
    end
  else ret None.

End Kernel.

End Pbs.

(** ** Concrete inputs used by the examples below *)

Module Examples.
Import Cuda.

(** Two GPUs with 1000 free bytes each. The pointer 100 is device memory of
    GPU 1, the pointer 200 is page-locked host memory registered with
    GPU 0, every other pointer is device memory of GPU 0. *)
Definition two_gpus : cuda_runtime :=
  {| device_count := 2;
     current_device := 0;
     free_mem := fun _ => 1000;
     total_mem := fun _ => 4096;
     pointer_attributes := fun p =>
       if p =? 100 then {| attr_type := cudaMemoryTypeDevice; attr_device := 1 |}
       else if p =? 200 then {| attr_type := cudaMemoryTypeHost; attr_device := 0 |}
       else {| attr_type := cudaMemoryTypeDevice; attr_device := 0 |};
     allocations := [];
     calls := [] |}.

(** A 64-bit torus, polynomials of 8 coefficients, 4 coefficients per
    thread: two threads, each owning two cells of a 4-cell frequency-domain
    buffer. *)
Definition small_params : Params :=
  {| sizeof_Torus := 8; degree := 8; opt := 4 |}.

(** The frequency-domain buffer of that size. *)
Definition small_buffer : Type := vec (Q * Q) 4.

Definition small_real_to_complex (src : list Z) : small_buffer :=
  fun_to_vec (fun k : fin 4 =>
    (inject_Z (nth (2 * fin_to_nat k) src 0),
     inject_Z (nth (2 * fin_to_nat k + 1) src 0))).

Definition small_product_accumulate (result first : small_buffer)
    (second : list (Q * Q)) : small_buffer :=
  fun_to_vec (fun k : fin 4 =>
    let r := result !!! k in
    let f := first !!! k in
    let b := nth (fin_to_nat k) second (0, 0)%Q in
    (fst r + (fst f * fst b - snd f * snd b),
     snd r + (fst f * snd b + snd f * fst b))%Q).

Definition small_add_to_torus (m_values : small_buffer) (result : list Z) : list Z :=
  zip_with Z.add result
    (flat_map (fun c => [Qfloor (fst c); Qfloor (snd c)]) (vec_to_list m_values)).

(** Stand-ins for the device routines on that size, over exact arithmetic:
    small integer and rational maps with the shapes of the real routines. *)
Definition small_device : @DeviceFunctions exact_double small_params :=
  @Build_DeviceFunctions exact_double small_params
    (fun x m => x mod m)
    (fun input j zeroAcc =>
       if zeroAcc then replicate 8 0 else map (fun x => x - j) (take 8 input))
    (fun acc j => map (fun x => x * j - x) acc)
    (fun acc base_log l_gadget => map (fun x => x / 2 ^ base_log * 2 ^ base_log) acc)
    (fun base_log l_gadget poly level =>
       map (fun x => x / 2 ^ (base_log * (level + 1)) mod 2 ^ base_log) poly)
    small_real_to_complex
    (vmap (fun c : Q * Q => (fst c + snd c, fst c - snd c)%Q) : small_buffer -> small_buffer)
    (vmap (fun c : Q * Q => (fst c * 2, snd c)%Q) : small_buffer -> small_buffer)
    small_product_accumulate
    (vmap (fun c : Q * Q => (fst c / 2, snd c)%Q) : small_buffer -> small_buffer)
    (vmap (fun c : Q * Q => ((fst c + snd c) / 2, (fst c - snd c) / 2)%Q)
       : small_buffer -> small_buffer)
    small_add_to_torus
    (fun lwe_out acc => take 8 acc ++ drop 8 lwe_out)
    (fun lwe_out acc => take 8 lwe_out ++ take 1 acc ++ drop 9 lwe_out).

(** Scratch memory as a block finds it: arbitrary contents, here marked by
    the block index, and an empty log. *)
Definition stale (fill : Z) (blockIdx : Z)
  : @Pbs.scratch exact_double small_params :=
  @Pbs.Build_scratch exact_double small_params
    [fill; blockIdx] [] [fill] [blockIdx; fill] [] [fill]
    (vreplicate 4 (inject_Z fill, 1%Q) : small_buffer)
    (vreplicate 4 (2%Q, inject_Z blockIdx) : small_buffer)
    (vreplicate 4 (inject_Z fill, inject_Z fill) : small_buffer)
    [].

(** A batch of two ciphertexts of 3 mask elements, two look-up tables, and
    a key of 3 GGSW of 2 levels (3 * 2 * 4 polynomials of 4 pairs). The first
    mask element of the first ciphertext is 0. *)
Definition lwe_in : list Z := [0; 5; 9; 3; 16; 7; 2; 11].
Definition lut_vector : list Z := map (fun i => 3 * i + 1) (seqZ 0 32).
Definition lut_vector_indexes : list Z := [1; 0].
Definition bootstrapping_key : list (Q * Q) :=
  map (fun i => (inject_Z (i mod 5) - 2, inject_Z (i mod 3)))%Q (seqZ 0 96).
Definition lwe_out : list Z := replicate 18 0.

(** What [cudaGetDeviceProperties] reports for the two GPUs: compute
    capability 8.x for GPU 0, 7.x for the other. *)
Definition two_gpus_properties (device : Z) : cudaDeviceProp :=
  if device =? 0 then
    {| major := 8; sharedMemPerMultiprocessor := 102400; sharedMemPerBlock := 49152 |}
  else
    {| major := 7; sharedMemPerMultiprocessor := 98304; sharedMemPerBlock := 49152 |}.

(** The batch [lwe_in] with another second ciphertext. *)
Definition lwe_in_other : list Z := [0; 5; 9; 3; 1; 1; 1; 1].

(** One GPU with 1 GiB free, and a runtime that accepts every attribute,
    cache configuration and launch. *)
Definition large_gpu : cuda_runtime :=
  {| device_count := 1;
     current_device := 0;
     free_mem := fun _ => 2 ^ 30;
     total_mem := fun _ => 2 ^ 31;
     pointer_attributes := fun _ =>
       {| attr_type := cudaMemoryTypeDevice; attr_device := 0 |};
     allocations := [];
     calls := [] |}.

Definition all_accepted (c : cuda_call) : bool := true.

End Examples.

(** ** Statements the properties are phrased with *)

Module Spec.
Import Cuda Device.

(** Every runtime entry point only appends to the log. *)
Definition extends_log (rt rt' : cuda_runtime) (new : list cuda_call) : Prop :=
  calls rt' = calls rt ++ new.

(** What the two asynchronous copies do, in the order of their tests; [ptr]
    is the pointer whose attributes are queried. *)
Definition async_copy_status (size gpu_index : Z) (ptr : Z) (rt : cuda_runtime) : Z :=
  if size =? 0 then ZeroSizeCopy
  else if gpu_index >=? device_count rt then InvalidDevice
  else if pointer_rejected (pointer_attributes rt ptr) gpu_index then InvalidPointer
  else ok.

(** The footprints of the launch configurator, in bytes, for a polynomial
    of [N] coefficients: everything on chip, and the frequency-domain
    working buffer alone. *)
Definition full_footprint {P : Params} (N : Z) : Z :=
  4 * sizeof_Torus * N + 2 * 2 * N + 3 * 16 * N / 2.

Definition fft_footprint (N : Z) : Z := 16 * N / 2.

(** The slice of the converted key the kernel multiplies with: the body
    block or the mask block of GGSW [i], row [k], level [level], for the
    GLWE dimension 1 the kernel fixes. *)
Definition block_start (body : bool) (i k level N l : Z) : Z :=
  if body then Bsk.get_ith_body_kth_block i k level N 1 l
  else Bsk.get_ith_mask_kth_block i k level N 1 l.

(** The rank of that slice among the polynomials of the key. *)
Definition polynomial_index (body : bool) (i k level l : Z) : Z :=
  4 * (i * l + level) + 2 * k + (if body then 1 else 0).

(** Two slices of [len] cells do not share a cell. *)
Definition disjoint_slices (a b len : Z) : Prop :=
  a + len <= b \/ b + len <= a.

(** Binary-digit reversal on [bits] digits: digit [b] of [i] becomes digit
    [bits - 1 - b]. *)
Definition bit_reverse (bits : nat) (i : Z) : Z :=
  fold_left
    (fun acc b => if Z.testbit i (Z.of_nat b)
                  then acc + 2 ^ (Z.of_nat bits - 1 - Z.of_nat b) else acc)
    (seq 0 bits) 0.

(** The pairs [(i, rev i)] with [i < rev i], for [i] from 1 to [order - 1]
    in increasing order. *)
Definition swap_pairs (order : Z) : list (Z * Z) :=
  List.filter (fun p => fst p <? snd p)
    (map (fun i => (i, bit_reverse (Z.to_nat (Z.log2 order)) i))
         (seqZ 1 (order - 1))).

(** The two tables: the pairs from position 0 on, then zeros, [N / 2]
    entries in all. *)
Definition swap_tables (N : Z) : list Z * list Z :=
  let pairs := swap_pairs (N / 2) in
  let padding := replicate (Z.to_nat (N / 2) - length pairs)%nat 0 in
  (map fst pairs ++ padding, map snd pairs ++ padding).

Definition supported_degrees : list Z := [512; 1024; 2048; 4096; 8192].

(** Digit reversal by recursion on the number of digits: the lowest digit
    becomes the highest. *)
Fixpoint reverse_digits (bits : nat) (i : Z) : Z :=
  match bits with
  | O => 0
  | S b => i mod 2 * 2 ^ Z.of_nat b + reverse_digits b (i / 2)
  end.

(** The swap pairs among [1 .. m], and the table of [order] entries they
    fill from position 0. *)
Definition swaps_up_to (bits : nat) (m : Z) : list (Z * Z) :=
  List.filter (fun p => fst p <? snd p)
    (map (fun i => (i, reverse_digits bits i)) (seqZ 1 m)).

Definition padded (order : Z) (entries : list Z) : list Z :=
  entries ++ replicate (Z.to_nat order - length entries)%nat 0.

(** Storing, for each key of [ks] in turn, the value [val k] in cell
    [idx k]. *)
Definition write_all {A K : Type} (idx : K -> nat) (val : K -> A)
    (ks : list K) (l : list A) : list A :=
  fold_left (fun l k => alter (fun _ => val k) (idx k) l) ks l.

(** The pair the converter stores for polynomial [i], position [j]. *)
Definition packed_value {FO : FloatOps} (w : Z) (src : list Z) (N i j : Z) : double2 :=
  (double_div (double_of_Z (src !!! Z.to_nat (i * N + 2 * j)))
              (double_of_Z (2 ^ w - 1)),
   double_div (double_of_Z (src !!! Z.to_nat (i * N + 2 * j + 1)))
              (double_of_Z (2 ^ w - 1))).

(** The number of polynomials of a key: [n] GGSW of [(g+1)^2] polynomials
    per level. *)
Definition key_polynomials (n g l : Z) : Z := n * ((g + 1) * (g + 1)) * l.

(** The cells of the staging buffer, polynomial by polynomial: [(i, j)] is
    pair [j] of polynomial [i]. *)
Definition key_cells (total h : Z) : list (Z * Z) :=
  flat_map (fun i => map (pair i) (seqZ 0 h)) (seqZ 0 total).

(** What the twiddle builder holds when [i] has run from 1 to [m], for a
    reversal on [bits] digits and tables of [order] entries. *)
Definition reached (bits : nat) (order m : Z) (st : Bsk.twiddle_state) : Prop :=
  Bsk.tw_j st = reverse_digits bits m
  /\ Bsk.tw_cnt st = Z.of_nat (length (swaps_up_to bits m))
  /\ Bsk.sw1_h st = padded order (map fst (swaps_up_to bits m))
  /\ Bsk.sw2_h st = padded order (map snd (swaps_up_to bits m)).

(** The computation a host function appends to the log of runtime calls. *)
Definition issued {A : Type} (f : Host A) (rt : cuda_runtime) : list cuda_call :=
  drop (length (calls rt)) (calls (snd (f rt))).

(** The attribute and cache-configuration calls that precede the
    allocation of the scratch, by tier. *)
Definition launch_setup (cfg : Pbs.launch) : list cuda_call :=
  match Pbs.tier cfg with
  | NOSM => []
  | PARTIALSM | FULLSM =>
      [CudaFuncSetAttribute (Pbs.tier cfg) (Pbs.dynamic_shared cfg);
       CudaFuncSetCacheConfig (Pbs.tier cfg)]
  end.

(** The kernel launch of a configuration on a stream. *)
Definition kernel_launch (cfg : Pbs.launch) (v_stream : Z) : cuda_call :=
  CudaLaunchKernel (Pbs.tier cfg) (Pbs.grid_x cfg) (Pbs.thds_x cfg)
                   (Pbs.dynamic_shared cfg) v_stream (Pbs.per_sample cfg).

(** The runtime accepts the calls the launcher checks before it allocates:
    the attribute and the cache configuration of the [FULLSM] kernel. *)
Definition setup_accepted (accepted : cuda_call -> bool) (cfg : Pbs.launch) : bool :=
  match Pbs.tier cfg with
  | FULLSM => accepted (CudaFuncSetAttribute FULLSM (Pbs.dynamic_shared cfg))
              && accepted (CudaFuncSetCacheConfig FULLSM)
  | NOSM | PARTIALSM => true
  end.

(** The current device has [size] bytes free. *)
Definition granted (rt : cuda_runtime) (size : Z) : bool :=
  size <=? free_mem rt (current_device rt).

(** The calls of a launcher that runs to its end. *)
Definition launcher_calls (cfg : Pbs.launch) (v_stream : Z) : list cuda_call :=
  launch_setup cfg
  ++ [CudaMalloc (Pbs.d_mem_bytes cfg); kernel_launch cfg v_stream;
      CudaStreamSynchronize v_stream; CudaFree].

(** The runtime calls of an asynchronous copy that ends with [status];
    [copy] is the copy it enqueues when it succeeds. *)
Definition async_copy_calls (status ptr gpu_index : Z) (copy : cuda_call)
  : list cuda_call :=
  if status =? ZeroSizeCopy then []
  else if status =? InvalidDevice then [CudaGetDeviceCount]
  else if status =? InvalidPointer then
    [CudaGetDeviceCount; CudaPointerGetAttributes ptr]
  else
    [CudaGetDeviceCount; CudaPointerGetAttributes ptr; CudaSetDevice gpu_index; copy].

(** The barriers and phases of one turn of the decomposition loop, of the
    return to coefficients, and of one blind-rotation iteration. *)
Definition level_events (iteration decomp_level : Z) : list Pbs.event :=
  [Pbs.Decomposed iteration decomp_level] ++ replicate 8 Pbs.Barrier
  ++ [Pbs.Accumulated iteration decomp_level].

Definition tail_barriers (SMD : sharedMemDegree) : nat :=
  match SMD with PARTIALSM => 8%nat | FULLSM | NOSM => 4%nat end.

Definition iteration_events (SMD : sharedMemDegree) (l_gadget iteration a_hat : Z)
  : list Pbs.event :=
  [Pbs.Barrier; Pbs.Rotated iteration a_hat; Pbs.Barrier;
   Pbs.Rounded iteration; Pbs.Cleared iteration]
  ++ flat_map (level_events iteration) (seqZ 0 l_gadget)
  ++ replicate (tail_barriers SMD) Pbs.Barrier
  ++ [Pbs.AddedBack iteration].

Definition is_rotated (e : Pbs.event) : bool :=
  match e with Pbs.Rotated _ _ => true | _ => false end.

Definition is_added_back (e : Pbs.event) : bool :=
  match e with Pbs.AddedBack _ => true | _ => false end.

Definition is_barrier (e : Pbs.event) : bool :=
  match e with Pbs.Barrier => true | _ => false end.

(** A buffer of exact complex numbers that holds only zeros. *)
Definition zeroed (dest : list (Q * Q)) : Prop :=
  Forall (fun c => (fst c == 0)%Q /\ (snd c == 0)%Q) dest.

(** The closed unit interval, in exact arithmetic and in binary64. *)
Definition in_unit_interval (x : Q) : Prop := (0 <= x)%Q /\ (x <= 1)%Q.

Definition in_unit_interval64 (x : spec_float) : bool :=
  SFleb (S754_zero false) x && SFleb x (binary_normalize 53 1024 1 0 false).

(** The cells thread [threadIdx] visits, and those the whole block visits. *)
Definition thread_positions {P : Params} (threadIdx : Z) : list Z :=
  map (fun j => threadIdx + j * (degree / opt)) (seqZ 0 (opt / 2)).

Definition block_positions {P : Params} (blockDim : Z) : list Z :=
  flat_map thread_positions (seqZ 0 blockDim).

(** The six buffers one turn of the decomposition loop reads before it
    writes them. *)
Definition same_inputs {FO : FloatOps} {P : Params} (s1 s2 : Pbs.scratch) : Prop :=
  Pbs.accumulator_mask s1 = Pbs.accumulator_mask s2
  /\ Pbs.accumulator_body s1 = Pbs.accumulator_body s2
  /\ Pbs.accumulator_mask_rotated s1 = Pbs.accumulator_mask_rotated s2
  /\ Pbs.accumulator_body_rotated s1 = Pbs.accumulator_body_rotated s2
  /\ Pbs.mask_res_fft s1 = Pbs.mask_res_fft s2
  /\ Pbs.body_res_fft s1 = Pbs.body_res_fft s2.

(** A buffer lies within the bytes provided in its memory. *)
Definition within (limit : Pbs.memory_space -> Z) (r : Pbs.region) : Prop :=
  0 <= Pbs.start r /\ Pbs.start r + Pbs.bytes r <= limit (Pbs.space r).

(** Two buffers share no byte. *)
Definition apart (r1 r2 : Pbs.region) : Prop :=
  Pbs.space r1 <> Pbs.space r2
  \/ Pbs.start r1 + Pbs.bytes r1 <= Pbs.start r2
  \/ Pbs.start r2 + Pbs.bytes r2 <= Pbs.start r1.

(** A frequency-domain buffer of zeros. *)
Definition zeros {FO : FloatOps} {P : Params} : fft_buffer :=
  vreplicate half_degree (Pbs.zero, Pbs.zero).

Definition same_accumulators {FO : FloatOps} {P : Params} (s1 s2 : Pbs.scratch) : Prop :=
  Pbs.accumulator_mask s1 = Pbs.accumulator_mask s2
  /\ Pbs.accumulator_body s1 = Pbs.accumulator_body s2.

(** One blind-rotation step on the pair of accumulator polynomials, as the
    algorithm is described: both are multiplied by [X^a_hat] with the
    original subtracted, and rounded; for every level the digit of each is
    taken to the frequency domain (forward FFT, then the correction) and
    multiplied against the four blocks of the key entry of this iteration
    and level, the products being added to two running sums that start at
    zero; the sums are taken back (the inverse correction, then the inverse
    FFT) and added to the accumulators as they were before the rotation. *)
Section BlindRotationStep.
Context {FO : FloatOps} {P : Params} {DF : DeviceFunctions}.

Definition to_frequency (digits : list Z) : fft_buffer :=
  correction_direct_fft_inplace (NSMFFT_direct (real_to_complex_compressed digits)).

Definition key_block (key : list double2) (offset : Z) : list double2 :=
  drop (Z.to_nat offset) key.

Definition level_products (key : list double2) (N base_log l iteration : Z)
    (rotated : list Z * list Z) (sums : fft_buffer * fft_buffer) (level : Z)
  : fft_buffer * fft_buffer :=
  let mask_digits := to_frequency (decompose_one_level base_log l (fst rotated) level) in
  let body_digits := to_frequency (decompose_one_level base_log l (snd rotated) level) in
  let mask_sum :=
    polynomial_product_accumulate_in_fourier_domain (fst sums) mask_digits
      (key_block key (Bsk.get_ith_mask_kth_block iteration 0 level N 1 l)) in
  let body_sum :=
    polynomial_product_accumulate_in_fourier_domain (snd sums) mask_digits
      (key_block key (Bsk.get_ith_body_kth_block iteration 0 level N 1 l)) in
  (polynomial_product_accumulate_in_fourier_domain mask_sum body_digits
     (key_block key (Bsk.get_ith_mask_kth_block iteration 1 level N 1 l)),
   polynomial_product_accumulate_in_fourier_domain body_sum body_digits
     (key_block key (Bsk.get_ith_body_kth_block iteration 1 level N 1 l))).

Definition add_back (sum : fft_buffer) (accumulator : list Z) : list Z :=
  add_to_torus (NSMFFT_inverse (correction_inverse_fft_inplace sum)) accumulator.

Definition rotate_and_accumulate (key : list double2) (N base_log l : Z)
    (accumulators : list Z * list Z) (iteration a_hat : Z) : list Z * list Z :=
  let rotated :=
    (round_to_closest_multiple_inplace
       (multiply_by_monomial_negacyclic_and_sub_polynomial (fst accumulators) a_hat)
       base_log l,
     round_to_closest_multiple_inplace
       (multiply_by_monomial_negacyclic_and_sub_polynomial (snd accumulators) a_hat)
       base_log l) in
  let sums := fold_left (level_products key N base_log l iteration rotated)
                        (seqZ 0 l) (zeros, zeros) in
  (add_back (fst sums) (fst accumulators), add_back (snd sums) (snd accumulators)).

(** The accumulators of a block: what it starts the loop from, and what the
    steps for the mask elements [0 .. n - 1] of its ciphertext make of it. *)
Definition block_ciphertext (lwe_in : list Z) (blockIdx n : Z) : list Z :=
  drop (Z.to_nat (Bsk.mul32 blockIdx (n + 1))) lwe_in.

Definition rotation_amount (ciphertext : list Z) (i : Z) : Z :=
  rescale_torus_element (ciphertext !!! Z.to_nat i) (2 * degree).

Definition initial_accumulators (lut_vector lut_vector_indexes lwe_in : list Z)
    (blockIdx n lwe_idx : Z) : list Z * list Z :=
  let lut :=
    drop (Z.to_nat
            (Bsk.mul32
               (Bsk.mul32
                  (lut_vector_indexes !!! Z.to_nat (CInt.to_uint32 (lwe_idx + blockIdx)))
                  degree) 2))
         lut_vector in
  let b_hat := rotation_amount (block_ciphertext lwe_in blockIdx n) n in
  (divide_by_monomial_negacyclic_inplace lut b_hat false,
   divide_by_monomial_negacyclic_inplace (drop (Z.to_nat degree) lut) b_hat false).

Definition blind_rotated (key : list double2) (lut_vector lut_vector_indexes lwe_in : list Z)
    (blockIdx n N base_log l lwe_idx : Z) : list Z * list Z :=
  fold_left
    (fun accumulators i =>
       rotate_and_accumulate key N base_log l accumulators i
         (rotation_amount (block_ciphertext lwe_in blockIdx n) i))
    (seqZ 0 n)
    (initial_accumulators lut_vector lut_vector_indexes lwe_in blockIdx n lwe_idx).

End BlindRotationStep.

(** The runtime apart from its log of calls: devices, memory, pointers and
    allocations. *)
Definition same_devices (rt rt' : cuda_runtime) : Prop :=
  device_count rt' = device_count rt
  /\ current_device rt' = current_device rt
  /\ free_mem rt' = free_mem rt
  /\ total_mem rt' = total_mem rt
  /\ pointer_attributes rt' = pointer_attributes rt
  /\ allocations rt' = allocations rt.

(** What a host function does when it turns down the device index: it has
    asked for the number of devices and nothing else. *)
Definition turned_down (f : Host Z) (rt : cuda_runtime) : Prop :=
  f rt = (InvalidDevice, snd (cudaGetDeviceCount rt)).

(** What the twiddle builder keeps true while [i] runs from 1 to [m]: [j]
    stays below [top], [cnt] trails the loop counter and the tables keep
    their [order] entries. *)
Definition twiddle_safe (top order m : Z) (st : Bsk.twiddle_state) : Prop :=
  0 <= Bsk.tw_j st < top
  /\ 0 <= Bsk.tw_cnt st <= m
  /\ length (Bsk.sw1_h st) = Z.to_nat order
  /\ length (Bsk.sw2_h st) = Z.to_nat order.

(** Both tables hold positions of a table of [order] entries. *)
Definition twiddle_entries (order : Z) (st : Bsk.twiddle_state) : Prop :=
  Forall (fun e => 0 <= e < order) (Bsk.sw1_h st)
  /\ Forall (fun e => 0 <= e < order) (Bsk.sw2_h st).

End Spec.

(** * Properties *)

(** ** Fixed-width integers *)

Lemma to_uint32_small (z : Z) : 0 <= z < 2 ^ 32 -> CInt.to_uint32 z = z.
Proof. intros Hz. unfold CInt.to_uint32. apply Z.mod_small. exact Hz. Qed.

Lemma to_uint64_small (z : Z) : 0 <= z < 2 ^ 64 -> CInt.to_uint64 z = z.
Proof. intros Hz. unfold CInt.to_uint64. apply Z.mod_small. exact Hz. Qed.

Lemma to_int32_small (z : Z) : - 2 ^ 31 <= z < 2 ^ 31 -> CInt.to_int32 z = z.
Proof.
  intros Hz. unfold CInt.to_int32, CInt.to_signed.
  change (2 ^ (32 - 1)) with (2 ^ 31).
  rewrite Z.mod_small; lia.
Qed.

Lemma mul32_small (a b : Z) : 0 <= a * b < 2 ^ 32 -> Bsk.mul32 a b = a * b.
Proof. intros Hab. unfold Bsk.mul32. apply to_uint32_small. exact Hab. Qed.

Lemma div32_small (a b : Z) :
  0 <= a < 2 ^ 32 -> 0 <= b < 2 ^ 32 -> Bsk.div32 a b = a / b.
Proof.
  intros Ha Hb. unfold Bsk.div32. rewrite !to_uint32_small; auto.
Qed.

(** ** The device resource manager *)

Section DeviceFacts.
Import Cuda Device Spec.

(** C7. [cuda_check_valid_malloc] answers [InvalidDevice] when the index is
    at least the device count, otherwise [OutOfMemory] when the size exceeds
    the free memory of that device, otherwise [ok]; it allocates nothing:
    the allocation table and the free memory are as before and no
    [cudaMalloc] was issued. *)
Theorem cuda_check_valid_malloc_tristate (size gpu_index : Z) (rt : cuda_runtime) :
  0 <= device_count rt < 2 ^ 31 ->
  0 <= gpu_index < 2 ^ 32 ->
  let result := cuda_check_valid_malloc size gpu_index rt in
  fst result =
    (if gpu_index >=? device_count rt then InvalidDevice
     else if size >? free_mem rt gpu_index then OutOfMemory
     else ok)
  /\ allocations (snd result) = allocations rt
  /\ free_mem (snd result) = free_mem rt
  /\ exists new, extends_log rt (snd result) new
                 /\ forallb (fun c => negb (is_malloc c)) new = true.
Proof.
  intros Hcount Hidx. cbv zeta.
  unfold cuda_check_valid_malloc, cuda_get_number_of_gpus, cudaGetDeviceCount,
    cudaSetDevice, cudaMemGetInfo, bind, log, ret, extends_log. cbn.
  rewrite to_uint32_small by lia.
  destruct (gpu_index >=? device_count rt) eqn:Hge; cbn.
  - repeat split; eauto.
  - assert (Hin : (0 <=? gpu_index) && (gpu_index <? device_count rt) = true).
    { apply andb_true_intro; split; [apply Z.leb_le | apply Z.ltb_lt]; lia. }
    rewrite Hin. cbn.
    destruct (size >? free_mem rt gpu_index) eqn:Hsz; cbn;
      rewrite <- !app_assoc; repeat split; eauto.
Qed.

Lemma cuda_check_valid_malloc_tristate_witness :
  (0 <= device_count Examples.two_gpus < 2 ^ 31 /\ 0 <= 1 < 2 ^ 32)
  /\ fst (cuda_check_valid_malloc 2048 1 Examples.two_gpus) = OutOfMemory
  /\ allocations (snd (cuda_check_valid_malloc 2048 1 Examples.two_gpus)) = [].
Proof.
  assert (Hc : 0 <= device_count Examples.two_gpus < 2 ^ 31) by (cbn; lia).
  assert (Hi : 0 <= 1 < 2 ^ 32) by lia.
  split; [split; assumption |].
  destruct (cuda_check_valid_malloc_tristate 2048 1 Examples.two_gpus Hc Hi)
    as (Hstatus & Halloc & _).
  split; [exact Hstatus | exact Halloc].
Defined.

Lemma cuda_memcpy_async_to_gpu_status (dest src size v_stream gpu_index : Z)
    (rt : cuda_runtime) :
  0 <= device_count rt < 2 ^ 31 ->
  fst (cuda_memcpy_async_to_gpu dest src size v_stream gpu_index rt)
  = async_copy_status size gpu_index dest rt.
Proof.
  intros Hcount.
  unfold cuda_memcpy_async_to_gpu, async_copy_status, cuda_get_number_of_gpus,
    cudaGetDeviceCount, cudaPointerGetAttributes, cudaSetDevice, bind, log, ret.
  destruct (size =? 0); [reflexivity |]. cbn.
  rewrite to_uint32_small by lia.
  destruct (gpu_index >=? device_count rt); [reflexivity |]. cbn.
  destruct (pointer_rejected (pointer_attributes rt dest) gpu_index); reflexivity.
Qed.

Lemma cuda_memcpy_async_to_cpu_status (dest src size v_stream gpu_index : Z)
    (rt : cuda_runtime) :
  0 <= device_count rt < 2 ^ 31 ->
  fst (cuda_memcpy_async_to_cpu dest src size v_stream gpu_index rt)
  = async_copy_status size gpu_index src rt.
Proof.
  intros Hcount.
  unfold cuda_memcpy_async_to_cpu, async_copy_status, cuda_get_number_of_gpus,
    cudaGetDeviceCount, cudaPointerGetAttributes, cudaSetDevice, bind, log, ret.
  destruct (size =? 0); [reflexivity |]. cbn.
  rewrite to_uint32_small by lia.
  destruct (gpu_index >=? device_count rt); [reflexivity |]. cbn.
  destruct (pointer_rejected (pointer_attributes rt src) gpu_index); reflexivity.
Qed.

(** A pointer is turned down only when both attributes are off. *)
Lemma pointer_rejected_iff (attr : cudaPointerAttributes) (gpu_index : Z) :
  pointer_rejected attr gpu_index = true
  <-> CInt.to_uint32 (attr_device attr) <> gpu_index
      /\ attr_type attr <> cudaMemoryTypeDevice.
Proof.
  unfold pointer_rejected. rewrite andb_true_iff, !negb_true_iff, Z.eqb_neq.
  destruct (attr_type attr); cbn; intuition congruence.
Qed.

(** C6. With two GPUs and a non-empty copy to GPU 0, a destination that is
    device memory of GPU 1 and a source that is page-locked host memory are
    both let through: the copies are enqueued and the calls return 0. *)
Theorem async_copy_accepts_single_mismatch :
  cuda_memcpy_async_to_gpu 100 7 16 1 0 Examples.two_gpus
  = (ok, snd (log (CudaMemcpyAsync 100 7 16 cudaMemcpyHostToDevice 1)
                (snd (cudaSetDevice 0
                   (snd (cudaPointerGetAttributes 100
                      (snd (cudaGetDeviceCount Examples.two_gpus))))))))
  /\ fst (cuda_memcpy_async_to_cpu 7 200 16 1 0 Examples.two_gpus) = ok
  /\ CInt.to_uint32 (attr_device (pointer_attributes Examples.two_gpus 100)) <> 0
  /\ attr_type (pointer_attributes Examples.two_gpus 200) <> cudaMemoryTypeDevice.
Proof.
  repeat split; try reflexivity; cbn; discriminate.
Qed.

End DeviceFacts.

(** ** The launch configurator *)

Section LaunchFacts.
Import Cuda Pbs Spec.
Context {P : Params}.

Lemma sixteen_halves (N : Z) : 16 * N / 2 = 8 * N.
Proof. replace (16 * N) with (8 * N * 2) by lia. apply Z.div_mul. lia. Qed.

Lemma fortyeight_halves (N : Z) : 3 * 16 * N / 2 = 24 * N.
Proof. replace (3 * 16 * N) with (24 * N * 2) by lia. apply Z.div_mul. lia. Qed.

Lemma SM_FULL_exact (N : Z) :
  0 <= N -> 0 <= sizeof_Torus -> (4 * sizeof_Torus + 28) * N < 2 ^ 31 ->
  SM_FULL N = full_footprint N.
Proof.
  intros HN HT Hfit. unfold SM_FULL, full_footprint.
  rewrite !sixteen_halves.
  rewrite fortyeight_halves.
  assert (Hx : 0 <= sizeof_Torus * N) by (apply Z.mul_nonneg_nonneg; lia).
  assert (Hy : 4 * (sizeof_Torus * N) + 28 * N < 2 ^ 31) by lia.
  rewrite (Z.mul_comm 4 sizeof_Torus), <- (Z.mul_assoc sizeof_Torus 4 N),
    (Z.mul_comm 4 N), (Z.mul_assoc sizeof_Torus N 4).
  generalize dependent (sizeof_Torus * N). intros x Hx Hy.
  rewrite to_uint64_small by lia.
  rewrite to_int32_small by lia. lia.
Qed.

Lemma SM_PART_exact (N : Z) :
  0 <= N -> 8 * N < 2 ^ 31 -> SM_PART N = fft_footprint N.
Proof.
  intros HN Hfit. unfold SM_PART, fft_footprint.
  rewrite !sixteen_halves.
  rewrite to_uint64_small by lia.
  rewrite to_int32_small by lia. reflexivity.
Qed.

Lemma fft_footprint_le_full (N : Z) :
  0 <= N -> 0 <= sizeof_Torus -> 0 <= fft_footprint N <= full_footprint N.
Proof.
  intros HN HT. unfold fft_footprint, full_footprint.
  rewrite !sixteen_halves.
  rewrite fortyeight_halves.
  assert (Hx : 0 <= sizeof_Torus * N) by (apply Z.mul_nonneg_nonneg; lia).
  rewrite <- (Z.mul_assoc 4 sizeof_Torus N). lia.
Qed.

Lemma choose_launch_cases (N count capacity : Z) :
  0 <= N -> 0 <= sizeof_Torus -> (4 * sizeof_Torus + 28) * N < 2 ^ 31 ->
  0 <= capacity < 2 ^ 32 ->
  let cfg := choose_launch N count capacity in
  SM_FULL N = full_footprint N
  /\ SM_PART N = fft_footprint N
  /\ (forall count', tier (choose_launch N count' capacity) = tier cfg
                     /\ per_sample (choose_launch N count' capacity) = per_sample cfg)
  /\ (full_footprint N <= capacity ->
      tier cfg = FULLSM /\ per_sample cfg = 0)
  /\ (fft_footprint N <= capacity < full_footprint N ->
      tier cfg = PARTIALSM /\ per_sample cfg = full_footprint N - fft_footprint N)
  /\ (capacity < fft_footprint N ->
      tier cfg = NOSM /\ per_sample cfg = full_footprint N).
Proof.
  intros HN HT Hfit Hcap cfg.
  pose proof (SM_FULL_exact N HN HT Hfit) as Hfull.
  pose proof (SM_PART_exact N HN ltac:(nia)) as Hpart.
  pose proof (fft_footprint_le_full N HN HT) as Hle.
  assert (Hbound : full_footprint N < 2 ^ 31).
  { rewrite <- Hfull. unfold SM_FULL, CInt.to_int32, CInt.to_signed.
    change (2 ^ (32 - 1)) with (2 ^ 31).
    pose proof (Z.mod_pos_bound
      (CInt.to_uint64 (sizeof_Torus * N + sizeof_Torus * N + sizeof_Torus * N
        + sizeof_Torus * N + 2 * N + 2 * N + 16 * N / 2 + 16 * N / 2 + 16 * N / 2)
       + 2 ^ 31) (2 ^ 32) ltac:(lia)). lia. }
  split; [exact Hfull |]. split; [exact Hpart |].
  subst cfg. unfold choose_launch, DM_FULL, DM_PART.
  rewrite Hfull, Hpart.
  rewrite (to_uint32_small (fft_footprint N)) by lia.
  rewrite (to_uint32_small (full_footprint N)) by lia.
  rewrite (to_int32_small (full_footprint N - fft_footprint N)) by lia.
  rewrite (to_uint64_small (full_footprint N)) by lia.
  rewrite (to_uint64_small (full_footprint N - fft_footprint N)) by lia.
  destruct (Z.ltb_spec capacity (fft_footprint N)) as [H1 | H1];
    [| destruct (Z.ltb_spec capacity (full_footprint N)) as [H2 | H2]]; cbn;
    repeat split; intros; try reflexivity; lia.
Qed.

End LaunchFacts.

(** ** Layout of the converted key *)

Section KeyLayout.
Import Bsk Spec.

Variables n l N h : Z.
Hypothesis Hh : 0 < h.
Hypothesis HN : N = 2 * h.
Hypothesis Hn : 0 <= n.
Hypothesis Hl : 0 <= l.
Hypothesis Hfit : 4 * n * l * N < 2 ^ 32.

Lemma half_N : N / 2 = h.
Proof. rewrite HN, Z.mul_comm. apply Z.div_mul. lia. Qed.

Lemma rank_bound (i level : Z) :
  0 <= i < n -> 0 <= level < l -> 0 <= i * l + level /\ i * l + level + 1 <= n * l.
Proof. intros Hi Hlv. nia. Qed.

Lemma total_polynomials_exact : total_polynomials n 1 l = 4 * n * l.
Proof.
  unfold total_polynomials. change (CInt.to_uint32 (1 + 1)) with 2.
  assert (0 <= n * l) by nia.
  assert (4 * (n * l) * 2 <= 4 * (n * l) * N) by nia.
  assert (Hb : 4 * (n * l) < 2 ^ 31) by lia.
  destruct (Z.eq_dec l 0) as [-> | Hl0].
  - unfold mul32. rewrite !Z.mul_0_r. reflexivity.
  - assert (n <= n * l) by nia.
    rewrite (mul32_small n 2) by lia.
    rewrite (mul32_small (n * 2) 2) by lia.
    rewrite (mul32_small (n * 2 * 2) l) by lia.
    rewrite to_int32_small by lia. lia.
Qed.

Lemma buffer_len_exact : buffer_len n 1 l N = n * l * (1 + 1) ^ 2 * (N / 2).
Proof.
  unfold buffer_len. rewrite total_polynomials_exact, half_N.
  assert (0 <= n * l) by nia.
  rewrite mul32_small by nia.
  rewrite div32_small by nia.
  rewrite HN. replace (4 * n * l * (2 * h)) with (4 * n * l * h * 2) by lia.
  rewrite Z.div_mul by lia. change ((1 + 1) ^ 2) with 4. lia.
Qed.

Lemma complex_current_poly_idx_exact (p : Z) :
  0 <= p < 4 * n * l -> complex_current_poly_idx p N = p * h.
Proof.
  intros Hp. unfold complex_current_poly_idx.
  assert (0 <= p * h /\ p * N < 4 * n * l * N) by nia.
  rewrite mul32_small by nia.
  rewrite div32_small by nia.
  rewrite HN. replace (p * (2 * h)) with (p * h * 2) by lia.
  rewrite Z.div_mul by lia.
  apply to_int32_small. nia.
Qed.

Lemma block_start_exact (body : bool) (i k level : Z) :
  0 <= i < n -> 0 <= k <= 1 -> 0 <= level < l ->
  block_start body i k level N l = polynomial_index body i k level l * h.
Proof.
  intros Hi Hk Hlv.
  destruct (rank_bound i level Hi Hlv) as [Hr0 Hr1].
  assert (Hnl : 4 * (n * l) * h * 2 < 2 ^ 32) by (rewrite HN in Hfit; lia).
  assert (Hil : 0 <= i * l) by nia.
  assert (Hih : 0 <= i * h) by nia.
  assert (Hlh : 0 <= level * h) by nia.
  assert (Hihl : 0 <= i * h * l /\ i * h * l = i * l * h) by nia.
  assert (Hmain : (i * l + level + 1) * h <= n * l * h) by nia.
  assert (Hi1 : i * h <= i * l * h) by nia.
  assert (Hk1 : 0 <= k * h <= h) by nia.
  assert (Hstart : get_start_ith_ggsw i N 1 l = 4 * (i * l * h)).
  { unfold get_start_ith_ggsw. change (1 + 1) with 2.
    rewrite (mul32_small i N) by (try rewrite HN; nia).
    rewrite div32_small by (try rewrite HN; nia).
    rewrite HN. replace (i * (2 * h)) with (i * h * 2) by lia.
    rewrite Z.div_mul by lia.
    rewrite (mul32_small (i * h) 2) by nia.
    rewrite (mul32_small (i * h * 2) 2) by nia.
    rewrite (mul32_small (i * h * 2 * 2) l) by nia.
    rewrite to_int32_small by nia. nia. }
  assert (Hlevel : mul32 (mul32 (div32 (mul32 level N) 2) (1 + 1)) (1 + 1)
                   = 4 * (level * h)).
  { change (1 + 1) with 2.
    rewrite (mul32_small level N) by (try rewrite HN; nia).
    rewrite div32_small by (try rewrite HN; nia).
    rewrite HN. replace (level * (2 * h)) with (level * h * 2) by lia.
    rewrite Z.div_mul by lia.
    rewrite (mul32_small (level * h) 2) by nia.
    rewrite (mul32_small (level * h * 2) 2) by nia. lia. }
  assert (Hrow : mul32 (div32 (mul32 k N) 2) (1 + 1) = 2 * (k * h)).
  { change (1 + 1) with 2.
    rewrite (mul32_small k N) by (try rewrite HN; nia).
    rewrite div32_small by (try rewrite HN; nia).
    rewrite HN. replace (k * (2 * h)) with (k * h * 2) by lia.
    rewrite Z.div_mul by lia.
    rewrite (mul32_small (k * h) 2) by nia. lia. }
  assert (Hhalf : div32 N 2 = h).
  { rewrite div32_small by (try rewrite HN; nia). apply half_N. }
  unfold block_start, polynomial_index, get_ith_body_kth_block,
    get_ith_mask_kth_block.
  rewrite Hstart, Hlevel, Hrow, Hhalf.
  destruct body; rewrite to_uint32_small by nia; nia.
Qed.

Lemma polynomial_index_range (body : bool) (i k level : Z) :
  0 <= i < n -> 0 <= k <= 1 -> 0 <= level < l ->
  0 <= polynomial_index body i k level l < 4 * n * l.
Proof.
  intros Hi Hk Hlv. destruct (rank_bound i level Hi Hlv) as [Hr0 Hr1].
  unfold polynomial_index. destruct body; nia.
Qed.

Lemma polynomial_index_inj (body body' : bool) (i k level i' k' level' : Z) :
  0 <= i < n -> 0 <= k <= 1 -> 0 <= level < l ->
  0 <= i' < n -> 0 <= k' <= 1 -> 0 <= level' < l ->
  polynomial_index body i k level l = polynomial_index body' i' k' level' l ->
  (body, i, k, level) = (body', i', k', level').
Proof.
  intros Hi Hk Hlv Hi' Hk' Hlv' Heq. unfold polynomial_index in Heq.
  assert (Hrank : i * l + level = i' * l + level'
                  /\ k = k' /\ (if body then 1 else 0) = (if body' then 1 else 0)).
  { destruct body, body'; lia. }
  destruct Hrank as (Hrank & -> & Hb).
  assert (Hi_eq : i = i') by nia. subst i'.
  assert (level = level') by lia. subst level'.
  destruct body, body'; try reflexivity; discriminate.
Qed.

End KeyLayout.

(** ** The twiddle tables *)

(** Thirty-two turns are enough for the inner loop, whatever [j]. *)
Lemma clear_leading_ones_total (fuel : nat) (j bit : Z) :
  0 <= bit < 2 ^ Z.of_nat fuel ->
  exists r, Bsk.clear_leading_ones fuel j bit = Some r.
Proof.
  revert j bit. induction fuel as [| fuel IH]; intros j bit Hbit; cbn [Bsk.clear_leading_ones].
  - assert (bit = 0) by (change (2 ^ Z.of_nat 0) with 1 in Hbit; lia). subst bit.
    rewrite Z.land_0_r. cbn. eauto.
  - destruct (Z.land j bit =? 0); [eauto |].
    apply IH. rewrite Z.shiftr_div_pow2 by lia. change (2 ^ 1) with 2.
    rewrite Nat2Z.inj_succ, Z.pow_succ_r in Hbit by lia.
    split; [apply Z.div_pos; lia |].
    apply Z.div_lt_upper_bound; lia.
Qed.

(** ** The recurrence of the twiddle builder is digit reversal *)

Lemma land_pow2_small (r k : Z) : 0 <= k -> 0 <= r < 2 ^ k -> Z.land r (2 ^ k) = 0.
Proof.
  intros Hk Hr. apply Z.bits_inj'. intros n Hn.
  rewrite Z.land_spec, Z.bits_0, Z.pow2_bits_eqb by lia.
  destruct (Z.eqb_spec k n) as [<- | Hne]; [| apply andb_false_r].
  rewrite andb_true_r.
  destruct (Z.eq_dec r 0) as [-> | Hr0]; [apply Z.bits_0 |].
  apply Z.bits_above_log2; [lia |].
  apply Z.log2_lt_pow2; lia.
Qed.

Lemma lxor_pow2_small (r k : Z) : 0 <= k -> 0 <= r < 2 ^ k -> Z.lxor r (2 ^ k) = r + 2 ^ k.
Proof.
  intros Hk Hr. symmetry. apply Z.add_nocarry_lxor. apply land_pow2_small; assumption.
Qed.

Lemma lxor_pow2_top (r k : Z) : 0 <= k -> 0 <= r < 2 ^ k -> Z.lxor (2 ^ k + r) (2 ^ k) = r.
Proof.
  intros Hk Hr. rewrite (Z.add_comm (2 ^ k) r), <- lxor_pow2_small by assumption.
  rewrite Z.lxor_assoc, Z.lxor_nilpotent, Z.lxor_0_r. reflexivity.
Qed.

Lemma land_pow2_top (r k : Z) : 0 <= k -> 0 <= r < 2 ^ k -> Z.land (2 ^ k + r) (2 ^ k) <> 0.
Proof.
  intros Hk Hr Hzero.
  assert (Hbit : Z.testbit (Z.land (2 ^ k + r) (2 ^ k)) k = true).
  { rewrite Z.land_spec, Z.pow2_bits_true, andb_true_r by lia.
    rewrite (Z.add_comm (2 ^ k) r), <- lxor_pow2_small by assumption.
    rewrite Z.lxor_spec, Z.pow2_bits_true by lia.
    assert (Hr0 : Z.testbit r k = false).
    { destruct (Z.eq_dec r 0) as [-> | Hr0]; [apply Z.bits_0 |].
      apply Z.bits_above_log2; [lia |]. apply Z.log2_lt_pow2; lia. }
    rewrite Hr0. reflexivity. }
  rewrite Hzero, Z.bits_0 in Hbit. discriminate.
Qed.

Lemma reverse_digits_range (bits : nat) (i : Z) :
  0 <= Spec.reverse_digits bits i < 2 ^ Z.of_nat bits.
Proof.
  revert i. induction bits as [| b IH]; intros i; cbn [Spec.reverse_digits].
  - cbn. lia.
  - specialize (IH (i / 2)).
    pose proof (Z.mod_pos_bound i 2 ltac:(lia)) as Hmod.
    rewrite Nat2Z.inj_succ, Z.pow_succ_r by lia.
    assert (0 < 2 ^ Z.of_nat b) by (apply Z.pow_pos_nonneg; lia).
    nia.
Qed.

Lemma reverse_digits_zero (bits : nat) : Spec.reverse_digits bits 0 = 0.
Proof.
  induction bits as [| b IH]; cbn [Spec.reverse_digits]; [reflexivity |].
  change (0 / 2) with 0. change (0 mod 2) with 0. rewrite IH. lia.
Qed.

(** The fold over the digits writes each digit of [i] at its mirrored
    place. *)
Lemma bit_reverse_from (bits : nat) (i acc : Z) (shift : nat) :
  fold_left
    (fun acc b => if Z.testbit i (Z.of_nat b)
                  then acc + 2 ^ (Z.of_nat (shift + bits) - 1 - Z.of_nat b) else acc)
    (seq shift bits) acc
  = acc + Spec.reverse_digits bits (i / 2 ^ Z.of_nat shift).
Proof.
  revert acc shift. induction bits as [| b IH]; intros acc shift.
  - cbn. lia.
  - cbn [seq fold_left Spec.reverse_digits].
    replace (Z.of_nat (shift + S b) - 1 - Z.of_nat shift) with (Z.of_nat b) by lia.
    specialize (IH (if Z.testbit i (Z.of_nat shift) then acc + 2 ^ Z.of_nat b else acc)
                   (S shift)).
    replace (S shift + b)%nat with (shift + S b)%nat in IH by lia.
    rewrite IH.
    assert (Hdiv : i / 2 ^ Z.of_nat (S shift) = i / 2 ^ Z.of_nat shift / 2).
    { rewrite Nat2Z.inj_succ, Z.pow_succ_r by lia.
      rewrite (Z.mul_comm 2). symmetry. apply Z.div_div; [| lia].
      apply Z.pow_nonzero; lia. }
    rewrite Hdiv.
    assert (Hbit : Z.testbit i (Z.of_nat shift) = Z.odd (i / 2 ^ Z.of_nat shift)).
    { rewrite <- Z.bit0_odd, <- Z.shiftr_div_pow2 by lia.
      rewrite Z.shiftr_spec by lia. reflexivity. }
    rewrite Hbit.
    pose proof (Zmod_odd (i / 2 ^ Z.of_nat shift)) as Hodd.
    destruct (Z.odd (i / 2 ^ Z.of_nat shift)); rewrite Hodd; lia.
Qed.

Lemma bit_reverse_digits (bits : nat) (i : Z) :
  Spec.bit_reverse bits i = Spec.reverse_digits bits i.
Proof.
  unfold Spec.bit_reverse.
  pose proof (bit_reverse_from bits i 0 0) as Hfold.
  cbn [Nat.add Z.of_nat] in Hfold. rewrite Hfold.
  change (2 ^ 0) with 1. rewrite Z.div_1_r. reflexivity.
Qed.

(** One more in the mirrored numeral: clearing the leading ones from the
    top digit down and setting the first zero met turns the reversal of [x]
    into the reversal of [x + 1]. *)
Lemma clear_leading_ones_successor (k : nat) :
  forall (fuel : nat) (x : Z),
    (k <= fuel)%nat -> 0 <= x -> x + 1 < 2 ^ Z.of_nat (S k) ->
    exists j bit,
      Bsk.clear_leading_ones fuel (Spec.reverse_digits (S k) x) (2 ^ Z.of_nat k)
      = Some (j, bit)
      /\ Z.lxor j bit = Spec.reverse_digits (S k) (x + 1).
Proof.
  induction k as [| k IH]; intros fuel x Hfuel Hx Hlt.
  - assert (x = 0) by (change (2 ^ Z.of_nat 1) with 2 in Hlt; lia). subst x.
    exists 0, 1. split; [destruct fuel; reflexivity | reflexivity].
  - pose proof (reverse_digits_range (S k) (x / 2)) as Hr.
    pose proof (Z.mod_pos_bound x 2 ltac:(lia)) as Hmod.
    pose proof (Z.div_mod x 2 ltac:(lia)) as Hx2.
    assert (Hpow : 2 ^ Z.of_nat (S (S k)) = 2 * 2 ^ Z.of_nat (S k)).
    { rewrite (Nat2Z.inj_succ (S k)), Z.pow_succ_r by lia. reflexivity. }
    change (Spec.reverse_digits (S (S k)) x)
      with (x mod 2 * 2 ^ Z.of_nat (S k) + Spec.reverse_digits (S k) (x / 2)).
    change (Spec.reverse_digits (S (S k)) (x + 1))
      with ((x + 1) mod 2 * 2 ^ Z.of_nat (S k)
            + Spec.reverse_digits (S k) ((x + 1) / 2)).
    destruct (Z.eq_dec (x mod 2) 0) as [Heven | Hodd].
    + (* the top digit is 0: it is set, and the loop does not turn *)
      assert (Hnext : (x + 1) mod 2 = 1 /\ (x + 1) / 2 = x / 2).
      { replace (x + 1) with (1 + x / 2 * 2) by lia.
        rewrite Z_mod_plus_full, Z.div_add by lia. split; reflexivity. }
      destruct Hnext as [-> ->]. rewrite Heven, Z.mul_0_l, Z.add_0_l, Z.mul_1_l.
      exists (Spec.reverse_digits (S k) (x / 2)), (2 ^ Z.of_nat (S k)). split.
      * destruct fuel; cbn [Bsk.clear_leading_ones];
          rewrite land_pow2_small by (try assumption; lia); reflexivity.
      * rewrite lxor_pow2_small by (try assumption; lia). lia.
    + (* the top digit is 1: it is cleared, and the loop goes on one digit down *)
      assert (Hone : x mod 2 = 1) by lia.
      assert (Hnext : (x + 1) mod 2 = 0 /\ (x + 1) / 2 = x / 2 + 1).
      { replace (x + 1) with (0 + (x / 2 + 1) * 2) by lia.
        rewrite Z_mod_plus_full, Z.div_add by lia. split; reflexivity. }
      destruct Hnext as [-> ->]. rewrite Hone, Z.mul_0_l, Z.add_0_l, Z.mul_1_l.
      destruct fuel as [| fuel]; [lia |].
      cbn [Bsk.clear_leading_ones].
      destruct (Z.eqb_spec (Z.land (2 ^ Z.of_nat (S k) + Spec.reverse_digits (S k) (x / 2))
                                   (2 ^ Z.of_nat (S k))) 0) as [Hzero | _].
      { exfalso. revert Hzero. apply land_pow2_top; [lia | assumption]. }
      rewrite lxor_pow2_top by (try assumption; lia).
      assert (Hshift : Z.shiftr (2 ^ Z.of_nat (S k)) 1 = 2 ^ Z.of_nat k).
      { rewrite Z.shiftr_div_pow2 by lia. change (2 ^ 1) with 2.
        rewrite Nat2Z.inj_succ, Z.pow_succ_r, Z.mul_comm by lia.
        apply Z.div_mul. lia. }
      rewrite Hshift. apply IH; lia.
Qed.

Lemma to_int16_small (z : Z) : - 2 ^ 15 <= z < 2 ^ 15 -> CInt.to_int16 z = z.
Proof.
  intros Hz. unfold CInt.to_int16, CInt.to_signed.
  change (2 ^ (16 - 1)) with (2 ^ 15).
  rewrite Z.mod_small; lia.
Qed.

Lemma swaps_up_to_next (bits : nat) (m : Z) :
  0 <= m ->
  Spec.swaps_up_to bits (m + 1)
  = Spec.swaps_up_to bits m
    ++ (if m + 1 <? Spec.reverse_digits bits (m + 1)
        then [(m + 1, Spec.reverse_digits bits (m + 1))] else []).
Proof.
  intros Hm. unfold Spec.swaps_up_to.
  rewrite seqZ_app by lia. rewrite map_app, List.filter_app.
  f_equal. rewrite (Z.add_comm 1 m). reflexivity.
Qed.

Lemma swaps_up_to_length (bits : nat) (m : Z) :
  (length (Spec.swaps_up_to bits m) <= Z.to_nat m)%nat.
Proof.
  unfold Spec.swaps_up_to.
  etransitivity; [apply List.filter_length_le |].
  rewrite length_map, length_seqZ. reflexivity.
Qed.

Lemma padded_store (order : Z) (entries : list Z) (x : Z) :
  (length entries < Z.to_nat order)%nat ->
  <[length entries := x]> (Spec.padded order entries) = Spec.padded order (entries ++ [x]).
Proof.
  intros Hlen. unfold Spec.padded.
  replace (length entries) with (length entries + 0)%nat at 1 by lia.
  rewrite insert_app_r.
  destruct (Z.to_nat order - length entries)%nat as [| z] eqn:Hz; [lia |].
  rewrite length_app. cbn [length replicate].
  replace (Z.to_nat order - (length entries + 1))%nat with z by lia.
  cbn. rewrite <- app_assoc. reflexivity.
Qed.

Section Twiddles.
Import Bsk Spec.
Variable k : nat.
Hypothesis Hk : (S k <= 15)%nat.

Let order : Z := 2 ^ Z.of_nat (S k).
Let N : Z := 2 * order.

Lemma order_bounds : 2 <= order <= 2 ^ 15.
Proof.
  subst order. split.
  - change 2 with (2 ^ 1) at 1. apply Z.pow_le_mono_r; lia.
  - apply Z.pow_le_mono_r; lia.
Qed.

Lemma half_of_N : div32 N 2 = order.
Proof.
  pose proof order_bounds. subst N.
  rewrite div32_small by lia.
  rewrite Z.mul_comm. apply Z.div_mul. lia.
Qed.

Lemma first_bit : Z.shiftr (div32 N 2) 1 = 2 ^ Z.of_nat k.
Proof.
  rewrite half_of_N. subst order.
  rewrite Z.shiftr_div_pow2 by lia. change (2 ^ 1) with 2.
  rewrite Nat2Z.inj_succ, Z.pow_succ_r, Z.mul_comm by lia.
  apply Z.div_mul. lia.
Qed.

Lemma twiddle_step_reached (m : Z) (st : twiddle_state) :
  0 <= m -> m + 1 < order -> reached (S k) order m st ->
  exists st', twiddle_step N (Some st) (m + 1) = Some st' /\ reached (S k) order (m + 1) st'.
Proof.
  intros Hm Hlt (Hj & Hcnt & Hsw1 & Hsw2).
  pose proof order_bounds as Horder.
  destruct (clear_leading_ones_successor k 32 m ltac:(lia) Hm Hlt)
    as (j & bit & Hloop & Hxor).
  pose proof (reverse_digits_range (S k) (m + 1)) as Hrev. fold order in Hrev.
  pose proof (swaps_up_to_length (S k) m) as Hlen.
  unfold twiddle_step. rewrite first_bit, Hj, Hloop, Hxor.
  unfold reached.
  destruct (m + 1 <? reverse_digits (S k) (m + 1)) eqn:Hswap.
  - eexists. split; [reflexivity |]. cbn [tw_j tw_cnt sw1_h sw2_h].
    rewrite !to_int16_small by lia.
    rewrite swaps_up_to_next by exact Hm. rewrite Hswap.
    rewrite Hcnt, Nat2Z.id, Hsw1, Hsw2.
    rewrite !map_app, length_app. cbn [map fst snd length].
    repeat split.
    + lia.
    + rewrite <- padded_store by (rewrite length_map; lia).
      rewrite length_map. reflexivity.
    + rewrite <- padded_store by (rewrite length_map; lia).
      rewrite length_map. reflexivity.
  - eexists. split; [reflexivity |]. cbn [tw_j tw_cnt sw1_h sw2_h].
    rewrite swaps_up_to_next by exact Hm. rewrite Hswap, app_nil_r.
    repeat split; assumption.
Qed.

Lemma twiddle_loop_reached (m : nat) :
  Z.of_nat m < order ->
  exists st,
    fold_left (twiddle_step N) (seqZ 1 (Z.of_nat m))
      (Some {| tw_j := 0; tw_cnt := 0;
               sw1_h := replicate (Z.to_nat order) 0;
               sw2_h := replicate (Z.to_nat order) 0 |})
    = Some st
    /\ reached (S k) order (Z.of_nat m) st.
Proof.
  induction m as [| m IH]; intros Hlt.
  - eexists. split; [reflexivity |].
    assert (Hnil : swaps_up_to (S k) (Z.of_nat 0) = []) by reflexivity.
    unfold reached. rewrite Hnil. cbn [tw_j tw_cnt sw1_h sw2_h map length].
    change (Z.of_nat 0) with 0. rewrite reverse_digits_zero.
    unfold padded. cbn [length app]. rewrite Nat.sub_0_r.
    repeat split; reflexivity.
  - destruct IH as (st & Hfold & Hreached); [lia |].
    replace (Z.of_nat (S m)) with (Z.of_nat m + 1) by lia.
    rewrite seqZ_app, fold_left_app, Hfold by lia.
    rewrite (Z.add_comm 1 (Z.of_nat m)). cbn [seqZ fold_left].
    change (seqZ (Z.of_nat m + 1) 1) with [Z.of_nat m + 1]. cbn [fold_left].
    apply twiddle_step_reached; [lia | lia | exact Hreached].
Qed.

Lemma swap_pairs_as_swaps : swap_pairs order = swaps_up_to (S k) (order - 1).
Proof.
  unfold swap_pairs, swaps_up_to. subst order.
  rewrite Z.log2_pow2, Nat2Z.id by lia.
  f_equal. apply map_ext. intros i. rewrite bit_reverse_digits. reflexivity.
Qed.

(** For every power of two from 4 to 2^16 the builder returns the swap
    tables of the digit reversal of order [N / 2]. *)
Lemma twiddles_of_power_of_two : cuda_initialize_twiddles N = Some (swap_tables N).
Proof.
  pose proof order_bounds as Horder.
  unfold cuda_initialize_twiddles. rewrite half_of_N.
  rewrite to_int32_small by lia.
  destruct (twiddle_loop_reached (Z.to_nat (order - 1)) ltac:(lia))
    as (st & Hfold & (_ & _ & Hsw1 & Hsw2)).
  rewrite Z2Nat.id in Hfold, Hsw1, Hsw2 by lia.
  rewrite Hfold, Hsw1, Hsw2.
  unfold swap_tables.
  assert (Hhalf : N / 2 = order).
  { subst N. rewrite Z.mul_comm. apply Z.div_mul. lia. }
  rewrite Hhalf, swap_pairs_as_swaps. unfold padded.
  rewrite !length_map. reflexivity.
Qed.

Lemma swap_tables_length :
  length (fst (swap_tables N)) = Z.to_nat (N / 2)
  /\ length (snd (swap_tables N)) = Z.to_nat (N / 2).
Proof.
  pose proof order_bounds as Horder.
  assert (Hhalf : N / 2 = order).
  { subst N. rewrite Z.mul_comm. apply Z.div_mul. lia. }
  unfold swap_tables. rewrite Hhalf, swap_pairs_as_swaps. cbn [fst snd].
  pose proof (swaps_up_to_length (S k) (order - 1)) as Hlen.
  rewrite !length_app, !length_replicate, !length_map. lia.
Qed.

End Twiddles.

(** C8. For each supported degree the builder returns the two tables made
    of the swap pairs of the bit reversal of order [N / 2], stored from
    position 0 on in increasing [i], followed by zeros, [N / 2] entries
    each. *)
Theorem twiddles_are_bit_reversal_swaps (N : Z) :
  In N Spec.supported_degrees ->
  Bsk.cuda_initialize_twiddles N = Some (Spec.swap_tables N)
  /\ length (fst (Spec.swap_tables N)) = Z.to_nat (N / 2)
  /\ length (snd (Spec.swap_tables N)) = Z.to_nat (N / 2).
Proof.
  intros HN. unfold Spec.supported_degrees in HN. cbn [In] in HN.
  destruct HN as [<- | [<- | [<- | [<- | [<- | []]]]]].
  - split; [exact (twiddles_of_power_of_two 7 ltac:(lia))
           | exact (swap_tables_length 7 ltac:(lia))].
  - split; [exact (twiddles_of_power_of_two 8 ltac:(lia))
           | exact (swap_tables_length 8 ltac:(lia))].
  - split; [exact (twiddles_of_power_of_two 9 ltac:(lia))
           | exact (swap_tables_length 9 ltac:(lia))].
  - split; [exact (twiddles_of_power_of_two 10 ltac:(lia))
           | exact (swap_tables_length 10 ltac:(lia))].
  - split; [exact (twiddles_of_power_of_two 11 ltac:(lia))
           | exact (swap_tables_length 11 ltac:(lia))].
Qed.

Lemma twiddles_are_bit_reversal_swaps_witness :
  In 512 Spec.supported_degrees
  /\ Bsk.cuda_initialize_twiddles 512 = Some (Spec.swap_tables 512).
Proof.
  assert (H512 : In 512 Spec.supported_degrees) by (cbn; auto).
  split; [exact H512 |].
  exact (proj1 (twiddles_are_bit_reversal_swaps 512 H512)).
Defined.

(** ** Loops that store into distinct cells *)

Section Writes.
Import Spec.
Context {A K : Type} (idx : K -> nat) (val : K -> A).

Lemma write_all_length (ks : list K) (l : list A) :
  length (write_all idx val ks l) = length l.
Proof.
  revert l. induction ks as [| k ks IH]; intros l; cbn; [reflexivity |].
  unfold write_all in IH. rewrite IH. apply length_alter.
Qed.

Lemma write_all_untouched (ks : list K) (l : list A) (p : nat) :
  (forall k, In k ks -> idx k <> p) ->
  write_all idx val ks l !! p = l !! p.
Proof.
  revert l. induction ks as [| k ks IH]; intros l Hp; cbn; [reflexivity |].
  unfold write_all in IH. rewrite IH by (intros k' Hk'; apply Hp; right; exact Hk').
  apply list_lookup_alter_ne. apply Hp. left. reflexivity.
Qed.

Lemma write_all_written (ks : list K) (l : list A) (k : K) :
  (forall k', In k' ks -> idx k' = idx k -> val k' = val k) ->
  In k ks -> (idx k < length l)%nat ->
  write_all idx val ks l !! idx k = Some (val k).
Proof.
  revert l k. induction ks as [| k0 ks IH]; intros l k Hsame Hin Hlen; [destruct Hin |].
  cbn. fold (write_all idx val ks (alter (fun _ => val k0) (idx k0) l)).
  destruct (in_dec Nat.eq_dec (idx k) (map idx ks)) as [Hlater | Hnot].
  - apply in_map_iff in Hlater. destruct Hlater as (k' & Heq & Hk').
    rewrite <- Heq, <- (Hsame k' (or_intror Hk') Heq).
    apply IH.
    + intros k'' Hk'' Heq''.
      rewrite (Hsame k'' (or_intror Hk'') (eq_trans Heq'' Heq)).
      symmetry. apply Hsame; [right; exact Hk' | exact Heq].
    + exact Hk'.
    + rewrite length_alter, Heq. exact Hlen.
  - rewrite write_all_untouched.
    + destruct Hin as [-> | Hin].
      * rewrite list_lookup_alter_eq.
        destruct (lookup_lt_is_Some_2 l (idx k) Hlen) as [x ->]. reflexivity.
      * exfalso. apply Hnot. apply in_map. exact Hin.
    + intros k' Hk' Heq. apply Hnot. rewrite <- Heq. apply in_map. exact Hk'.
Qed.

End Writes.

Lemma fold_left_flat_map {S X Y : Type} (f : S -> Y -> S) (g : X -> list Y)
    (xs : list X) (s : S) :
  fold_left f (flat_map g xs) s = fold_left (fun s x => fold_left f (g x) s) xs s.
Proof.
  revert s. induction xs as [| x xs IH]; intros s; cbn; [reflexivity |].
  rewrite fold_left_app. apply IH.
Qed.

Lemma fold_left_ext_in {S X : Type} (f g : S -> X -> S) (xs : list X) (s : S) :
  (forall s x, In x xs -> f s x = g s x) -> fold_left f xs s = fold_left g xs s.
Proof.
  revert s. induction xs as [| x xs IH]; intros s Hfg; cbn; [reflexivity |].
  rewrite Hfg by (left; reflexivity). apply IH.
  intros s' x' Hx'. apply Hfg. right. exact Hx'.
Qed.

Lemma In_seqZ (m len x : Z) : In x (seqZ m len) <-> m <= x < m + len.
Proof. rewrite <- list_elem_of_In. apply elem_of_seqZ. Qed.

Lemma fold_left_map {S X Y : Type} (f : S -> Y -> S) (m : X -> Y) (xs : list X) (s : S) :
  fold_left f (map m xs) s = fold_left (fun s x => f s (m x)) xs s.
Proof.
  revert s. induction xs as [| x xs IH]; intros s; cbn; [reflexivity | apply IH].
Qed.

(** ** The key converter *)

Section Packing.
Import Bsk Spec.
Context {FO : FloatOps}.
Variable uninitialized : nat -> double2.
Variables (w : Z) (src : list Z).
Variables n g l N h : Z.
Hypothesis Hh : 0 < h.
Hypothesis HN : N = 2 * h.
Hypothesis Hn : 0 <= n.
Hypothesis Hg : 0 <= g.
Hypothesis Hl : 0 <= l.
Hypothesis Hfit : key_polynomials n g l * N < 2 ^ 31.

Lemma total_nonneg : 0 <= key_polynomials n g l.
Proof. unfold key_polynomials. nia. Qed.

Lemma total_polynomials_product : total_polynomials n g l = key_polynomials n g l.
Proof.
  pose proof total_nonneg as Ht.
  assert (Hsmall : key_polynomials n g l * 2 <= key_polynomials n g l * N) by nia.
  unfold total_polynomials.
  destruct (Z.eq_dec n 0) as [Hn0 | Hn0];
    [| destruct (Z.eq_dec l 0) as [Hl0 | Hl0]].
  - unfold key_polynomials. rewrite Hn0. unfold mul32. rewrite !Z.mul_0_l. reflexivity.
  - unfold key_polynomials. rewrite Hl0. unfold mul32. rewrite !Z.mul_0_r. reflexivity.
  - unfold key_polynomials in *.
    assert (1 <= n /\ 1 <= l /\ 1 <= g + 1) by lia.
    assert (g + 1 <= n * ((g + 1) * (g + 1)) * l) by nia.
    assert (n * (g + 1) <= n * ((g + 1) * (g + 1)) * l) by nia.
    assert (n * (g + 1) * (g + 1) <= n * ((g + 1) * (g + 1)) * l) by nia.
    rewrite (to_uint32_small (g + 1)) by lia.
    rewrite (mul32_small n (g + 1)) by nia.
    rewrite (mul32_small (n * (g + 1)) (g + 1)) by nia.
    rewrite (mul32_small (n * (g + 1) * (g + 1)) l) by nia.
    rewrite to_int32_small by nia. nia.
Qed.

Lemma buffer_len_product : buffer_len n g l N = key_polynomials n g l * h.
Proof.
  pose proof total_nonneg as Ht.
  unfold buffer_len. rewrite total_polynomials_product.
  assert (0 <= key_polynomials n g l * N < 2 ^ 31) by (split; [nia | exact Hfit]).
  rewrite mul32_small by lia.
  rewrite div32_small by lia.
  rewrite HN. replace (key_polynomials n g l * (2 * h)) with (key_polynomials n g l * h * 2) by lia.
  apply Z.div_mul. lia.
Qed.

Lemma poly_idx_exact (i : Z) :
  0 <= i < key_polynomials n g l ->
  complex_current_poly_idx i N = i * h /\ torus_current_poly_idx i N = i * N.
Proof.
  intros Hi.
  assert (0 <= i * N /\ i * N < key_polynomials n g l * N) by nia.
  unfold complex_current_poly_idx, torus_current_poly_idx.
  rewrite mul32_small by lia.
  rewrite div32_small by lia.
  rewrite !to_int32_small; try lia.
  - split; [| reflexivity].
    rewrite HN. replace (i * (2 * h)) with (i * h * 2) by lia.
    apply Z.div_mul. lia.
  - assert (0 <= i * N / 2) by (apply Z.div_pos; lia).
    assert (i * N / 2 <= i * N) by (apply Z.div_le_upper_bound; lia).
    lia.
Qed.

(** The four stores of the loop body amount to one. *)
Lemma pack_pair_store (i j : Z) (bsk : list double2) :
  0 <= i < key_polynomials n g l ->
  pack_pair w src N i bsk j
  = alter (fun _ => packed_value w src N i j) (Z.to_nat (i * h + j)) bsk.
Proof.
  intros Hi. destruct (poly_idx_exact i Hi) as [Hc Ht].
  unfold pack_pair. rewrite Hc, Ht.
  rewrite !list_alter_alter_eq.
  apply list_alter_ext; [| reflexivity].
  intros c _. reflexivity.
Qed.

Lemma In_pairs (i j : Z) : In (i, j) (key_cells (key_polynomials n g l) h) <-> 0 <= i < key_polynomials n g l /\ 0 <= j < h.
Proof.
  unfold key_cells. rewrite in_flat_map. split.
  - intros (i' & Hi' & Hin). apply in_map_iff in Hin.
    destruct Hin as (j' & Heq & Hj'). inversion Heq; subst.
    apply In_seqZ in Hi', Hj'. lia.
  - intros [Hi Hj]. exists i. split; [apply In_seqZ; lia |].
    apply in_map. apply In_seqZ. lia.
Qed.

Lemma packed_key_writes :
  packed_key uninitialized w src n g l N
  = write_all (fun p => Z.to_nat (fst p * h + snd p))
              (fun p => packed_value w src N (fst p) (snd p))
              (key_cells (key_polynomials n g l) h)
              (map uninitialized (seq 0 (Z.to_nat (key_polynomials n g l * h)))).
Proof.
  unfold packed_key, pack_polynomial, write_all, key_cells.
  rewrite total_polynomials_product, buffer_len_product.
  rewrite fold_left_flat_map.
  apply fold_left_ext_in. intros bsk i Hi. apply In_seqZ in Hi.
  rewrite fold_left_map.
  assert (Hhalf : div32 N 2 = h).
  { pose proof total_nonneg.
    assert (N <= key_polynomials n g l * N) by nia.
    rewrite div32_small by lia.
    rewrite HN, Z.mul_comm. apply Z.div_mul. lia. }
  rewrite Hhalf.
  apply fold_left_ext_in. intros bsk' j _. cbn [fst snd].
  apply pack_pair_store. lia.
Qed.

Lemma packed_key_length :
  length (packed_key uninitialized w src n g l N) = Z.to_nat (key_polynomials n g l * h).
Proof.
  rewrite packed_key_writes, write_all_length, length_map, length_seq.
  reflexivity.
Qed.

Lemma packed_key_lookup (i j : Z) :
  0 <= i < key_polynomials n g l -> 0 <= j < h ->
  packed_key uninitialized w src n g l N !! Z.to_nat (i * h + j)
  = Some (packed_value w src N i j).
Proof.
  intros Hi Hj. rewrite packed_key_writes.
  apply (write_all_written (fun p => Z.to_nat (fst p * h + snd p))
           (fun p => packed_value w src N (fst p) (snd p)) (key_cells (key_polynomials n g l) h) _ (i, j)).
  - intros [i' j'] Hin Heq. apply In_pairs in Hin. cbn [fst snd] in *.
    assert (i' * h + j' = i * h + j) by nia.
    assert (i' = i) by nia. subst i'.
    assert (j' = j) by lia. subst j'. reflexivity.
  - apply In_pairs. split; assumption.
  - cbn [fst snd]. rewrite length_map, length_seq. nia.
Qed.

End Packing.

Lemma supported_degree_spec (N : Z) :
  Bsk.supported_degree N = true <-> In N Spec.supported_degrees.
Proof.
  unfold Bsk.supported_degree, Spec.supported_degrees.
  rewrite existsb_exists. split.
  - intros (d & Hd & Heq). apply Z.eqb_eq in Heq. subst d. exact Hd.
  - intros HN. exists N. split; [exact HN | apply Z.eqb_refl].
Qed.

(** The quotient of a signed [w]-bit integer by [2^w - 1], computed
    exactly. *)
(** A negative coefficient has a negative exact quotient. *)
Lemma negative_quotient (s m : Z) :
  s < 0 -> 0 < m ->
  ~ Spec.in_unit_interval
      (@double_div exact_double (@double_of_Z exact_double s)
                   (@double_of_Z exact_double m)).
Proof.
  intros Hs Hm [Hlow _]. cbn [double_div double_of_Z exact_double] in Hlow.
  assert (HM : (0 < inject_Z m)%Q) by (rewrite <- (Zlt_Qlt 0); exact Hm).
  assert (Hneg : (inject_Z s / inject_Z m < 0)%Q).
  { apply Qlt_shift_div_r; [exact HM |]. unfold Qlt. cbn. lia. }
  apply (Qlt_not_le _ _ Hneg). exact Hlow.
Qed.

(** In binary64 the coefficient -1 has a negative quotient, for both
    widths. *)
Lemma minus_one_quotient64 (w : Z) :
  w = 32 \/ w = 64 ->
  Spec.in_unit_interval64
    (@double_div binary64 (@double_of_Z binary64 (-1))
                 (@double_of_Z binary64 (2 ^ w - 1))) = false.
Proof. intros [-> | ->]; vm_compute; reflexivity. Qed.

(** In binary64 the divisor of the 32-bit variant is [2^32 - 1] itself,
    while [2^64 - 1] is not a [double]: the divisor of the 64-bit variant
    is [2^64]. *)
Lemma binary64_divisors :
  @double_of_Z binary64 (CInt.unsigned_max 32) = S754_finite false (2 ^ 53 - 2 ^ 21) (-21)
  /\ @double_of_Z binary64 (CInt.unsigned_max 64) = @double_of_Z binary64 (2 ^ 64).
Proof. split; vm_compute; reflexivity. Qed.

(** C5, as the code has it. The converter stages all [n * (g+1)^2 * l]
    polynomials and hands them to one kernel launch of that many blocks;
    pair [j] of polynomial [i] holds [src[i*N + 2j]] and [src[i*N + 2j + 1]],
    each converted to [double] and divided by the [double] of [2^w - 1],
    which in binary64 is [2^64] for the 64-bit variant. The source is read
    as signed integers, and the staged values are not all in the unit
    interval: wherever [src] holds -1 the staged component is negative, in
    binary64 for both widths, and in exact arithmetic so is the image of
    every negative coefficient. *)
Theorem key_packing_signed_quotients (FO : FloatOps) (uninitialized : nat -> double2)
    (choose_opt : Z -> Z)
    (batch_NSMFFT : Z -> Z -> list double2 -> list double2 -> list double2)
    (w : Z) (dest : list double2) (src : list Z) (v_stream gpu_index : Z)
    (n g l N : Z) :
  0 < N -> Z.even N = true -> 0 <= n -> 0 <= g -> 0 <= l ->
  n * (g + 1) ^ 2 * l * N < 2 ^ 31 ->
  let total := n * (g + 1) ^ 2 * l in
  let packed := Bsk.packed_key uninitialized w src n g l N in
  Bsk.total_polynomials n g l = total
  /\ length packed = Z.to_nat (total * (N / 2))
  /\ (forall i j, 0 <= i < total -> 0 <= j < N / 2 ->
        packed !! Z.to_nat (i * (N / 2) + j) = Some (Spec.packed_value w src N i j))
  /\ (Bsk.supported_degree N = true ->
      exists thds shared,
        Bsk.launches (Bsk.cuda_convert_lwe_bootstrap_key choose_opt batch_NSMFFT
                        uninitialized w dest src v_stream gpu_index n g l N)
        = [Cuda.CudaLaunchFFT N total thds shared v_stream])
  /\ @double_of_Z binary64 (CInt.unsigned_max 32)
     = S754_finite false (2 ^ 53 - 2 ^ 21) (-21)
  /\ @double_of_Z binary64 (CInt.unsigned_max 64) = @double_of_Z binary64 (2 ^ 64)
  /\ (forall staged i j, 0 <= i < total -> 0 <= j < N / 2 -> w = 32 \/ w = 64 ->
        exists c,
          Bsk.packed_key (FO := binary64) staged w src n g l N
            !! Z.to_nat (i * (N / 2) + j) = Some c
          /\ (src !!! Z.to_nat (i * N + 2 * j) = -1 ->
              Spec.in_unit_interval64 (fst c) = false)
          /\ (src !!! Z.to_nat (i * N + 2 * j + 1) = -1 ->
              Spec.in_unit_interval64 (snd c) = false))
  /\ (forall staged i j, 0 <= i < total -> 0 <= j < N / 2 -> 0 < w ->
        exists c,
          Bsk.packed_key (FO := exact_double) staged w src n g l N
            !! Z.to_nat (i * (N / 2) + j) = Some c
          /\ (src !!! Z.to_nat (i * N + 2 * j) < 0 ->
              ~ Spec.in_unit_interval (fst c))
          /\ (src !!! Z.to_nat (i * N + 2 * j + 1) < 0 ->
              ~ Spec.in_unit_interval (snd c))).
Proof.
  intros HN Heven Hn Hg Hl Hfit total packed.
  apply Z.even_spec in Heven. destruct Heven as [h HNh].
  assert (Hh : 0 < h) by lia.
  assert (Htotal : total = Spec.key_polynomials n g l).
  { subst total. unfold Spec.key_polynomials. rewrite Z.pow_2_r. reflexivity. }
  assert (Hhalf : N / 2 = h) by (eapply half_N; eassumption).
  assert (Hfit' : Spec.key_polynomials n g l * N < 2 ^ 31) by (rewrite <- Htotal; exact Hfit).
  assert (Htp : Bsk.total_polynomials n g l = total)
    by (rewrite Htotal; eapply total_polynomials_product; eassumption).
  assert (Hcell : forall (FO' : FloatOps) (staged : nat -> @double2 FO') i j,
             0 <= i < total -> 0 <= j < N / 2 ->
             Bsk.packed_key staged w src n g l N !! Z.to_nat (i * (N / 2) + j)
             = Some (Spec.packed_value w src N i j)).
  { intros FO' staged i j Hi Hj. rewrite Hhalf in *. rewrite Htotal in Hi.
    eapply packed_key_lookup; eassumption. }
  split; [exact Htp |]. split; [| split; [| split; [| split; [| split; [| split]]]]].
  - subst packed. rewrite Hhalf, Htotal.
    eapply packed_key_length; eassumption.
  - intros i j Hi Hj. apply Hcell; assumption.
  - intros Hsup. unfold Bsk.cuda_convert_lwe_bootstrap_key. rewrite Hsup.
    cbn [Bsk.launches]. rewrite Htp. eauto.
  - exact (proj1 binary64_divisors).
  - exact (proj2 binary64_divisors).
  - intros staged i j Hi Hj Hw.
    exists (Spec.packed_value (FO := binary64) w src N i j).
    split; [apply (Hcell binary64); assumption |].
    unfold Spec.packed_value. cbn [fst snd].
    split; intros Hsrc; rewrite Hsrc; apply minus_one_quotient64; exact Hw.
  - intros staged i j Hi Hj Hw.
    exists (Spec.packed_value (FO := exact_double) w src N i j).
    split; [apply (Hcell exact_double); assumption |].
    unfold Spec.packed_value. cbn [fst snd].
    assert (1 < 2 ^ w) by (apply Z.pow_gt_1; lia).
    split; intros Hsrc; (apply negative_quotient; [exact Hsrc | lia]).
Qed.

Lemma key_packing_signed_quotients_witness :
  (0 < 4 /\ Z.even 4 = true /\ 0 <= 1 /\ 0 <= 1 /\ 0 <= 1
   /\ 1 * (1 + 1) ^ 2 * 1 * 4 < 2 ^ 31)
  /\ Bsk.packed_key (FO := exact_double) (fun _ => (0, 0)%Q) 32
       [1; -2; 3; -4; 5; -6; 7; -8; 9; -10; 11; -12; -1; -14; 15; -16] 1 1 1 4
     !! Z.to_nat (3 * (4 / 2) + 1)
     = Some (inject_Z 15 / inject_Z (2 ^ 32 - 1), inject_Z (- 16) / inject_Z (2 ^ 32 - 1))%Q
  /\ (exists c,
        Bsk.packed_key (FO := binary64) (fun _ => (S754_zero false, S754_zero false)) 32
          [1; -2; 3; -4; 5; -6; 7; -8; 9; -10; 11; -12; -1; -14; 15; -16] 1 1 1 4
        !! Z.to_nat (3 * (4 / 2) + 0) = Some c
        /\ Spec.in_unit_interval64 (fst c) = false).
Proof.
  assert (H1 : 0 < 4) by lia.
  assert (H2 : Z.even 4 = true) by reflexivity.
  assert (H3 : 0 <= 1) by lia.
  assert (H4 : 1 * (1 + 1) ^ 2 * 1 * 4 < 2 ^ 31) by (vm_compute; reflexivity).
  split; [repeat split; assumption |].
  destruct (key_packing_signed_quotients exact_double (fun _ => (0, 0)%Q)
              (fun _ => 1) (fun _ _ _ d => d) 32 []
              [1; -2; 3; -4; 5; -6; 7; -8; 9; -10; 11; -12; -1; -14; 15; -16]
              0 0 1 1 1 4 H1 H2 H3 H3 H3 H4) as (_ & _ & Hcell & _ & _ & _ & Hminus & _).
  split.
  - apply (Hcell 3 1); vm_compute; split; congruence.
  - destruct (Hminus (fun _ => (S754_zero false, S754_zero false)) 3 0)
      as (c & Hc & Hx & _).
    + vm_compute; split; congruence.
    + vm_compute; split; congruence.
    + left. reflexivity.
    + exists c. split; [exact Hc |]. apply Hx. reflexivity.
Defined.

(** The claim of C5 fails where it places the quotients in the unit
    interval: a coefficient -1 of a 32-bit key is stored as
    [-1 / (2^32 - 1)], below 0, in exact arithmetic and in binary64 alike. *)
Lemma key_packing_leaves_unit_interval :
  (exists c, Bsk.packed_key (FO := exact_double) (fun _ => (0, 0)%Q) 32 [-1; 0] 1 0 1 2 !! 0%nat
             = Some c
             /\ ~ Spec.in_unit_interval (fst c))
  /\ (exists c, Bsk.packed_key (FO := binary64)
                  (fun _ => (S754_zero false, S754_zero false)) 32 [-1; 0] 1 0 1 2 !! 0%nat
                = Some c
                /\ Spec.in_unit_interval64 (fst c) = false).
Proof.
  split.
  - exists ((-1 # 4294967295)%Q, (0 # 4294967295)%Q). split; [vm_compute; reflexivity |].
    intros [Hlow _]. cbn in Hlow. apply Hlow. reflexivity.
  - eexists. split; [vm_compute; reflexivity |]. vm_compute. reflexivity.
Qed.

(** C4, as the code has it. For a degree outside the supported set the
    converter launches no kernel and leaves [dest] exactly as it found it;
    being [void], it reports nothing. *)
Theorem unsupported_degree_leaves_dest_untouched (FO : FloatOps)
    (uninitialized : nat -> double2) (choose_opt : Z -> Z)
    (batch_NSMFFT : Z -> Z -> list double2 -> list double2 -> list double2)
    (w : Z) (dest : list double2) (src : list Z)
    (v_stream gpu_index n g l N : Z) :
  ~ In N Spec.supported_degrees ->
  let done := Bsk.cuda_convert_lwe_bootstrap_key choose_opt batch_NSMFFT
                uninitialized w dest src v_stream gpu_index n g l N in
  Bsk.launches done = [] /\ Bsk.dest_after done = dest.
Proof.
  intros HN done. subst done. unfold Bsk.cuda_convert_lwe_bootstrap_key.
  destruct (Bsk.supported_degree N) eqn:Hs.
  - exfalso. apply HN. apply supported_degree_spec. exact Hs.
  - split; reflexivity.
Qed.

Lemma unsupported_degree_leaves_dest_untouched_witness :
  ~ In 100 Spec.supported_degrees
  /\ Bsk.dest_after
       (Bsk.cuda_convert_lwe_bootstrap_key (FO := exact_double) (fun _ => 1)
          (fun _ _ _ _ => []) (fun _ => (0, 0)%Q) 32 [(1, 2)%Q; (3, 4)%Q]
          (replicate 400 0) 0 0 1 1 1 100)
     = [(1, 2)%Q; (3, 4)%Q].
Proof.
  assert (H100 : ~ In 100 Spec.supported_degrees).
  { intros Hin. cbn in Hin. repeat (destruct Hin as [Hin | Hin]; [discriminate |]).
    exact Hin. }
  split; [exact H100 |].
  exact (proj2 (unsupported_degree_leaves_dest_untouched exact_double
                  (fun _ => (0, 0)%Q) (fun _ => 1) (fun _ _ _ _ => []) 32
                  [(1, 2)%Q; (3, 4)%Q] (replicate 400 0) 0 0 1 1 1 100 H100)).
Defined.

(** The claim of C4 fails where it calls the destination zeroed: a
    destination that held other values on entry still holds them. *)
Lemma unsupported_degree_keeps_stale_dest :
  ~ In 100 Spec.supported_degrees
  /\ ~ Spec.zeroed
         (Bsk.dest_after
            (Bsk.cuda_convert_lwe_bootstrap_key (FO := exact_double) (fun _ => 1)
               (fun _ _ _ _ => []) (fun _ => (0, 0)%Q) 32 [(1, 2)%Q; (3, 4)%Q]
               (replicate 400 0) 0 0 1 1 1 100)).
Proof.
  split.
  - intros Hin. cbn in Hin. repeat (destruct Hin as [Hin | Hin]; [discriminate |]).
    exact Hin.
  - intros Hz. change (Spec.zeroed [(1, 2)%Q; (3, 4)%Q]) in Hz.
    unfold Spec.zeroed in Hz. apply Forall_cons_1 in Hz.
    destruct Hz as [[Hx _] _]. cbn in Hx. discriminate.
Qed.

(** ** The bootstrap kernel: what runs, and in which order *)

Section KernelTrace.
Import Cuda Pbs Spec.
Context {FO : FloatOps} {P : Params} {DF : DeviceFunctions}.

Lemma thread_cells_preserves {S X : Type} (proj : S -> X) (body : Z -> S -> S)
    (threadIdx : Z) (s : S) :
  (forall pos s, proj (body pos s) = proj s) ->
  proj (thread_cells body threadIdx s) = proj s.
Proof.
  intros Hbody. unfold thread_cells.
  generalize (seqZ 0 (opt / 2)). intros js. revert threadIdx s.
  induction js as [| j js IH]; intros pos s; cbn; [reflexivity |].
  rewrite IH. apply Hbody.
Qed.

Lemma all_threads_preserves {S X : Type} (proj : S -> X) (code : Z -> S -> S)
    (blockDim : Z) (s : S) :
  (forall tid s, proj (code tid s) = proj s) ->
  proj (all_threads blockDim code s) = proj s.
Proof.
  intros Hcode. unfold all_threads.
  generalize (seqZ 0 blockDim). intros tids. revert s.
  induction tids as [| tid tids IH]; intros s; cbn; [reflexivity |].
  rewrite IH. apply Hcode.
Qed.

Lemma events_external_product_level (bootstrapping_key : list double2)
    (polynomial_size base_log l_gadget iteration : Z) (s : scratch) (lv : Z) :
  events (external_product_level bootstrapping_key polynomial_size base_log
                                 l_gadget iteration s lv)
  = events s ++ level_events iteration lv.
Proof.
  unfold external_product_level, level_events, synchronize_threads_in_block.
  cbn. rewrite <- !app_assoc. reflexivity.
Qed.

Lemma events_levels (bootstrapping_key : list double2)
    (polynomial_size base_log l_gadget iteration : Z) (lvs : list Z) (s : scratch) :
  events (fold_left (external_product_level bootstrapping_key polynomial_size
                       base_log l_gadget iteration) lvs s)
  = events s ++ flat_map (level_events iteration) lvs.
Proof.
  revert s. induction lvs as [| lv lvs IH]; intros s; cbn [fold_left flat_map].
  - symmetry. apply app_nil_r.
  - rewrite IH, events_external_product_level, <- app_assoc. reflexivity.
Qed.

Lemma events_copy_loop (src : scratch -> fft_buffer) (blockDim : Z) (s : scratch) :
  events (all_threads blockDim
            (thread_cells (fun tid s =>
               set_accumulator_fft (buf_copy (src s) tid (accumulator_fft s)) s)) s)
  = events s.
Proof.
  apply (all_threads_preserves events). intros tid s'.
  apply (thread_cells_preserves events). intros pos s''. reflexivity.
Qed.

Lemma events_back_to_coefficients (SMD : sharedMemDegree) (blockDim : Z) (s : scratch) :
  events (back_to_coefficients SMD blockDim s)
  = events s ++ replicate (tail_barriers SMD) Barrier.
Proof.
  destruct SMD; unfold back_to_coefficients, synchronize_threads_in_block.
  - cbn. rewrite <- !app_assoc. reflexivity.
  - cbn [events emit set_accumulator_fft set_accumulator_mask set_accumulator_body].
    rewrite (events_copy_loop body_res_fft).
    cbn [events emit set_accumulator_fft set_accumulator_mask set_accumulator_body].
    rewrite (events_copy_loop mask_res_fft).
    cbn. rewrite <- !app_assoc. reflexivity.
  - cbn. rewrite <- !app_assoc. reflexivity.
Qed.

Lemma events_clear_loop (blockDim : Z) (s : scratch) :
  events (all_threads blockDim (thread_cells clear_cell) s) = events s.
Proof.
  apply (all_threads_preserves events). intros tid s'.
  apply (thread_cells_preserves events). intros pos s''. reflexivity.
Qed.

Lemma events_blind_rotate_iteration (SMD : sharedMemDegree) (blockDim : Z)
    (block_lwe_in : list Z) (bootstrapping_key : list double2)
    (polynomial_size base_log l_gadget : Z) (s : scratch) (iteration : Z) :
  events (blind_rotate_iteration SMD blockDim block_lwe_in bootstrapping_key
                                 polynomial_size base_log l_gadget s iteration)
  = events s
    ++ iteration_events SMD l_gadget iteration
         (rescale_torus_element (block_lwe_in !!! Z.to_nat iteration) (2 * degree)).
Proof.
  unfold blind_rotate_iteration, iteration_events, synchronize_threads_in_block.
  cbn zeta.
  destruct (rescale_torus_element (block_lwe_in !!! Z.to_nat iteration) (2 * degree) =? 0);
    cbn [events emit];
    rewrite events_back_to_coefficients, events_levels;
    cbn [events emit]; rewrite events_clear_loop; cbn;
    rewrite <- !app_assoc; reflexivity.
Qed.

Lemma events_iterations (SMD : sharedMemDegree) (blockDim : Z)
    (block_lwe_in : list Z) (bootstrapping_key : list double2)
    (polynomial_size base_log l_gadget : Z) (iterations : list Z) (s : scratch) :
  events (fold_left (blind_rotate_iteration SMD blockDim block_lwe_in
                       bootstrapping_key polynomial_size base_log l_gadget)
                    iterations s)
  = events s
    ++ flat_map (fun i => iteration_events SMD l_gadget i
                   (rescale_torus_element (block_lwe_in !!! Z.to_nat i) (2 * degree)))
                iterations.
Proof.
  revert s. induction iterations as [| i iterations IH]; intros s; cbn [fold_left flat_map].
  - symmetry. apply app_nil_r.
  - rewrite IH, events_blind_rotate_iteration, <- app_assoc. reflexivity.
Qed.

Lemma filter_level_events (keep : event -> bool) (iteration : Z) (lvs : list Z) :
  (forall i lv, keep (Decomposed i lv) = false) ->
  (forall i lv, keep (Accumulated i lv) = false) ->
  keep Barrier = false ->
  List.filter keep (flat_map (level_events iteration) lvs) = [].
Proof.
  intros Hd Ha Hb. induction lvs as [| lv lvs IH]; [reflexivity |].
  cbn [flat_map]. rewrite List.filter_app, IH, app_nil_r.
  unfold level_events. cbn. rewrite Hd, Ha, Hb. reflexivity.
Qed.

Lemma filter_barriers (keep : event -> bool) (k : nat) :
  keep Barrier = false -> List.filter keep (replicate k Barrier) = [].
Proof.
  intros Hb. induction k as [| k IH]; cbn; [reflexivity |]. rewrite Hb. exact IH.
Qed.

Lemma rotations_of_iterations (SMD : sharedMemDegree) (l_gadget : Z)
    (a_hat : Z -> Z) (iterations : list Z) :
  List.filter is_rotated
    (flat_map (fun i => iteration_events SMD l_gadget i (a_hat i)) iterations)
  = map (fun i => Rotated i (a_hat i)) iterations.
Proof.
  induction iterations as [| i iterations IH]; [reflexivity |].
  cbn [flat_map map]. rewrite List.filter_app, IH. f_equal.
  unfold iteration_events. rewrite !List.filter_app.
  rewrite filter_level_events, filter_barriers by reflexivity. reflexivity.
Qed.

Lemma add_backs_of_iterations (SMD : sharedMemDegree) (l_gadget : Z)
    (a_hat : Z -> Z) (iterations : list Z) :
  List.filter is_added_back
    (flat_map (fun i => iteration_events SMD l_gadget i (a_hat i)) iterations)
  = map AddedBack iterations.
Proof.
  induction iterations as [| i iterations IH]; [reflexivity |].
  cbn [flat_map map]. rewrite List.filter_app, IH. f_equal.
  unfold iteration_events. rewrite !List.filter_app.
  rewrite filter_level_events, filter_barriers by reflexivity. reflexivity.
Qed.

End KernelTrace.

(** ** Cells of a frequency-domain buffer *)

Lemma cell_in_range {n : nat} (i : Z) :
  0 <= i -> (Z.to_nat i < n)%nat ->
  exists k : fin n, Pbs.cell i = Some k /\ fin_to_nat k = Z.to_nat i.
Proof.
  intros Hi Hlt. unfold Pbs.cell.
  destruct (decide (0 <= i)) as [_ | Hneg]; [| contradiction].
  destruct (decide (Z.to_nat i < n)%nat) as [Hlt' | Hge]; [| contradiction].
  exists (nat_to_fin Hlt'). split; [reflexivity | apply fin_to_nat_to_fin].
Qed.

Lemma cell_out_of_range {n : nat} (i : Z) :
  (n <= Z.to_nat i)%nat -> @Pbs.cell n i = None.
Proof.
  intros Hge. unfold Pbs.cell.
  destruct (decide (0 <= i)); [| reflexivity].
  destruct (decide (Z.to_nat i < n)%nat); [lia | reflexivity].
Qed.

Lemma insert_as_alter {A : Type} (l : list A) (p : nat) (x : A) :
  <[p := x]> l = alter (fun _ => x) p l.
Proof.
  revert p. induction l as [| y l IH]; intros [| p]; cbn; try reflexivity.
  f_equal. apply IH.
Qed.

Lemma alter_out_of_range {A : Type} (f : A -> A) (l : list A) (p : nat) :
  (length l <= p)%nat -> alter f p l = l.
Proof.
  revert p. induction l as [| y l IH]; intros [| p] Hp; cbn in *; try reflexivity; try lia.
  f_equal. apply IH. lia.
Qed.

Lemma vec_to_list_buf_alter {A : Type} {n : nat} (x : A) (i : Z) (b : vec A n) :
  0 <= i ->
  vec_to_list (Pbs.buf_alter (fun _ => x) i b)
  = alter (fun _ => x) (Z.to_nat i) (vec_to_list b).
Proof.
  intros Hi. unfold Pbs.buf_alter.
  destruct (Nat.lt_ge_cases (Z.to_nat i) n) as [Hlt | Hge].
  - destruct (cell_in_range (n := n) i Hi Hlt) as (k & -> & Hk).
    rewrite vec_to_list_insert, Hk. apply insert_as_alter.
  - rewrite (cell_out_of_range i Hge).
    symmetry. apply alter_out_of_range. rewrite length_vec_to_list. exact Hge.
Qed.

Lemma vec_to_list_buf_copy {A : Type} {n : nat} (d : A) (src dst : vec A n) (i : Z) :
  0 <= i ->
  vec_to_list (Pbs.buf_copy src i dst)
  = alter (fun _ => default d (vec_to_list src !! Z.to_nat i)) (Z.to_nat i)
          (vec_to_list dst).
Proof.
  intros Hi. unfold Pbs.buf_copy.
  destruct (Nat.lt_ge_cases (Z.to_nat i) n) as [Hlt | Hge].
  - destruct (cell_in_range (n := n) i Hi Hlt) as (k & -> & Hk).
    rewrite vec_to_list_insert, Hk, insert_as_alter.
    assert (Hsrc : vec_to_list src !! Z.to_nat i = Some (src !!! k)).
    { rewrite <- Hk. apply vlookup_lookup. reflexivity. }
    rewrite Hsrc. reflexivity.
  - rewrite (cell_out_of_range i Hge).
    symmetry. apply alter_out_of_range. rewrite length_vec_to_list. exact Hge.
Qed.

(** A loop of stores that visits every cell leaves the values stored. *)
Lemma stores_fill_buffer {A : Type} {n : nat} (step : vec A n -> Z -> vec A n)
    (val : Z -> A) (positions : list Z) (b target : vec A n) :
  (forall pos b, 0 <= pos ->
     vec_to_list (step b pos) = alter (fun _ => val pos) (Z.to_nat pos) (vec_to_list b)) ->
  (forall pos, In pos positions -> 0 <= pos) ->
  (forall p : nat, (p < n)%nat -> exists pos, In pos positions /\ Z.to_nat pos = p) ->
  (forall pos, 0 <= pos -> (Z.to_nat pos < n)%nat ->
     vec_to_list target !! Z.to_nat pos = Some (val pos)) ->
  fold_left step positions b = target.
Proof.
  intros Hstep Hnonneg Hcover Htarget.
  apply vec_to_list_inj2.
  assert (Hlist : vec_to_list (fold_left step positions b)
                  = Spec.write_all Z.to_nat val positions (vec_to_list b)).
  { clear Hcover. revert b. induction positions as [| pos positions IH]; intros b.
    - reflexivity.
    - cbn [fold_left]. rewrite IH by (intros q Hq; apply Hnonneg; right; exact Hq).
      rewrite Hstep by (apply Hnonneg; left; reflexivity). reflexivity. }
  rewrite Hlist. apply list_eq. intros p.
  destruct (Nat.lt_ge_cases p n) as [Hlt | Hge].
  - destruct (Hcover p Hlt) as (pos & Hin & Hp). subst p.
    rewrite (Htarget pos (Hnonneg pos Hin) Hlt).
    apply write_all_written.
    + intros pos' Hin' Heq. pose proof (Hnonneg pos Hin). pose proof (Hnonneg pos' Hin').
      assert (pos' = pos) by lia. subst pos'. reflexivity.
    + exact Hin.
    + rewrite length_vec_to_list. exact Hlt.
  - rewrite !lookup_ge_None_2; [reflexivity | |].
    + rewrite length_vec_to_list. exact Hge.
    + rewrite write_all_length, length_vec_to_list. exact Hge.
Qed.

(** ** The cells the threads of a block visit *)

Section Positions.
Import Cuda Pbs Spec.
Context {P : Params}.

Lemma thread_cells_from {St : Type} (body : Z -> St -> St) (threadIdx : Z) (k : nat) :
  forall (a : Z) (s : St),
    fold_left (fun '(pos, s) (_ : Z) => (pos + degree / opt, body pos s))
              (seqZ a (Z.of_nat k)) (threadIdx + a * (degree / opt), s)
    = (threadIdx + (a + Z.of_nat k) * (degree / opt),
       fold_left (fun s pos => body pos s)
                 (map (fun j => threadIdx + j * (degree / opt)) (seqZ a (Z.of_nat k))) s).
Proof.
  induction k as [| k IH]; intros a s.
  - cbn. rewrite Z.add_0_r. reflexivity.
  - rewrite seqZ_cons by lia. cbn [fold_left map].
    replace (Z.pred (Z.of_nat (S k))) with (Z.of_nat k) by lia.
    replace (threadIdx + a * (degree / opt) + degree / opt)
      with (threadIdx + Z.succ a * (degree / opt)) by lia.
    rewrite IH. f_equal. lia.
Qed.

Lemma thread_cells_fold {St : Type} (body : Z -> St -> St) (threadIdx : Z) (s : St) :
  thread_cells body threadIdx s
  = fold_left (fun s pos => body pos s) (thread_positions threadIdx) s.
Proof.
  unfold thread_cells, thread_positions.
  destruct (Z.le_gt_cases (opt / 2) 0) as [Hle | Hgt].
  - rewrite (seqZ_nil 0 (opt / 2)) by lia. reflexivity.
  - pose proof (thread_cells_from body threadIdx (Z.to_nat (opt / 2)) 0 s) as Hfold.
    rewrite Z2Nat.id in Hfold by lia.
    replace (threadIdx + 0 * (degree / opt)) with threadIdx in Hfold by lia.
    rewrite Hfold. reflexivity.
Qed.

Lemma all_threads_fold {St : Type} (body : Z -> St -> St) (blockDim : Z) (s : St) :
  all_threads blockDim (thread_cells body) s
  = fold_left (fun s pos => body pos s) (block_positions blockDim) s.
Proof.
  unfold all_threads, block_positions. rewrite fold_left_flat_map.
  apply fold_left_ext_in. intros s' tid _. apply thread_cells_fold.
Qed.

Lemma In_block_positions (blockDim pos : Z) :
  In pos (block_positions blockDim)
  <-> exists tid j, 0 <= tid < blockDim /\ 0 <= j < opt / 2
                    /\ pos = tid + j * (degree / opt).
Proof.
  unfold block_positions, thread_positions. rewrite in_flat_map. split.
  - intros (tid & Htid & Hin). apply in_map_iff in Hin.
    destruct Hin as (j & Hpos & Hj). apply In_seqZ in Htid, Hj.
    exists tid, j. repeat split; try lia.
  - intros (tid & j & Htid & Hj & ->). exists tid. split; [apply In_seqZ; lia |].
    apply in_map_iff. exists j. split; [reflexivity | apply In_seqZ; lia].
Qed.

Hypothesis Hopt : 0 < opt.
Hypothesis Heven : Z.even opt = true.
Hypothesis Hdiv : degree mod opt = 0.

Lemma degree_split :
  degree = opt * (degree / opt) /\ degree / 2 = opt / 2 * (degree / opt).
Proof.
  assert (Hd : degree = opt * (degree / opt)).
  { assert (Hnz : opt <> 0) by lia.
    pose proof (Z.div_mod degree opt Hnz). lia. }
  split; [exact Hd |].
  apply Z.even_spec in Heven. destruct Heven as [J HJ].
  assert (HJ2 : opt / 2 = J) by (rewrite HJ, Z.mul_comm; apply Z.div_mul; lia).
  rewrite HJ2. generalize dependent (degree / opt). intros T HT.
  rewrite HT, HJ.
  replace (2 * J * T) with (J * T * 2) by ring.
  apply Z.div_mul. lia.
Qed.

Lemma block_positions_nonneg (blockDim pos : Z) :
  0 <= degree -> In pos (block_positions blockDim) -> 0 <= pos.
Proof.
  intros Hdeg Hin. apply In_block_positions in Hin.
  destruct Hin as (tid & j & Htid & Hj & ->).
  assert (0 <= degree / opt) by (apply Z.div_pos; lia).
  nia.
Qed.

Lemma block_positions_cover (blockDim : Z) (p : nat) :
  degree / opt <= blockDim -> (p < half_degree)%nat ->
  exists pos, In pos (block_positions blockDim) /\ Z.to_nat pos = p.
Proof.
  intros Hdim Hp. unfold half_degree in Hp.
  destruct degree_split as [Hd Hhalf].
  assert (Hpos : 0 < degree / 2) by lia.
  assert (HT : 0 < degree / opt).
  { destruct (Z.lt_trichotomy 0 (degree / opt)) as [Hlt | [Heq | Hgt]]; [exact Hlt | |].
    - rewrite <- Heq, Z.mul_0_r in Hhalf. lia.
    - assert (0 <= opt / 2) by (apply Z.div_pos; lia). nia. }
  exists (Z.of_nat p). split; [| apply Nat2Z.id].
  apply In_block_positions.
  exists (Z.of_nat p mod (degree / opt)), (Z.of_nat p / (degree / opt)).
  pose proof (Z.mod_pos_bound (Z.of_nat p) (degree / opt) HT).
  assert (HTnz : degree / opt <> 0) by lia.
  pose proof (Z.div_mod (Z.of_nat p) (degree / opt) HTnz).
  assert (0 <= Z.of_nat p / (degree / opt)) by (apply Z.div_pos; lia).
  assert (Z.of_nat p / (degree / opt) < opt / 2).
  { apply Z.div_lt_upper_bound; [exact HT |]. lia. }
  repeat split; lia.
Qed.

End Positions.

Lemma buf_alter_twice {A : Type} {n : nat} (f g : A -> A) (i : Z) (b : vec A n) :
  Pbs.buf_alter f i (Pbs.buf_alter g i b) = Pbs.buf_alter (fun x => f (g x)) i b.
Proof.
  unfold Pbs.buf_alter. destruct (Pbs.cell i) as [k |]; [| reflexivity].
  rewrite vlookup_insert. apply vec_to_list_inj2.
  rewrite !vec_to_list_insert. apply list_insert_insert_eq.
Qed.

Lemma empty_buffers_equal {A : Type} {n : nat} (v w : vec A n) : n = 0%nat -> v = w.
Proof.
  intros Hn. apply vec_eq. intros i. pose proof (fin_to_nat_lt i). lia.
Qed.

(** ** The three tiers compute the same accumulators *)

Section Tiers.
Import Cuda Pbs Spec.
Context {FO : FloatOps} {P : Params} {DF : DeviceFunctions}.
Variable blockDim : Z.
Hypothesis Hopt : 0 < opt.
Hypothesis Heven : Z.even opt = true.
Hypothesis Hdiv : degree mod opt = 0.
Hypothesis Hdim : degree / opt <= blockDim.

Lemma stores_reach_every_cell (step : fft_buffer -> Z -> fft_buffer)
    (val : Z -> double2) (b target : fft_buffer) :
  (forall pos b, 0 <= pos ->
     vec_to_list (step b pos) = alter (fun _ => val pos) (Z.to_nat pos) (vec_to_list b)) ->
  (forall pos, 0 <= pos -> (Z.to_nat pos < half_degree)%nat ->
     vec_to_list target !! Z.to_nat pos = Some (val pos)) ->
  fold_left step (block_positions blockDim) b = target.
Proof.
  intros Hstep Htarget.
  destruct (Nat.eq_dec half_degree 0%nat) as [Hzero | Hpos].
  - apply empty_buffers_equal. exact Hzero.
  - assert (Hdeg : 0 <= degree).
    { unfold half_degree in Hpos.
      destruct (Z.le_gt_cases 0 degree) as [Hle | Hgt]; [exact Hle |].
      exfalso. apply Hpos.
      assert (degree / 2 < 0) by (apply Z.div_lt_upper_bound; lia). lia. }
    apply (stores_fill_buffer step val); try assumption.
    + intros pos Hin. eapply block_positions_nonneg; eassumption.
    + intros p Hp. apply block_positions_cover; assumption.
Qed.

Lemma copy_fold (src : scratch -> fft_buffer) (positions : list Z) :
  (forall v s, src (set_accumulator_fft v s) = src s) ->
  forall s,
    fold_left (fun s pos =>
                 set_accumulator_fft (buf_copy (src s) pos (accumulator_fft s)) s)
              positions s
    = set_accumulator_fft
        (fold_left (fun b pos => buf_copy (src s) pos b) positions (accumulator_fft s)) s.
Proof.
  intros Hsrc. induction positions as [| pos positions IH]; intros s.
  - destruct s; reflexivity.
  - cbn [fold_left]. rewrite IH, Hsrc. reflexivity.
Qed.

Lemma copy_loop (src : scratch -> fft_buffer) (s : scratch) :
  (forall v s, src (set_accumulator_fft v s) = src s) ->
  all_threads blockDim
    (thread_cells (fun tid s =>
       set_accumulator_fft (buf_copy (src s) tid (accumulator_fft s)) s)) s
  = set_accumulator_fft (src s) s.
Proof.
  intros Hsrc.
  rewrite (all_threads_fold
             (fun pos s => set_accumulator_fft (buf_copy (src s) pos (accumulator_fft s)) s)).
  rewrite (copy_fold src _ Hsrc). f_equal.
  apply (stores_reach_every_cell _
           (fun pos => default (zero, zero) (vec_to_list (src s) !! Z.to_nat pos))).
  - intros pos b Hpos. apply vec_to_list_buf_copy. exact Hpos.
  - intros pos Hpos Hlt.
    destruct (lookup_lt_is_Some_2 (vec_to_list (src s)) (Z.to_nat pos)) as [x Hx].
    + rewrite length_vec_to_list. exact Hlt.
    + etransitivity; [exact Hx |]. apply f_equal. symmetry.
      apply (f_equal (default (zero, zero))) in Hx. exact Hx.
Qed.

Lemma clear_cell_stores (pos : Z) (s : scratch) :
  clear_cell pos s
  = set_body_res_fft (buf_alter (fun _ => (zero, zero)) pos (body_res_fft s))
      (set_mask_res_fft (buf_alter (fun _ => (zero, zero)) pos (mask_res_fft s)) s).
Proof.
  unfold clear_cell. cbn [mask_res_fft body_res_fft set_mask_res_fft set_body_res_fft].
  rewrite !buf_alter_twice. reflexivity.
Qed.

Lemma clear_fold (positions : list Z) :
  forall s,
    fold_left (fun s pos => clear_cell pos s) positions s
    = set_body_res_fft
        (fold_left (fun b pos => buf_alter (fun _ => (zero, zero)) pos b)
                   positions (body_res_fft s))
        (set_mask_res_fft
           (fold_left (fun b pos => buf_alter (fun _ => (zero, zero)) pos b)
                      positions (mask_res_fft s)) s).
Proof.
  induction positions as [| pos positions IH]; intros s.
  - destruct s; reflexivity.
  - cbn [fold_left]. rewrite IH, clear_cell_stores. reflexivity.
Qed.

Lemma clear_loop (s : scratch) :
  all_threads blockDim (thread_cells clear_cell) s
  = set_body_res_fft zeros (set_mask_res_fft zeros s).
Proof.
  rewrite all_threads_fold, clear_fold.
  assert (Hfill : forall b : fft_buffer,
             fold_left (fun b pos => buf_alter (fun _ => (zero, zero)) pos b)
                       (block_positions blockDim) b = zeros).
  { intros b. apply (stores_reach_every_cell _ (fun _ => (zero, zero))).
    - intros pos b' Hpos. apply vec_to_list_buf_alter. exact Hpos.
    - intros pos Hpos Hlt. unfold zeros. rewrite vec_to_list_replicate.
      apply lookup_replicate_2. exact Hlt. }
  rewrite !Hfill. reflexivity.
Qed.

Lemma back_to_coefficients_accumulators (SMD : sharedMemDegree) (s : scratch) :
  accumulator_mask (back_to_coefficients SMD blockDim s)
  = add_to_torus (NSMFFT_inverse (correction_inverse_fft_inplace (mask_res_fft s)))
                 (accumulator_mask s)
  /\ accumulator_body (back_to_coefficients SMD blockDim s)
     = add_to_torus (NSMFFT_inverse (correction_inverse_fft_inplace (body_res_fft s)))
                    (accumulator_body s).
Proof.
  destruct SMD; unfold back_to_coefficients, synchronize_threads_in_block; cbn zeta.
  - split; reflexivity.
  - rewrite (copy_loop mask_res_fft) by reflexivity.
    cbn [accumulator_mask accumulator_body accumulator_fft mask_res_fft body_res_fft
         emit set_accumulator_fft set_accumulator_mask set_accumulator_body].
    rewrite (copy_loop body_res_fft) by reflexivity.
    split; reflexivity.
  - split; reflexivity.
Qed.

Lemma external_product_level_same_inputs (bootstrapping_key : list double2)
    (polynomial_size base_log l_gadget iteration : Z) (s1 s2 : scratch) (lv : Z) :
  same_inputs s1 s2 ->
  same_inputs
    (external_product_level bootstrapping_key polynomial_size base_log l_gadget
                            iteration s1 lv)
    (external_product_level bootstrapping_key polynomial_size base_log l_gadget
                            iteration s2 lv).
Proof.
  intros (Hm & Hb & Hmr & Hbr & Hfm & Hfb).
  unfold same_inputs, external_product_level, synchronize_threads_in_block. cbn.
  rewrite Hm, Hb, Hmr, Hbr, Hfm, Hfb. repeat split; reflexivity.
Qed.

Lemma levels_same_inputs (bootstrapping_key : list double2)
    (polynomial_size base_log l_gadget iteration : Z) (lvs : list Z) :
  forall s1 s2,
    same_inputs s1 s2 ->
    same_inputs
      (fold_left (external_product_level bootstrapping_key polynomial_size base_log
                    l_gadget iteration) lvs s1)
      (fold_left (external_product_level bootstrapping_key polynomial_size base_log
                    l_gadget iteration) lvs s2).
Proof.
  induction lvs as [| lv lvs IH]; intros s1 s2 Hsame; cbn [fold_left].
  - exact Hsame.
  - apply IH. apply external_product_level_same_inputs. exact Hsame.
Qed.

Lemma blind_rotate_iteration_same_accumulators (SMD1 SMD2 : sharedMemDegree)
    (block_lwe_in : list Z) (bootstrapping_key : list double2)
    (polynomial_size base_log l_gadget : Z) (s1 s2 : scratch) (iteration : Z) :
  same_accumulators s1 s2 ->
  same_accumulators
    (blind_rotate_iteration SMD1 blockDim block_lwe_in bootstrapping_key
                            polynomial_size base_log l_gadget s1 iteration)
    (blind_rotate_iteration SMD2 blockDim block_lwe_in bootstrapping_key
                            polynomial_size base_log l_gadget s2 iteration).
Proof.
  intros [Hm Hb]. unfold blind_rotate_iteration. cbn zeta.
  match goal with
  | |- same_accumulators
         (emit _ (back_to_coefficients _ _ (fold_left _ _ ?X1)))
         (emit _ (back_to_coefficients _ _ (fold_left _ _ ?X2))) =>
      assert (Hin : same_inputs X1 X2)
  end.
  { unfold same_inputs, synchronize_threads_in_block.
    destruct (rescale_torus_element (block_lwe_in !!! Z.to_nat iteration) (2 * degree) =? 0);
      cbn [accumulator_mask accumulator_body accumulator_mask_rotated
           accumulator_body_rotated mask_res_fft body_res_fft emit];
      rewrite !clear_loop; cbn; rewrite Hm, Hb; repeat split; reflexivity. }
  apply (levels_same_inputs bootstrapping_key polynomial_size base_log l_gadget
           iteration (seqZ 0 l_gadget)) in Hin.
  destruct Hin as (Fm & Fb & _ & _ & Ffm & Ffb).
  unfold same_accumulators. cbn [accumulator_mask accumulator_body emit].
  match goal with
  | |- accumulator_mask (back_to_coefficients _ _ ?Y1)
       = accumulator_mask (back_to_coefficients _ _ ?Y2) /\ _ =>
      destruct (back_to_coefficients_accumulators SMD1 Y1) as [Em1 Eb1];
      destruct (back_to_coefficients_accumulators SMD2 Y2) as [Em2 Eb2]
  end.
  rewrite Em1, Em2, Eb1, Eb2, Fm, Fb, Ffm, Ffb. split; reflexivity.
Qed.

Lemma iterations_same_accumulators (SMD1 SMD2 : sharedMemDegree)
    (block_lwe_in : list Z) (bootstrapping_key : list double2)
    (polynomial_size base_log l_gadget : Z) (iterations : list Z) :
  forall s1 s2,
    same_accumulators s1 s2 ->
    same_accumulators
      (fold_left (blind_rotate_iteration SMD1 blockDim block_lwe_in bootstrapping_key
                    polynomial_size base_log l_gadget) iterations s1)
      (fold_left (blind_rotate_iteration SMD2 blockDim block_lwe_in bootstrapping_key
                    polynomial_size base_log l_gadget) iterations s2).
Proof.
  induction iterations as [| i iterations IH]; intros s1 s2 Hsame; cbn [fold_left].
  - exact Hsame.
  - apply IH. apply blind_rotate_iteration_same_accumulators. exact Hsame.
Qed.

Lemma blind_rotation_same_accumulators (SMD1 SMD2 : sharedMemDegree) (blockIdx : Z)
    (lut_vector lut_vector_indexes lwe_in : list Z) (bootstrapping_key : list double2)
    (lwe_mask_size polynomial_size base_log l_gadget lwe_idx : Z) (s1 s2 : scratch) :
  same_accumulators
    (blind_rotation SMD1 blockDim blockIdx lut_vector lut_vector_indexes lwe_in
       bootstrapping_key lwe_mask_size polynomial_size base_log l_gadget lwe_idx s1)
    (blind_rotation SMD2 blockDim blockIdx lut_vector lut_vector_indexes lwe_in
       bootstrapping_key lwe_mask_size polynomial_size base_log l_gadget lwe_idx s2).
Proof.
  unfold blind_rotation. cbn zeta.
  apply iterations_same_accumulators. split; reflexivity.
Qed.

Lemma device_bootstrap_amortized_same_output (SMD1 SMD2 : sharedMemDegree)
    (blockIdx : Z) (lwe_out lut_vector lut_vector_indexes lwe_in : list Z)
    (bootstrapping_key : list double2)
    (lwe_mask_size polynomial_size base_log l_gadget lwe_idx : Z) (s1 s2 : scratch) :
  device_bootstrap_amortized SMD1 blockDim blockIdx lwe_out lut_vector
    lut_vector_indexes lwe_in bootstrapping_key lwe_mask_size polynomial_size
    base_log l_gadget lwe_idx s1
  = device_bootstrap_amortized SMD2 blockDim blockIdx lwe_out lut_vector
      lut_vector_indexes lwe_in bootstrapping_key lwe_mask_size polynomial_size
      base_log l_gadget lwe_idx s2.
Proof.
  unfold device_bootstrap_amortized. cbn zeta.
  destruct (blind_rotation_same_accumulators SMD1 SMD2 blockIdx lut_vector
              lut_vector_indexes lwe_in bootstrapping_key lwe_mask_size
              polynomial_size base_log l_gadget lwe_idx s1 s2) as [Hm Hb].
  rewrite Hm, Hb. reflexivity.
Qed.

Lemma run_grid_same_output (SMD1 SMD2 : sharedMemDegree) (gridDim : Z)
    (memory1 memory2 : Z -> scratch)
    (lwe_out lut_vector lut_vector_indexes lwe_in : list Z)
    (bootstrapping_key : list double2)
    (lwe_mask_size polynomial_size base_log l_gadget lwe_idx : Z) :
  run_grid SMD1 gridDim blockDim memory1 lwe_out lut_vector lut_vector_indexes
           lwe_in bootstrapping_key lwe_mask_size polynomial_size base_log
           l_gadget lwe_idx
  = run_grid SMD2 gridDim blockDim memory2 lwe_out lut_vector lut_vector_indexes
             lwe_in bootstrapping_key lwe_mask_size polynomial_size base_log
             l_gadget lwe_idx.
Proof.
  unfold run_grid. generalize (seqZ 0 gridDim). intros blocks. revert lwe_out.
  induction blocks as [| b blocks IH]; intros lwe_out; cbn [fold_left].
  - reflexivity.
  - rewrite (device_bootstrap_amortized_same_output SMD1 SMD2 b lwe_out lut_vector
               lut_vector_indexes lwe_in bootstrapping_key lwe_mask_size
               polynomial_size base_log l_gadget lwe_idx (memory1 b) (memory2 b)).
    apply IH.
Qed.

End Tiers.

(** ** The blind rotation, buffer by buffer *)

Lemma fold_left_step {S X : Type} (f : S -> X -> S) (x : X) (xs : list X) (s : S) :
  fold_left f (x :: xs) s = fold_left f xs (f s x).
Proof. reflexivity. Qed.

Section BlindRotation.
Import Cuda Pbs Spec.
Context {FO : FloatOps} {P : Params} {DF : DeviceFunctions}.
Variable blockDim : Z.
Hypothesis Hopt : 0 < opt.
Hypothesis Heven : Z.even opt = true.
Hypothesis Hdiv : degree mod opt = 0.
Hypothesis Hdim : degree / opt <= blockDim.

(** One turn of the decomposition loop leaves the accumulators and the
    rotated accumulators alone and adds the four products of its level to
    the two running sums. *)
Lemma external_product_level_products (bootstrapping_key : list double2)
    (polynomial_size base_log l_gadget iteration : Z) (s : scratch) (lv : Z) :
  let s' := external_product_level bootstrapping_key polynomial_size base_log
              l_gadget iteration s lv in
  accumulator_mask s' = accumulator_mask s
  /\ accumulator_body s' = accumulator_body s
  /\ accumulator_mask_rotated s' = accumulator_mask_rotated s
  /\ accumulator_body_rotated s' = accumulator_body_rotated s
  /\ (mask_res_fft s', body_res_fft s')
     = level_products bootstrapping_key polynomial_size base_log l_gadget iteration
         (accumulator_mask_rotated s, accumulator_body_rotated s)
         (mask_res_fft s, body_res_fft s) lv.
Proof.
  unfold external_product_level, level_products, to_frequency, key_block, bsk_slice,
    synchronize_threads_in_block.
  cbn. repeat split; reflexivity.
Qed.

Lemma levels_products (bootstrapping_key : list double2)
    (polynomial_size base_log l_gadget iteration : Z) (lvs : list Z) (s : scratch) :
  accumulator_mask
    (fold_left (external_product_level bootstrapping_key polynomial_size
                  base_log l_gadget iteration) lvs s)
  = accumulator_mask s
  /\ accumulator_body
       (fold_left (external_product_level bootstrapping_key polynomial_size
                     base_log l_gadget iteration) lvs s)
     = accumulator_body s
  /\ accumulator_mask_rotated
       (fold_left (external_product_level bootstrapping_key polynomial_size
                     base_log l_gadget iteration) lvs s)
     = accumulator_mask_rotated s
  /\ accumulator_body_rotated
       (fold_left (external_product_level bootstrapping_key polynomial_size
                     base_log l_gadget iteration) lvs s)
     = accumulator_body_rotated s
  /\ (mask_res_fft
        (fold_left (external_product_level bootstrapping_key polynomial_size
                      base_log l_gadget iteration) lvs s),
      body_res_fft
        (fold_left (external_product_level bootstrapping_key polynomial_size
                      base_log l_gadget iteration) lvs s))
     = fold_left
         (level_products bootstrapping_key polynomial_size base_log l_gadget
            iteration (accumulator_mask_rotated s, accumulator_body_rotated s))
         lvs (mask_res_fft s, body_res_fft s).
Proof.
  revert s. induction lvs as [| lv lvs IH]; intros s.
  - repeat split; reflexivity.
  - pose proof (external_product_level_products bootstrapping_key polynomial_size
                  base_log l_gadget iteration s lv) as Hstep.
    rewrite !fold_left_step.
    revert Hstep.
    generalize (external_product_level bootstrapping_key polynomial_size base_log
                  l_gadget iteration s lv).
    intros s1 (Hm & Hb & Hmr & Hbr & Hres).
    destruct (IH s1) as (Im & Ib & Imr & Ibr & Ires).
    rewrite <- Hres, <- Hm, <- Hb, <- Hmr, <- Hbr.
    repeat split; assumption.
Qed.

Lemma back_to_coefficients_rotated (SMD : sharedMemDegree) (s : scratch) :
  accumulator_mask_rotated (back_to_coefficients SMD blockDim s)
  = accumulator_mask_rotated s
  /\ accumulator_body_rotated (back_to_coefficients SMD blockDim s)
     = accumulator_body_rotated s.
Proof.
  destruct SMD; unfold back_to_coefficients, synchronize_threads_in_block; cbn zeta.
  - split; reflexivity.
  - cbn [accumulator_mask_rotated accumulator_body_rotated emit set_accumulator_fft
         set_accumulator_mask set_accumulator_body].
    rewrite (copy_loop blockDim Hopt Heven Hdiv Hdim body_res_fft) by reflexivity.
    cbn [accumulator_mask_rotated accumulator_body_rotated emit set_accumulator_fft
         set_accumulator_mask set_accumulator_body].
    rewrite (copy_loop blockDim Hopt Heven Hdiv Hdim mask_res_fft) by reflexivity.
    split; reflexivity.
  - split; reflexivity.
Qed.

(** One turn of the loop over the mask elements, on the buffers. *)
Lemma blind_rotate_iteration_step (SMD : sharedMemDegree)
    (block_lwe_in : list Z) (bootstrapping_key : list double2)
    (polynomial_size base_log l_gadget : Z) (s : scratch) (iteration : Z) :
  let s' := blind_rotate_iteration SMD blockDim block_lwe_in bootstrapping_key
              polynomial_size base_log l_gadget s iteration in
  let a_hat := rotation_amount block_lwe_in iteration in
  (accumulator_mask_rotated s', accumulator_body_rotated s')
  = (round_to_closest_multiple_inplace
       (multiply_by_monomial_negacyclic_and_sub_polynomial (accumulator_mask s) a_hat)
       base_log l_gadget,
     round_to_closest_multiple_inplace
       (multiply_by_monomial_negacyclic_and_sub_polynomial (accumulator_body s) a_hat)
       base_log l_gadget)
  /\ (accumulator_mask s', accumulator_body s')
     = rotate_and_accumulate bootstrapping_key polynomial_size base_log l_gadget
         (accumulator_mask s, accumulator_body s) iteration a_hat.
Proof.
  intros s' a_hat. subst s'. unfold blind_rotate_iteration. cbn zeta.
  fold (rotation_amount block_lwe_in iteration). fold a_hat.
  unfold synchronize_threads_in_block.
  replace (if a_hat =? 0 then emit Barrier s else emit Barrier s)
    with (emit Barrier s) by (destruct (a_hat =? 0); reflexivity).
  cbn [accumulator_mask accumulator_body accumulator_mask_rotated
       accumulator_body_rotated emit].
  match goal with
  | |- context [back_to_coefficients SMD blockDim ?Y] =>
      destruct (back_to_coefficients_accumulators blockDim Hopt Heven Hdiv Hdim SMD Y)
        as [Em Eb];
      destruct (back_to_coefficients_rotated SMD Y) as [Rm Rb];
      set (summed := Y) in *
  end.
  rewrite Rm, Rb, Em, Eb. clear Rm Rb Em Eb.
  subst summed.
  match goal with
  | |- context [fold_left _ _ ?X] =>
      destruct (levels_products bootstrapping_key polynomial_size base_log l_gadget
                  iteration (seqZ 0 l_gadget) X) as (Lm & Lb & Lmr & Lbr & Lres);
      set (cleared := X) in *
  end.
  apply (f_equal fst) in Lres as Lres1. apply (f_equal snd) in Lres as Lres2.
  cbn [fst snd] in Lres1, Lres2.
  rewrite Lm, Lb, Lmr, Lbr, Lres1, Lres2. clear Lm Lb Lmr Lbr Lres Lres1 Lres2.
  subst cleared.
  cbn [accumulator_mask accumulator_body accumulator_mask_rotated
       accumulator_body_rotated mask_res_fft body_res_fft emit].
  rewrite !(clear_loop blockDim Hopt Heven Hdiv Hdim).
  cbn [accumulator_mask accumulator_body accumulator_mask_rotated
       accumulator_body_rotated mask_res_fft body_res_fft emit
       set_mask_res_fft set_body_res_fft set_accumulator_mask_rotated
       set_accumulator_body_rotated].
  unfold rotate_and_accumulate, add_back. cbn [fst snd]. split; reflexivity.
Qed.

Lemma iterations_steps (SMD : sharedMemDegree)
    (block_lwe_in : list Z) (bootstrapping_key : list double2)
    (polynomial_size base_log l_gadget : Z) (iterations : list Z) (s : scratch) :
  (accumulator_mask
     (fold_left (blind_rotate_iteration SMD blockDim block_lwe_in
                   bootstrapping_key polynomial_size base_log l_gadget)
                iterations s),
   accumulator_body
     (fold_left (blind_rotate_iteration SMD blockDim block_lwe_in
                   bootstrapping_key polynomial_size base_log l_gadget)
                iterations s))
  = fold_left
      (fun accumulators i =>
         rotate_and_accumulate bootstrapping_key polynomial_size base_log l_gadget
           accumulators i (rotation_amount block_lwe_in i))
      iterations (accumulator_mask s, accumulator_body s).
Proof.
  revert s. induction iterations as [| i iterations IH]; intros s.
  - reflexivity.
  - pose proof (blind_rotate_iteration_step SMD block_lwe_in bootstrapping_key
                  polynomial_size base_log l_gadget s i) as [_ Hstep].
    rewrite !fold_left_step. revert Hstep. cbv zeta.
    generalize (blind_rotate_iteration SMD blockDim block_lwe_in bootstrapping_key
                  polynomial_size base_log l_gadget s i).
    intros s1 Hstep. rewrite <- Hstep. apply IH.
Qed.

Lemma blind_rotation_accumulators (SMD : sharedMemDegree) (blockIdx : Z)
    (lut_vector lut_vector_indexes lwe_in : list Z) (bootstrapping_key : list double2)
    (lwe_mask_size polynomial_size base_log l_gadget lwe_idx : Z) (s : scratch) :
  let final := blind_rotation SMD blockDim blockIdx lut_vector lut_vector_indexes
                 lwe_in bootstrapping_key lwe_mask_size polynomial_size base_log
                 l_gadget lwe_idx s in
  (accumulator_mask final, accumulator_body final)
  = blind_rotated bootstrapping_key lut_vector lut_vector_indexes lwe_in blockIdx
      lwe_mask_size polynomial_size base_log l_gadget lwe_idx.
Proof.
  cbn zeta. unfold blind_rotation. cbn zeta.
  rewrite iterations_steps. reflexivity.
Qed.

End BlindRotation.

(** C3. Whatever the inputs and the tier, a block runs the body of the
    loop once for each of the mask elements [0 .. lwe_mask_size - 1] of its
    ciphertext, in order. On the log: the complete sequence of phases of
    every iteration (rotation by the rescaled mask element [a_hat], 0
    included, rounding, clearing, decomposition and accumulation for every
    level, the return to the accumulator), with exactly one rotation and one
    addition per iteration. On the buffers, when each thread owns [opt / 2]
    cells and the block has at least [degree / opt] threads: every
    iteration, from any state, leaves the rounded rotated accumulators in
    the rotated buffers and makes of the accumulators what one blind-rotation
    step makes of them, also when [a_hat] is 0; so the accumulators at the
    end of the loop are the [lwe_mask_size]-fold iteration of that step on
    the rotated test polynomial. *)
Theorem blind_rotation_runs_every_iteration (FO : FloatOps) (P : Params)
    (DF : DeviceFunctions) (SMD : Cuda.sharedMemDegree)
    (blockDim blockIdx : Z) (lut_vector lut_vector_indexes lwe_in : list Z)
    (bootstrapping_key : list double2)
    (lwe_mask_size polynomial_size base_log l_gadget lwe_idx : Z) (s : Pbs.scratch) :
  let block_lwe_in := drop (Z.to_nat (Bsk.mul32 blockIdx (lwe_mask_size + 1))) lwe_in in
  let a_hat := fun i =>
    rescale_torus_element (block_lwe_in !!! Z.to_nat i) (2 * degree) in
  let final := Pbs.blind_rotation SMD blockDim blockIdx lut_vector lut_vector_indexes
                 lwe_in bootstrapping_key lwe_mask_size polynomial_size base_log
                 l_gadget lwe_idx s in
  let run := flat_map (fun i => Spec.iteration_events SMD l_gadget i (a_hat i))
                      (seqZ 0 lwe_mask_size) in
  Pbs.events final = Pbs.events s ++ run
  /\ List.filter Spec.is_rotated run
     = map (fun i => Pbs.Rotated i (a_hat i)) (seqZ 0 lwe_mask_size)
  /\ List.filter Spec.is_added_back run = map Pbs.AddedBack (seqZ 0 lwe_mask_size)
  /\ length (List.filter Spec.is_rotated run) = Z.to_nat lwe_mask_size
  /\ (forall i, 0 <= i < lwe_mask_size -> a_hat i = 0 ->
        In (Pbs.Rotated i 0) run /\ In (Pbs.AddedBack i) run)
  /\ (0 < opt -> Z.even opt = true -> degree mod opt = 0 -> degree / opt <= blockDim ->
      (forall before i,
          let after := Pbs.blind_rotate_iteration SMD blockDim block_lwe_in
                         bootstrapping_key polynomial_size base_log l_gadget
                         before i in
          (Pbs.accumulator_mask_rotated after, Pbs.accumulator_body_rotated after)
          = (round_to_closest_multiple_inplace
               (multiply_by_monomial_negacyclic_and_sub_polynomial
                  (Pbs.accumulator_mask before) (a_hat i)) base_log l_gadget,
             round_to_closest_multiple_inplace
               (multiply_by_monomial_negacyclic_and_sub_polynomial
                  (Pbs.accumulator_body before) (a_hat i)) base_log l_gadget)
          /\ (Pbs.accumulator_mask after, Pbs.accumulator_body after)
             = Spec.rotate_and_accumulate bootstrapping_key polynomial_size base_log
                 l_gadget (Pbs.accumulator_mask before, Pbs.accumulator_body before)
                 i (a_hat i)
          /\ (a_hat i = 0 ->
              (Pbs.accumulator_mask after, Pbs.accumulator_body after)
              = Spec.rotate_and_accumulate bootstrapping_key polynomial_size base_log
                  l_gadget (Pbs.accumulator_mask before, Pbs.accumulator_body before)
                  i 0))
      /\ (Pbs.accumulator_mask final, Pbs.accumulator_body final)
         = Spec.blind_rotated bootstrapping_key lut_vector lut_vector_indexes lwe_in
             blockIdx lwe_mask_size polynomial_size base_log l_gadget lwe_idx).
Proof.
  intros block_lwe_in a_hat final run.
  assert (Hrot : List.filter Spec.is_rotated run
                 = map (fun i => Pbs.Rotated i (a_hat i)) (seqZ 0 lwe_mask_size))
    by apply rotations_of_iterations.
  assert (Hadd : List.filter Spec.is_added_back run
                 = map Pbs.AddedBack (seqZ 0 lwe_mask_size))
    by apply add_backs_of_iterations.
  split; [| split; [exact Hrot | split; [exact Hadd | split; [| split]]]].
  - subst final run. unfold Pbs.blind_rotation. cbn zeta.
    rewrite events_iterations. reflexivity.
  - rewrite Hrot, length_map, length_seqZ. reflexivity.
  - intros i Hi Hzero. split.
    + apply (proj1 (filter_In Spec.is_rotated (Pbs.Rotated i 0) run)).
      rewrite Hrot, <- Hzero. apply (in_map (fun i => Pbs.Rotated i (a_hat i))).
      apply In_seqZ. lia.
    + apply (proj1 (filter_In Spec.is_added_back (Pbs.AddedBack i) run)).
      rewrite Hadd. apply in_map. apply In_seqZ. lia.
  - intros Hopt Heven Hdiv Hdim. split.
    + intros before i after.
      destruct (blind_rotate_iteration_step blockDim Hopt Heven Hdiv Hdim SMD
                  block_lwe_in bootstrapping_key polynomial_size base_log l_gadget
                  before i) as [Hrotated Hstep].
      split; [exact Hrotated |]. split; [exact Hstep |].
      intros Hzero. rewrite <- Hzero. exact Hstep.
    + apply (blind_rotation_accumulators blockDim Hopt Heven Hdiv Hdim).
Qed.

Lemma blind_rotation_runs_every_iteration_witness :
  (0 < @opt Examples.small_params
   /\ Z.even (@opt Examples.small_params) = true
   /\ @degree Examples.small_params mod @opt Examples.small_params = 0
   /\ @degree Examples.small_params / @opt Examples.small_params <= 2)
  /\ (let final :=
        @Pbs.blind_rotation exact_double Examples.small_params Examples.small_device
          Cuda.PARTIALSM 2 0 Examples.lut_vector Examples.lut_vector_indexes
          Examples.lwe_in Examples.bootstrapping_key 3 8 4 2 0 (Examples.stale 7 0) in
      (Pbs.accumulator_mask final, Pbs.accumulator_body final)
      = @Spec.blind_rotated exact_double Examples.small_params Examples.small_device
          Examples.bootstrapping_key Examples.lut_vector Examples.lut_vector_indexes
          Examples.lwe_in 0 3 8 4 2 0).
Proof.
  assert (H1 : 0 < @opt Examples.small_params) by (cbn; lia).
  assert (H2 : Z.even (@opt Examples.small_params) = true) by reflexivity.
  assert (H3 : @degree Examples.small_params mod @opt Examples.small_params = 0)
    by reflexivity.
  assert (H4 : @degree Examples.small_params / @opt Examples.small_params <= 2)
    by (vm_compute; discriminate).
  split; [repeat split; assumption |].
  destruct (blind_rotation_runs_every_iteration exact_double Examples.small_params
              Examples.small_device Cuda.PARTIALSM 2 0 Examples.lut_vector
              Examples.lut_vector_indexes Examples.lwe_in Examples.bootstrapping_key
              3 8 4 2 0 (Examples.stale 7 0))
    as (_ & _ & _ & _ & _ & Hbuffers).
  exact (proj2 (Hbuffers H1 H2 H3 H4)).
Defined.

(** ** The shape of a launch *)

Section LaunchShape.
Import Cuda Pbs Spec.
Context {P : Params}.

Lemma choose_launch_shape (N count capacity : Z) :
  0 <= N -> 0 <= sizeof_Torus -> (4 * sizeof_Torus + 28) * N < 2 ^ 31 ->
  0 <= capacity < 2 ^ 32 ->
  let cfg := choose_launch N count capacity in
  0 <= fft_footprint N <= full_footprint N
  /\ full_footprint N < 2 ^ 31
  /\ dynamic_shared cfg
     = match tier cfg with
       | NOSM => 0 | PARTIALSM => fft_footprint N | FULLSM => full_footprint N
       end
  /\ per_sample cfg
     = match tier cfg with
       | NOSM => full_footprint N
       | PARTIALSM => full_footprint N - fft_footprint N
       | FULLSM => 0
       end
  /\ d_mem_bytes cfg = CInt.to_uint32 (per_sample cfg * count)
  /\ match tier cfg with
     | NOSM => capacity < fft_footprint N
     | PARTIALSM => fft_footprint N <= capacity < full_footprint N
     | FULLSM => full_footprint N <= capacity
     end.
Proof.
  intros HN HT Hfit Hcap cfg.
  pose proof (SM_FULL_exact N HN HT Hfit) as Hfull.
  pose proof (SM_PART_exact N HN ltac:(nia)) as Hpart.
  pose proof (fft_footprint_le_full N HN HT) as Hle.
  assert (Hbound : full_footprint N < 2 ^ 31).
  { unfold full_footprint. rewrite fortyeight_halves. lia. }
  split; [exact Hle |]. split; [exact Hbound |].
  subst cfg. unfold choose_launch, DM_FULL, DM_PART.
  rewrite Hfull, Hpart.
  rewrite (to_uint32_small (fft_footprint N)) by lia.
  rewrite (to_uint32_small (full_footprint N)) by lia.
  rewrite (to_int32_small (full_footprint N - fft_footprint N)) by lia.
  rewrite (to_uint64_small (full_footprint N)) by lia.
  rewrite (to_uint64_small (full_footprint N - fft_footprint N)) by lia.
  destruct (Z.ltb_spec capacity (fft_footprint N)) as [H1 | H1];
    [| destruct (Z.ltb_spec capacity (full_footprint N)) as [H2 | H2]];
    cbn [tier dynamic_shared per_sample d_mem_bytes];
    repeat split; try reflexivity; try lia.
Qed.

Lemma scratch_for_every_block (N count capacity : Z) :
  0 <= N -> 0 <= sizeof_Torus -> (4 * sizeof_Torus + 28) * N < 2 ^ 31 ->
  0 <= capacity < 2 ^ 32 ->
  0 <= count -> SM_FULL N * count < 2 ^ 32 ->
  d_mem_bytes (choose_launch N count capacity)
  = count * per_sample (choose_launch N count capacity).
Proof.
  intros HN HT Hfit Hcap Hcount Hall.
  destruct (choose_launch_shape N count capacity HN HT Hfit Hcap)
    as (Hle & Hbound & _ & Hper & Hmem & _).
  rewrite (SM_FULL_exact N HN HT Hfit) in Hall.
  set (cfg := choose_launch N count capacity) in *.
  assert (Hps : 0 <= per_sample cfg <= full_footprint N)
    by (rewrite Hper; destruct (tier cfg); lia).
  assert (Hup : per_sample cfg * count <= full_footprint N * count)
    by (apply Z.mul_le_mono_nonneg_r; lia).
  assert (Hlow : 0 <= per_sample cfg * count) by (apply Z.mul_nonneg_nonneg; lia).
  rewrite Hmem, to_uint32_small by lia. lia.
Qed.

End LaunchShape.

(** ** The host launcher *)

Section Launcher.
Import Cuda Device Pbs Spec.
Context {FO : FloatOps} {P : Params} {DF : DeviceFunctions}.

Lemma choose_launch_dims (polynomial_size count capacity : Z) :
  grid_x (choose_launch polynomial_size count capacity) = count
  /\ thds_x (choose_launch polynomial_size count capacity)
     = CInt.to_uint32 polynomial_size / CInt.to_uint32 opt.
Proof.
  unfold choose_launch.
  destruct (capacity <? CInt.to_uint32 (SM_PART polynomial_size));
    [| destruct (capacity <? CInt.to_uint32 (SM_FULL polynomial_size))];
    split; reflexivity.
Qed.

Lemma bind_run {A B : Type} (m : Host A) (k : A -> Host B) (rt : cuda_runtime) :
  bind m k rt = k (fst (m rt)) (snd (m rt)).
Proof. unfold bind. destruct (m rt). reflexivity. Qed.

Lemma log_calls (c : cuda_call) (rt : cuda_runtime) :
  calls (snd (log c rt)) = calls rt ++ [c].
Proof. reflexivity. Qed.

Lemma log_granted (c : cuda_call) (rt : cuda_runtime) (size : Z) :
  granted (snd (log c rt)) size = granted rt size.
Proof. reflexivity. Qed.

Lemma cudaMalloc_checked_outcome (size : Z) (rt : cuda_runtime) :
  calls (snd (cudaMalloc_checked size rt)) = calls rt ++ [CudaMalloc size]
  /\ (granted rt size = true ->
      fst (cudaMalloc_checked size rt) = Some (Z.of_nat (length (allocations rt))))
  /\ (granted rt size = false -> fst (cudaMalloc_checked size rt) = None).
Proof.
  unfold cudaMalloc_checked, granted.
  destruct (size <=? free_mem rt (current_device rt)); cbn;
    (split; [reflexivity | split; [intros; reflexivity || discriminate
                                  | intros; reflexivity || discriminate]]).
Qed.

Lemma cudaFree_calls (ptr : Z) (rt : cuda_runtime) :
  calls (snd (cudaFree ptr rt)) = calls rt ++ [CudaFree].
Proof.
  unfold cudaFree, bind, log. cbn.
  destruct (if 0 <=? ptr then allocations rt !! Z.to_nat ptr else None)
    as [[device size] |]; [destruct (0 <=? size) |]; reflexivity.
Qed.

(** What the configuration calls leave: the verdict, and the log. *)
Lemma setup_outcome (accepted : cuda_call -> bool) (cfg : launch) (rt : cuda_runtime) :
  let setup :=
    match tier cfg with
    | NOSM => ret true
    | PARTIALSM =>
        bind (log (CudaFuncSetAttribute (tier cfg) (dynamic_shared cfg)))
          (fun _ => bind (log (CudaFuncSetCacheConfig (tier cfg))) (fun _ => ret true))
    | FULLSM =>
        bind (log (CudaFuncSetAttribute (tier cfg) (dynamic_shared cfg)))
          (fun _ => if accepted (CudaFuncSetAttribute (tier cfg) (dynamic_shared cfg))
                    then bind (log (CudaFuncSetCacheConfig (tier cfg)))
                           (fun _ => ret (accepted (CudaFuncSetCacheConfig (tier cfg))))
                    else ret false)
    end in
  fst (setup rt) = setup_accepted accepted cfg
  /\ (forall size, granted (snd (setup rt)) size = granted rt size)
  /\ (setup_accepted accepted cfg = true ->
      calls (snd (setup rt)) = calls rt ++ launch_setup cfg)
  /\ (exists new, calls (snd (setup rt)) = calls rt ++ new
                  /\ existsb enqueues_work new = false
                  /\ existsb blocks_host new = false).
Proof.
  unfold setup_accepted, launch_setup.
  destruct (tier cfg); cbn zeta.
  - repeat split. + intros _. symmetry. apply app_nil_r.
    + exists []. rewrite app_nil_r. repeat split.
  - repeat split.
    + intros _. cbn. rewrite <- app_assoc. reflexivity.
    + eexists. cbn. rewrite <- app_assoc. repeat split.
  - unfold bind, log, ret. cbn.
    destruct (accepted (CudaFuncSetAttribute FULLSM (dynamic_shared cfg))); cbn.
    + repeat split.
      * intros _. rewrite <- app_assoc. reflexivity.
      * eexists. rewrite <- app_assoc. repeat split.
    + repeat split; [discriminate |]. eexists. repeat split.
Qed.

Lemma host_bootstrap_amortized_outcome (accepted : cuda_call -> bool)
    (memory : Z -> scratch) (v_stream : Z)
    (lwe_out lut_vector lut_vector_indexes lwe_in : list Z)
    (bootstrapping_key : list double2)
    (input_lwe_dimension polynomial_size base_log l_gadget
     input_lwe_ciphertext_count num_lut_vectors lwe_idx max_shared_memory : Z)
    (rt : cuda_runtime) :
  let cfg := choose_launch polynomial_size input_lwe_ciphertext_count
                           max_shared_memory in
  let run :=
    host_bootstrap_amortized accepted memory v_stream lwe_out lut_vector
      lut_vector_indexes lwe_in bootstrapping_key input_lwe_dimension
      polynomial_size base_log l_gadget input_lwe_ciphertext_count
      num_lut_vectors lwe_idx max_shared_memory rt in
  (setup_accepted accepted cfg && granted rt (d_mem_bytes cfg) = true ->
   fst run
   = Some (if accepted (kernel_launch cfg v_stream)
           then run_grid (tier cfg) input_lwe_ciphertext_count
                  (CInt.to_uint32 polynomial_size / CInt.to_uint32 opt) memory
                  lwe_out lut_vector lut_vector_indexes lwe_in bootstrapping_key
                  input_lwe_dimension polynomial_size base_log l_gadget lwe_idx
           else lwe_out)
   /\ calls (snd run) = calls rt ++ launcher_calls cfg v_stream)
  /\ (setup_accepted accepted cfg && granted rt (d_mem_bytes cfg) = false ->
      fst run = None
      /\ exists new, calls (snd run) = calls rt ++ new
                     /\ existsb enqueues_work new = false
                     /\ existsb blocks_host new = false).
Proof.
  intros cfg run.
  destruct (choose_launch_dims polynomial_size input_lwe_ciphertext_count
              max_shared_memory) as [Hgrid Hthds].
  fold cfg in Hgrid, Hthds.
  destruct (setup_outcome accepted cfg rt) as (Hverdict & Hfree & Hsetup & Hquiet).
  cbn zeta in Hverdict, Hfree, Hsetup, Hquiet.
  subst run. unfold host_bootstrap_amortized. fold cfg. cbn zeta.
  rewrite bind_run.
  match goal with
  | |- context [fst (?m rt)] => set (setup := m) in *
  end.
  rewrite Hverdict.
  destruct (cudaMalloc_checked_outcome (d_mem_bytes cfg) (snd (setup rt)))
    as (Hmalloc & Hsome & Hnone).
  rewrite Hfree in Hsome, Hnone.
  destruct (setup_accepted accepted cfg) eqn:Hacc; cbn [andb].
  - rewrite bind_run.
    destruct (granted rt (d_mem_bytes cfg)) eqn:Hgr; (split; [| intros Hno]; try discriminate).
    + intros _. rewrite (Hsome eq_refl).
      rewrite !bind_run. unfold ret. cbn [fst snd].
      split.
      * unfold kernel_launch. rewrite Hgrid, Hthds. reflexivity.
      * rewrite cudaFree_calls, !log_calls, Hmalloc, (Hsetup eq_refl).
        unfold launcher_calls, kernel_launch. rewrite <- !app_assoc. reflexivity.
    + rewrite (Hnone eq_refl). unfold ret. cbn [fst snd]. split; [reflexivity |].
      destruct Hquiet as (new & Hnew & Hq1 & Hq2).
      exists (new ++ [CudaMalloc (d_mem_bytes cfg)]).
      rewrite Hmalloc, Hnew, <- app_assoc, !existsb_app, Hq1, Hq2. repeat split.
  - split; [discriminate |]. intros _. unfold ret. cbn [fst snd].
    split; [reflexivity |]. exact Hquiet.
Qed.

Lemma issued_of_calls {A : Type} (f : Host A) (rt : cuda_runtime) (new : list cuda_call) :
  calls (snd (f rt)) = calls rt ++ new -> issued f rt = new.
Proof. intros Hcalls. unfold issued. rewrite Hcalls. apply drop_app_length. Qed.

Lemma host_bootstrap_amortized_returned (accepted : cuda_call -> bool)
    (memory : Z -> scratch) (v_stream : Z)
    (lwe_out lut_vector lut_vector_indexes lwe_in : list Z)
    (bootstrapping_key : list double2)
    (input_lwe_dimension polynomial_size base_log l_gadget
     input_lwe_ciphertext_count num_lut_vectors lwe_idx max_shared_memory : Z)
    (rt : cuda_runtime) (out : list Z) :
  let cfg := choose_launch polynomial_size input_lwe_ciphertext_count
                           max_shared_memory in
  let run :=
    host_bootstrap_amortized accepted memory v_stream lwe_out lut_vector
      lut_vector_indexes lwe_in bootstrapping_key input_lwe_dimension
      polynomial_size base_log l_gadget input_lwe_ciphertext_count
      num_lut_vectors lwe_idx max_shared_memory rt in
  fst run = Some out ->
  setup_accepted accepted cfg = true
  /\ granted rt (d_mem_bytes cfg) = true
  /\ out = (if accepted (kernel_launch cfg v_stream)
            then run_grid (tier cfg) input_lwe_ciphertext_count
                   (CInt.to_uint32 polynomial_size / CInt.to_uint32 opt) memory
                   lwe_out lut_vector lut_vector_indexes lwe_in bootstrapping_key
                   input_lwe_dimension polynomial_size base_log l_gadget lwe_idx
            else lwe_out)
  /\ calls (snd run) = calls rt ++ launcher_calls cfg v_stream.
Proof.
  intros cfg run Hsome.
  destruct (host_bootstrap_amortized_outcome accepted memory v_stream lwe_out
              lut_vector lut_vector_indexes lwe_in bootstrapping_key
              input_lwe_dimension polynomial_size base_log l_gadget
              input_lwe_ciphertext_count num_lut_vectors lwe_idx max_shared_memory rt)
    as [Hyes Hno].
  fold cfg in Hyes, Hno. fold run in Hyes, Hno.
  destruct (setup_accepted accepted cfg && granted rt (d_mem_bytes cfg)) eqn:Hboth.
  - destruct (Hyes eq_refl) as [Hfst Hcalls].
    apply andb_true_iff in Hboth. destruct Hboth as [Hacc Hgr].
    rewrite Hfst in Hsome. injection Hsome as Hout.
    repeat split; try assumption. symmetry. exact Hout.
  - destruct (Hno eq_refl) as [Hfst _]. rewrite Hfst in Hsome. discriminate.
Qed.

Lemma async_to_gpu_calls (dest src size v_stream gpu_index : Z) (rt : cuda_runtime) :
  calls (snd (cuda_memcpy_async_to_gpu dest src size v_stream gpu_index rt))
  = calls rt
    ++ async_copy_calls (fst (cuda_memcpy_async_to_gpu dest src size v_stream gpu_index rt))
         dest gpu_index
         (CudaMemcpyAsync dest src size cudaMemcpyHostToDevice v_stream).
Proof.
  unfold cuda_memcpy_async_to_gpu, async_copy_calls, cuda_get_number_of_gpus,
    cudaGetDeviceCount, cudaPointerGetAttributes, cudaSetDevice, bind, log, ret.
  destruct (size =? 0); cbn; [symmetry; apply app_nil_r |].
  destruct (gpu_index >=? CInt.to_uint32 (device_count rt)); cbn; [reflexivity |].
  destruct (pointer_rejected (pointer_attributes rt dest) gpu_index); cbn;
    [rewrite <- !app_assoc; reflexivity |].
  destruct ((0 <=? gpu_index) && (gpu_index <? device_count rt)); cbn;
    rewrite <- !app_assoc; reflexivity.
Qed.

Lemma async_to_cpu_calls (dest src size v_stream gpu_index : Z) (rt : cuda_runtime) :
  calls (snd (cuda_memcpy_async_to_cpu dest src size v_stream gpu_index rt))
  = calls rt
    ++ async_copy_calls (fst (cuda_memcpy_async_to_cpu dest src size v_stream gpu_index rt))
         src gpu_index
         (CudaMemcpyAsync dest src size cudaMemcpyDeviceToHost v_stream).
Proof.
  unfold cuda_memcpy_async_to_cpu, async_copy_calls, cuda_get_number_of_gpus,
    cudaGetDeviceCount, cudaPointerGetAttributes, cudaSetDevice, bind, log, ret.
  destruct (size =? 0); cbn; [symmetry; apply app_nil_r |].
  destruct (gpu_index >=? CInt.to_uint32 (device_count rt)); cbn; [reflexivity |].
  destruct (pointer_rejected (pointer_attributes rt src) gpu_index); cbn;
    [rewrite <- !app_assoc; reflexivity |].
  destruct ((0 <=? gpu_index) && (gpu_index <? device_count rt)); cbn;
    rewrite <- !app_assoc; reflexivity.
Qed.

Lemma async_copy_calls_do_not_block (status ptr gpu_index : Z) (copy : cuda_call) :
  blocks_host copy = false ->
  existsb blocks_host (async_copy_calls status ptr gpu_index copy) = false.
Proof.
  intros Hcopy. unfold async_copy_calls.
  destruct (status =? ZeroSizeCopy); [reflexivity |].
  destruct (status =? InvalidDevice); [reflexivity |].
  destruct (status =? InvalidPointer); [reflexivity |].
  cbn. rewrite Hcopy. reflexivity.
Qed.

End Launcher.

(** C1. When each thread owns [opt / 2] cells ([opt] even and dividing the
    degree) and the block has at least [degree / opt] threads, the grid
    leaves the same [lwe_out], slot for slot, under any two of the three
    instantiations, whatever each finds in its scratch memory. For the host
    entry point launched on [degree] coefficients, with footprints that fit
    the [int] they are stored in and a batch whose scratch fits the 32 bits
    its size is computed in: the scratch asked of the device holds one slice
    per block; a call whose checked runtime calls succeed returns, and what
    it returns after an accepted launch is the batch the grid computes; two
    calls that return after an accepted launch return the same batch,
    whichever capacities they are given, hence whichever tiers they pick. *)
Theorem tiers_compute_identical_outputs (FO : FloatOps) (P : Params)
    (DF : DeviceFunctions) (memory1 memory2 : Z -> Pbs.scratch)
    (lwe_out lut_vector lut_vector_indexes lwe_in : list Z)
    (bootstrapping_key : list double2)
    (input_lwe_dimension polynomial_size base_log l_gadget
     input_lwe_ciphertext_count num_lut_vectors lwe_idx : Z) :
  0 < opt -> Z.even opt = true -> degree mod opt = 0 ->
  (forall blockDim SMD1 SMD2,
      degree / opt <= blockDim ->
      Pbs.run_grid SMD1 input_lwe_ciphertext_count blockDim memory1 lwe_out
        lut_vector lut_vector_indexes lwe_in bootstrapping_key input_lwe_dimension
        polynomial_size base_log l_gadget lwe_idx
      = Pbs.run_grid SMD2 input_lwe_ciphertext_count blockDim memory2 lwe_out
          lut_vector lut_vector_indexes lwe_in bootstrapping_key
          input_lwe_dimension polynomial_size base_log l_gadget lwe_idx)
  /\ (polynomial_size = degree -> 0 <= degree < 2 ^ 32 -> opt < 2 ^ 32 ->
      0 <= sizeof_Torus -> (4 * sizeof_Torus + 28) * degree < 2 ^ 31 ->
      0 <= input_lwe_ciphertext_count ->
      Pbs.SM_FULL degree * input_lwe_ciphertext_count < 2 ^ 32 ->
      forall accepted1 accepted2 v_stream1 v_stream2 capacity1 capacity2 rt1 rt2,
        0 <= capacity1 < 2 ^ 32 -> 0 <= capacity2 < 2 ^ 32 ->
        let cfg1 := Pbs.choose_launch polynomial_size input_lwe_ciphertext_count
                                      capacity1 in
        let cfg2 := Pbs.choose_launch polynomial_size input_lwe_ciphertext_count
                                      capacity2 in
        let run1 :=
          Pbs.host_bootstrap_amortized accepted1 memory1 v_stream1 lwe_out
            lut_vector lut_vector_indexes lwe_in bootstrapping_key
            input_lwe_dimension polynomial_size base_log l_gadget
            input_lwe_ciphertext_count num_lut_vectors lwe_idx capacity1 rt1 in
        let run2 :=
          Pbs.host_bootstrap_amortized accepted2 memory2 v_stream2 lwe_out
            lut_vector lut_vector_indexes lwe_in bootstrapping_key
            input_lwe_dimension polynomial_size base_log l_gadget
            input_lwe_ciphertext_count num_lut_vectors lwe_idx capacity2 rt2 in
        Pbs.d_mem_bytes cfg1 = input_lwe_ciphertext_count * Pbs.per_sample cfg1
        /\ Pbs.d_mem_bytes cfg2 = input_lwe_ciphertext_count * Pbs.per_sample cfg2
        /\ (Spec.setup_accepted accepted1 cfg1 = true ->
            Spec.granted rt1 (Pbs.d_mem_bytes cfg1) = true ->
            accepted1 (Spec.kernel_launch cfg1 v_stream1) = true ->
            fst run1
            = Some (Pbs.run_grid (Pbs.tier cfg1) input_lwe_ciphertext_count
                      (degree / opt) memory1 lwe_out lut_vector lut_vector_indexes
                      lwe_in bootstrapping_key input_lwe_dimension polynomial_size
                      base_log l_gadget lwe_idx))
        /\ (forall out1 out2,
              fst run1 = Some out1 -> fst run2 = Some out2 ->
              accepted1 (Spec.kernel_launch cfg1 v_stream1) = true ->
              accepted2 (Spec.kernel_launch cfg2 v_stream2) = true ->
              out1 = out2)).
Proof.
  intros Hopt Heven Hdiv. split.
  - intros blockDim SMD1 SMD2 Hdim.
    apply run_grid_same_output; assumption.
  - intros HN Hdeg Hopt32 HT Hfit Hcount Hall accepted1 accepted2 v_stream1
      v_stream2 capacity1 capacity2 rt1 rt2 Hcap1 Hcap2 cfg1 cfg2 run1 run2.
    assert (Hthds : CInt.to_uint32 polynomial_size / CInt.to_uint32 opt = degree / opt)
      by (rewrite HN, !to_uint32_small by lia; reflexivity).
    split; [| split; [| split]].
    + subst cfg1. rewrite HN. apply scratch_for_every_block; assumption || lia.
    + subst cfg2. rewrite HN. apply scratch_for_every_block; assumption || lia.
    + intros Hacc Hgr Hlaunch.
      destruct (host_bootstrap_amortized_outcome accepted1 memory1 v_stream1 lwe_out
                  lut_vector lut_vector_indexes lwe_in bootstrapping_key
                  input_lwe_dimension polynomial_size base_log l_gadget
                  input_lwe_ciphertext_count num_lut_vectors lwe_idx capacity1 rt1)
        as [Hyes _].
      fold cfg1 in Hyes. rewrite Hacc, Hgr, Hlaunch, Hthds in Hyes.
      exact (proj1 (Hyes eq_refl)).
    + intros out1 out2 Hout1 Hout2 Hlaunch1 Hlaunch2.
      apply host_bootstrap_amortized_returned in Hout1, Hout2.
      destruct Hout1 as (_ & _ & -> & _), Hout2 as (_ & _ & -> & _).
      fold cfg1 cfg2. rewrite Hlaunch1, Hlaunch2, Hthds.
      apply run_grid_same_output; try assumption. lia.
Qed.

Lemma tiers_compute_identical_outputs_witness :
  (0 < @opt Examples.small_params
   /\ Z.even (@opt Examples.small_params) = true
   /\ @degree Examples.small_params mod @opt Examples.small_params = 0)
  /\ @Pbs.run_grid exact_double Examples.small_params Examples.small_device
       Cuda.FULLSM 2 2 (Examples.stale 7) Examples.lwe_out Examples.lut_vector
       Examples.lut_vector_indexes Examples.lwe_in Examples.bootstrapping_key
       3 8 4 2 0
     = @Pbs.run_grid exact_double Examples.small_params Examples.small_device
         Cuda.PARTIALSM 2 2 (Examples.stale 9) Examples.lwe_out Examples.lut_vector
         Examples.lut_vector_indexes Examples.lwe_in Examples.bootstrapping_key
         3 8 4 2 0
  /\ fst (@Pbs.host_bootstrap_amortized exact_double Examples.small_params
            Examples.small_device Examples.all_accepted (Examples.stale 7) 1
            Examples.lwe_out Examples.lut_vector Examples.lut_vector_indexes
            Examples.lwe_in Examples.bootstrapping_key 3 8 4 2 2 2 0 49152
            Examples.large_gpu)
     = Some (@Pbs.run_grid exact_double Examples.small_params Examples.small_device
               Cuda.FULLSM 2 2 (Examples.stale 7) Examples.lwe_out
               Examples.lut_vector Examples.lut_vector_indexes Examples.lwe_in
               Examples.bootstrapping_key 3 8 4 2 0).
Proof.
  assert (H1 : 0 < @opt Examples.small_params) by (cbn; lia).
  assert (H2 : Z.even (@opt Examples.small_params) = true) by reflexivity.
  assert (H3 : @degree Examples.small_params mod @opt Examples.small_params = 0)
    by reflexivity.
  split; [repeat split; assumption |].
  destruct (tiers_compute_identical_outputs exact_double Examples.small_params
              Examples.small_device (Examples.stale 7) (Examples.stale 9)
              Examples.lwe_out Examples.lut_vector Examples.lut_vector_indexes
              Examples.lwe_in Examples.bootstrapping_key 3 8 4 2 2 2 0 H1 H2 H3)
    as [Hgrid Hhost].
  split.
  - apply Hgrid. vm_compute. discriminate.
  - assert (H4 : 8 = @degree Examples.small_params) by reflexivity.
    assert (H5 : 0 <= @degree Examples.small_params < 2 ^ 32) by (cbn; lia).
    assert (H6 : @opt Examples.small_params < 2 ^ 32) by (cbn; lia).
    assert (H7 : 0 <= @sizeof_Torus Examples.small_params) by (cbn; lia).
    assert (H8 : (4 * @sizeof_Torus Examples.small_params + 28)
                 * @degree Examples.small_params < 2 ^ 31) by (cbn; lia).
    assert (H9 : 0 <= 2) by lia.
    assert (H10 : @Pbs.SM_FULL Examples.small_params (@degree Examples.small_params) * 2
                  < 2 ^ 32) by (vm_compute; reflexivity).
    assert (H11 : 0 <= 49152 < 2 ^ 32) by lia.
    destruct (Hhost H4 H5 H6 H7 H8 H9 H10 Examples.all_accepted Examples.all_accepted
                1 1 49152 49152 Examples.large_gpu Examples.large_gpu H11 H11)
      as (_ & _ & Hreturns & _).
    apply Hreturns; reflexivity.
Defined.

(** C9, as the code has it. An asynchronous copy issues no blocking
    runtime call, and the last call of a successful one is the enqueued
    copy. The bootstrap entry point, when it returns, has launched its
    kernel and then waited on the stream ([cudaStreamSynchronize]) before
    freeing the scratch; it returns whenever the runtime accepts the calls
    it checks and grants the scratch, and when [checkCudaErrors] ends the
    process instead, nothing has been enqueued or waited for.
    [cuda_synchronize_device] on a valid index waits on the device. *)
Theorem bootstrap_entry_point_waits_for_its_kernel (FO : FloatOps) (P : Params)
    (DF : DeviceFunctions) (accepted : Cuda.cuda_call -> bool)
    (memory : Z -> Pbs.scratch)
    (lwe_out lut_vector lut_vector_indexes lwe_in : list Z)
    (bootstrapping_key : list double2)
    (input_lwe_dimension polynomial_size base_log l_gadget
     input_lwe_ciphertext_count num_lut_vectors lwe_idx max_shared_memory : Z)
    (dest src size v_stream gpu_index : Z) (rt : Cuda.cuda_runtime) :
  0 <= Cuda.device_count rt < 2 ^ 31 ->
  let to_gpu := Device.cuda_memcpy_async_to_gpu dest src size v_stream gpu_index in
  let to_cpu := Device.cuda_memcpy_async_to_cpu dest src size v_stream gpu_index in
  let bootstrap :=
    Pbs.host_bootstrap_amortized accepted memory v_stream lwe_out lut_vector
      lut_vector_indexes lwe_in bootstrapping_key input_lwe_dimension
      polynomial_size base_log l_gadget input_lwe_ciphertext_count
      num_lut_vectors lwe_idx max_shared_memory in
  let cfg := Pbs.choose_launch polynomial_size input_lwe_ciphertext_count
                               max_shared_memory in
  existsb Cuda.blocks_host (Spec.issued to_gpu rt) = false
  /\ existsb Cuda.blocks_host (Spec.issued to_cpu rt) = false
  /\ (fst (to_gpu rt) = Device.ok ->
      last (Spec.issued to_gpu rt)
      = Some (Cuda.CudaMemcpyAsync dest src size Cuda.cudaMemcpyHostToDevice v_stream))
  /\ (fst (to_cpu rt) = Device.ok ->
      last (Spec.issued to_cpu rt)
      = Some (Cuda.CudaMemcpyAsync dest src size Cuda.cudaMemcpyDeviceToHost v_stream))
  /\ (Spec.setup_accepted accepted cfg = true ->
      Spec.granted rt (Pbs.d_mem_bytes cfg) = true ->
      exists out, fst (bootstrap rt) = Some out)
  /\ (forall out, fst (bootstrap rt) = Some out ->
      Spec.issued bootstrap rt
      = Spec.launch_setup cfg
        ++ [Cuda.CudaMalloc (Pbs.d_mem_bytes cfg);
            Cuda.CudaLaunchKernel (Pbs.tier cfg) (Pbs.grid_x cfg) (Pbs.thds_x cfg)
              (Pbs.dynamic_shared cfg) v_stream (Pbs.per_sample cfg);
            Cuda.CudaStreamSynchronize v_stream;
            Cuda.CudaFree]
      /\ existsb Cuda.blocks_host (Spec.issued bootstrap rt) = true)
  /\ (fst (bootstrap rt) = None ->
      existsb Cuda.enqueues_work (Spec.issued bootstrap rt) = false
      /\ existsb Cuda.blocks_host (Spec.issued bootstrap rt) = false)
  /\ (0 <= gpu_index < Cuda.device_count rt ->
      Spec.issued (Device.cuda_synchronize_device gpu_index) rt
      = [Cuda.CudaGetDeviceCount; Cuda.CudaSetDevice gpu_index;
         Cuda.CudaDeviceSynchronize]).
Proof.
  intros Hcount to_gpu to_cpu bootstrap cfg.
  assert (Hgpu : Spec.issued to_gpu rt
                 = Spec.async_copy_calls (fst (to_gpu rt)) dest gpu_index
                     (Cuda.CudaMemcpyAsync dest src size Cuda.cudaMemcpyHostToDevice
                                           v_stream))
    by (apply issued_of_calls, async_to_gpu_calls).
  assert (Hcpu : Spec.issued to_cpu rt
                 = Spec.async_copy_calls (fst (to_cpu rt)) src gpu_index
                     (Cuda.CudaMemcpyAsync dest src size Cuda.cudaMemcpyDeviceToHost
                                           v_stream))
    by (apply issued_of_calls, async_to_cpu_calls).
  destruct (host_bootstrap_amortized_outcome accepted memory v_stream lwe_out
              lut_vector lut_vector_indexes lwe_in bootstrapping_key
              input_lwe_dimension polynomial_size base_log l_gadget
              input_lwe_ciphertext_count num_lut_vectors lwe_idx max_shared_memory rt)
    as [Hyes Hno].
  fold cfg in Hyes, Hno. subst bootstrap.
  split; [| split; [| split; [| split; [| split; [| split; [| split]]]]]].
  - rewrite Hgpu. apply async_copy_calls_do_not_block. reflexivity.
  - rewrite Hcpu. apply async_copy_calls_do_not_block. reflexivity.
  - intros Hok. rewrite Hgpu, Hok. reflexivity.
  - intros Hok. rewrite Hcpu, Hok. reflexivity.
  - intros Hacc Hgr. rewrite Hacc, Hgr in Hyes.
    eexists. exact (proj1 (Hyes eq_refl)).
  - intros out Hout.
    apply host_bootstrap_amortized_returned in Hout.
    destruct Hout as (_ & _ & _ & Hcalls).
    apply issued_of_calls in Hcalls. fold cfg in Hcalls.
    rewrite Hcalls. unfold Spec.launcher_calls, Spec.kernel_launch.
    split; [reflexivity |].
    rewrite existsb_app. cbn. apply orb_true_r.
  - intros Hnone.
    destruct (Spec.setup_accepted accepted cfg
              && Spec.granted rt (Pbs.d_mem_bytes cfg)) eqn:Hboth.
    + destruct (Hyes eq_refl) as [Hfst _]. rewrite Hfst in Hnone. discriminate.
    + destruct (Hno eq_refl) as (_ & new & Hnew & Hq1 & Hq2).
      apply issued_of_calls in Hnew. rewrite Hnew.
      split; assumption.
  - intros Hidx. apply issued_of_calls.
    unfold Device.cuda_synchronize_device, Device.cuda_get_number_of_gpus,
      Cuda.cudaGetDeviceCount, Cuda.cudaSetDevice, Cuda.bind, Cuda.log, Cuda.ret.
    cbn. rewrite to_uint32_small by lia.
    destruct (Z.geb_spec gpu_index (Cuda.device_count rt)) as [Hge | Hlt]; [lia |].
    cbn. destruct ((0 <=? gpu_index) && (gpu_index <? Cuda.device_count rt)); cbn;
      rewrite <- !app_assoc; reflexivity.
Qed.

Lemma bootstrap_entry_point_waits_for_its_kernel_witness :
  0 <= Cuda.device_count Examples.two_gpus < 2 ^ 31
  /\ existsb Cuda.blocks_host
       (Spec.issued (Device.cuda_memcpy_async_to_gpu 300 7 16 1 0) Examples.two_gpus)
     = false
  /\ existsb Cuda.blocks_host
       (Spec.issued
          (@Pbs.host_bootstrap_amortized exact_double Examples.small_params
             Examples.small_device Examples.all_accepted (Examples.stale 7) 1
             Examples.lwe_out Examples.lut_vector Examples.lut_vector_indexes
             Examples.lwe_in Examples.bootstrapping_key 3 8 4 2 2 2 0 49152)
          Examples.two_gpus)
     = true.
Proof.
  assert (Hc : 0 <= Cuda.device_count Examples.two_gpus < 2 ^ 31) by (cbn; lia).
  split; [exact Hc |].
  destruct (bootstrap_entry_point_waits_for_its_kernel exact_double
              Examples.small_params Examples.small_device Examples.all_accepted
              (Examples.stale 7)
              Examples.lwe_out Examples.lut_vector Examples.lut_vector_indexes
              Examples.lwe_in Examples.bootstrapping_key 3 8 4 2 2 2 0 49152
              300 7 16 1 0 Examples.two_gpus Hc)
    as (Hgpu & _ & _ & _ & Hreturns & Hboot & _).
  split; [exact Hgpu |].
  destruct Hreturns as [out Hout]; [reflexivity | reflexivity |].
  exact (proj2 (Hboot out Hout)).
Defined.

(** The claim of C9 fails for the bootstrap entry point: on two
    ciphertexts it returns, having enqueued a kernel and then issued a
    blocking call. *)
Lemma bootstrap_entry_point_blocks :
  let bootstrap :=
    @Pbs.host_bootstrap_amortized exact_double Examples.small_params
      Examples.small_device Examples.all_accepted (Examples.stale 7) 1
      Examples.lwe_out Examples.lut_vector Examples.lut_vector_indexes
      Examples.lwe_in Examples.bootstrapping_key 3 8 4 2 2 2 0 49152 in
  let issued := Spec.issued bootstrap Examples.two_gpus in
  fst (bootstrap Examples.two_gpus) <> None
  /\ issued = [Cuda.CudaFuncSetAttribute Cuda.FULLSM 480;
               Cuda.CudaFuncSetCacheConfig Cuda.FULLSM;
               Cuda.CudaMalloc 0;
               Cuda.CudaLaunchKernel Cuda.FULLSM 2 2 480 1 0;
               Cuda.CudaStreamSynchronize 1;
               Cuda.CudaFree]
  /\ existsb Cuda.enqueues_work issued = true
  /\ existsb Cuda.blocks_host issued = true.
Proof.
  split; [vm_compute; discriminate |].
  repeat split; vm_compute; reflexivity.
Qed.

(** C2. The tier and the per-sample scratch depend on the capacity, the
    degree and the torus width only (not on the batch size); the footprints
    are the stated sums; full residency is chosen when the capacity is at
    least the full footprint, partial residency when it lies between the
    two footprints, no residency below the smaller one; the per-sample
    scratch is the full footprint, the difference of the two, and 0. The
    launcher returns when the runtime accepts the calls it checks and
    grants the scratch; whenever it returns, this is the configuration it
    has handed to the kernel launch, and when it does not it has launched
    nothing. *)
Theorem tier_selection (FO : FloatOps) (P : Params) (DF : DeviceFunctions)
    (accepted : Cuda.cuda_call -> bool)
    (memory : Z -> Pbs.scratch) (v_stream : Z)
    (lwe_out lut_vector lut_vector_indexes lwe_in : list Z)
    (bootstrapping_key : list double2)
    (input_lwe_dimension N base_log l_gadget count num_lut_vectors lwe_idx
     capacity : Z) (rt : Cuda.cuda_runtime) :
  0 <= N -> 0 <= sizeof_Torus -> (4 * sizeof_Torus + 28) * N < 2 ^ 31 ->
  0 <= capacity < 2 ^ 32 ->
  let cfg := Pbs.choose_launch N count capacity in
  let launcher :=
    Pbs.host_bootstrap_amortized accepted memory v_stream lwe_out lut_vector
      lut_vector_indexes lwe_in bootstrapping_key input_lwe_dimension N
      base_log l_gadget count num_lut_vectors lwe_idx capacity in
  Pbs.SM_FULL N = Spec.full_footprint N
  /\ Pbs.SM_PART N = Spec.fft_footprint N
  /\ (forall count', Pbs.tier (Pbs.choose_launch N count' capacity) = Pbs.tier cfg
                     /\ Pbs.per_sample (Pbs.choose_launch N count' capacity)
                        = Pbs.per_sample cfg)
  /\ (Spec.full_footprint N <= capacity ->
      Pbs.tier cfg = Cuda.FULLSM /\ Pbs.per_sample cfg = 0)
  /\ (Spec.fft_footprint N <= capacity < Spec.full_footprint N ->
      Pbs.tier cfg = Cuda.PARTIALSM
      /\ Pbs.per_sample cfg = Spec.full_footprint N - Spec.fft_footprint N)
  /\ (capacity < Spec.fft_footprint N ->
      Pbs.tier cfg = Cuda.NOSM /\ Pbs.per_sample cfg = Spec.full_footprint N)
  /\ (Spec.setup_accepted accepted cfg = true ->
      Spec.granted rt (Pbs.d_mem_bytes cfg) = true ->
      exists out, fst (launcher rt) = Some out)
  /\ (forall out, fst (launcher rt) = Some out ->
      In (Cuda.CudaLaunchKernel (Pbs.tier cfg) count
            (CInt.to_uint32 N / CInt.to_uint32 opt) (Pbs.dynamic_shared cfg)
            v_stream (Pbs.per_sample cfg))
         (Spec.issued launcher rt))
  /\ (fst (launcher rt) = None ->
      existsb Cuda.enqueues_work (Spec.issued launcher rt) = false).
Proof.
  intros HN HT Hfit Hcap cfg launcher.
  destruct (choose_launch_cases N count capacity HN HT Hfit Hcap)
    as (Hfull & Hpart & Hpure & Hf & Hp & Hn).
  repeat (split; [assumption |]).
  destruct (host_bootstrap_amortized_outcome accepted memory v_stream lwe_out
              lut_vector lut_vector_indexes lwe_in bootstrapping_key
              input_lwe_dimension N base_log l_gadget count num_lut_vectors
              lwe_idx capacity rt) as [Hyes Hno].
  fold cfg in Hyes, Hno. subst launcher.
  split; [| split].
  - intros Hacc Hgr. rewrite Hacc, Hgr in Hyes.
    eexists. exact (proj1 (Hyes eq_refl)).
  - intros out Hout.
    apply host_bootstrap_amortized_returned in Hout.
    destruct Hout as (_ & _ & _ & Hcalls).
    apply issued_of_calls in Hcalls. fold cfg in Hcalls.
    rewrite Hcalls.
    destruct (choose_launch_dims N count capacity) as [Hgrid Hthds].
    fold cfg in Hgrid, Hthds. rewrite <- Hgrid at 1. rewrite <- Hthds.
    unfold Spec.launcher_calls, Spec.kernel_launch.
    apply in_or_app. right. right. left. reflexivity.
  - intros Hnone.
    destruct (Spec.setup_accepted accepted cfg
              && Spec.granted rt (Pbs.d_mem_bytes cfg)) eqn:Hboth.
    + destruct (Hyes eq_refl) as [Hfst _]. rewrite Hfst in Hnone. discriminate.
    + destruct (Hno eq_refl) as (_ & new & Hnew & Hq1 & _).
      apply issued_of_calls in Hnew. rewrite Hnew. exact Hq1.
Qed.

Lemma tier_selection_witness :
  (0 <= 1024 /\ 0 <= @sizeof_Torus Examples.small_params
   /\ (4 * @sizeof_Torus Examples.small_params + 28) * 1024 < 2 ^ 31
   /\ 0 <= 49152 < 2 ^ 32)
  /\ Pbs.tier (@Pbs.choose_launch Examples.small_params 1024 5 49152) = Cuda.PARTIALSM
  /\ Pbs.per_sample (@Pbs.choose_launch Examples.small_params 1024 5 49152)
     = @Spec.full_footprint Examples.small_params 1024 - Spec.fft_footprint 1024
  /\ In (Cuda.CudaLaunchKernel Cuda.PARTIALSM 5 256 8192 1 53248)
        (Spec.issued
           (@Pbs.host_bootstrap_amortized exact_double Examples.small_params
              Examples.small_device Examples.all_accepted (Examples.stale 7) 1
              Examples.lwe_out Examples.lut_vector Examples.lut_vector_indexes
              Examples.lwe_in Examples.bootstrapping_key 3 1024 4 2 5 2 0 49152)
           Examples.large_gpu).
Proof.
  assert (H1 : 0 <= 1024) by lia.
  assert (H2 : 0 <= @sizeof_Torus Examples.small_params) by (cbn; lia).
  assert (H3 : (4 * @sizeof_Torus Examples.small_params + 28) * 1024 < 2 ^ 31)
    by (vm_compute; reflexivity).
  assert (H4 : 0 <= 49152 < 2 ^ 32) by lia.
  split; [repeat split; try assumption; lia |].
  destruct (tier_selection exact_double Examples.small_params Examples.small_device
              Examples.all_accepted
              (Examples.stale 7) 1 Examples.lwe_out Examples.lut_vector
              Examples.lut_vector_indexes Examples.lwe_in Examples.bootstrapping_key
              3 1024 4 2 5 2 0 49152 Examples.large_gpu H1 H2 H3 H4)
    as (_ & _ & _ & _ & Hpartial & _ & Hreturns & Hlaunch & _).
  destruct Hpartial as [Htier Hper]; [vm_compute; split; [discriminate | reflexivity] |].
  split; [exact Htier |]. split; [exact Hper |].
  destruct Hreturns as [out Hout]; [reflexivity | reflexivity |].
  exact (Hlaunch out Hout).
Defined.

(** C10. For an even positive degree and a key whose size fits the 32-bit
    index arithmetic: the converted key holds [n * l * (g+1)^2 * N/2] complex
    values; for the GLWE dimension 1 of the kernel, every mask or body block
    the kernel asks for starts where the converter put one of the
    [total_polynomials] polynomials, lies within the buffer, and two
    different requests get slices with no cell in common. *)
Theorem bsk_blocks_partition_converted_key (n l N : Z) :
  0 < N -> Z.even N = true -> 0 <= n -> 0 <= l -> 4 * n * l * N < 2 ^ 32 ->
  Bsk.buffer_len n 1 l N = n * l * (1 + 1) ^ 2 * (N / 2)
  /\ (forall g, 0 <= g -> n * (g + 1) ^ 2 * l * N < 2 ^ 31 ->
        Bsk.buffer_len n g l N = n * l * (g + 1) ^ 2 * (N / 2))
  /\ (forall body i k level,
        0 <= i < n -> 0 <= k <= 1 -> 0 <= level < l ->
        let p := Spec.polynomial_index body i k level l in
        0 <= p < Bsk.total_polynomials n 1 l
        /\ Spec.block_start body i k level N l = Bsk.complex_current_poly_idx p N
        /\ 0 <= Spec.block_start body i k level N l
        /\ Spec.block_start body i k level N l + N / 2 <= Bsk.buffer_len n 1 l N)
  /\ (forall body i k level body' i' k' level',
        0 <= i < n -> 0 <= k <= 1 -> 0 <= level < l ->
        0 <= i' < n -> 0 <= k' <= 1 -> 0 <= level' < l ->
        (body, i, k, level) <> (body', i', k', level') ->
        Spec.disjoint_slices (Spec.block_start body i k level N l)
                             (Spec.block_start body' i' k' level' N l) (N / 2)).
Proof.
  intros HN Heven Hn Hl Hfit.
  apply Z.even_spec in Heven. destruct Heven as [h HNh].
  assert (Hh : 0 < h) by lia.
  assert (Hlen : Bsk.buffer_len n 1 l N = n * l * (1 + 1) ^ 2 * (N / 2))
    by (eapply buffer_len_exact; eassumption).
  assert (Htot : Bsk.total_polynomials n 1 l = 4 * n * l)
    by (eapply total_polynomials_exact; eassumption).
  assert (Hhalf : N / 2 = h) by (eapply half_N; eassumption).
  assert (Hstart : forall body i k level,
             0 <= i < n -> 0 <= k <= 1 -> 0 <= level < l ->
             Spec.block_start body i k level N l
             = Spec.polynomial_index body i k level l * h)
    by (intros; eapply (block_start_exact n l); eassumption).
  assert (Hrange : forall body i k level,
             0 <= i < n -> 0 <= k <= 1 -> 0 <= level < l ->
             0 <= Spec.polynomial_index body i k level l < 4 * n * l)
    by (intros; eapply (polynomial_index_range n l); eassumption).
  split; [exact Hlen |]. split; [| split].
  - intros g Hg Hfitg. rewrite Hhalf, Z.pow_2_r.
    assert (Hkey : Spec.key_polynomials n g l * N < 2 ^ 31).
    { unfold Spec.key_polynomials. rewrite Z.pow_2_r in Hfitg. exact Hfitg. }
    rewrite (buffer_len_product n g l N h Hh HNh Hn Hg Hl Hkey).
    unfold Spec.key_polynomials. ring.
  - intros body i k level Hi Hk Hlv p.
    pose proof (Hrange body i k level Hi Hk Hlv) as Hp. fold p in Hp.
    assert (Hidx : Bsk.complex_current_poly_idx p N = p * h)
      by (eapply (complex_current_poly_idx_exact n l); eassumption).
    rewrite Htot, Hlen, Hhalf, Hstart, Hidx by assumption. fold p.
    change ((1 + 1) ^ 2) with 4. repeat split; nia.
  - intros body i k level body' i' k' level' Hi Hk Hlv Hi' Hk' Hlv' Hne.
    unfold Spec.disjoint_slices.
    rewrite !Hstart, Hhalf by assumption.
    assert (Hp : Spec.polynomial_index body i k level l
                 <> Spec.polynomial_index body' i' k' level' l).
    { intros Heq. apply Hne.
      eapply (polynomial_index_inj n l); [| | | | | | | exact Heq]; eassumption. }
    nia.
Qed.

Lemma bsk_blocks_partition_converted_key_witness :
  (0 < 8 /\ Z.even 8 = true /\ 0 <= 3 /\ 0 <= 2 /\ 4 * 3 * 2 * 8 < 2 ^ 32)
  /\ Bsk.buffer_len 3 1 2 8 = 3 * 2 * (1 + 1) ^ 2 * (8 / 2)
  /\ Spec.block_start true 2 1 1 8 2 = Bsk.complex_current_poly_idx 23 8
  /\ Spec.block_start true 2 1 1 8 2 + 8 / 2 <= Bsk.buffer_len 3 1 2 8.
Proof.
  assert (H1 : 0 < 8) by lia.
  assert (H2 : Z.even 8 = true) by reflexivity.
  assert (H3 : 0 <= 3) by lia.
  assert (H4 : 0 <= 2) by lia.
  assert (H5 : 4 * 3 * 2 * 8 < 2 ^ 32) by (vm_compute; reflexivity).
  split; [repeat split; assumption |].
  destruct (bsk_blocks_partition_converted_key 3 2 8 H1 H2 H3 H4 H5)
    as (Hlen & _ & Hblocks & _).
  split; [exact Hlen |].
  destruct (Hblocks true 2 1 1 ltac:(lia) ltac:(lia) ltac:(lia))
    as (_ & Hstart & _ & Hend).
  split; [exact Hstart | exact Hend].
Defined.

(** ** The scratch buffers fit the memory each tier provides *)

Section Layout.
Import Cuda Pbs Spec.
Context {P : Params}.

(** For a 32- or 64-bit torus and a degree that is a multiple of 4, with
    footprints that fit an [int]: whichever tier the launcher picks, the
    nine buffers of the kernel lie within the dynamic shared memory and the
    per-sample scratch of that launch, and no two of them overlap. *)
Lemma scratch_layout_fits (N m count capacity : Z) :
  sizeof_Torus = 4 \/ sizeof_Torus = 8 ->
  0 <= m -> N = 4 * m -> (4 * sizeof_Torus + 28) * N < 2 ^ 31 ->
  0 <= capacity < 2 ^ 32 ->
  let cfg := choose_launch N count capacity in
  Forall (within (provided cfg)) (layout (tier cfg) N)
  /\ ForallOrdPairs apart (layout (tier cfg) N).
Proof.
  intros Hwidth Hm HN Hfit Hcap cfg.
  assert (H0 : 0 <= N) by lia.
  assert (HT : 0 <= sizeof_Torus) by (destruct Hwidth; lia).
  destruct (choose_launch_cases N count capacity H0 HT Hfit Hcap)
    as (Hfull & Hpart & _ & Hf & Hp & Hn).
  fold cfg in Hf, Hp, Hn.
  assert (Hhalf : N / 2 = 2 * m).
  { rewrite HN. replace (4 * m) with (2 * m * 2) by ring. apply Z.div_mul. lia. }
  assert (Hquarter : N / 4 = m).
  { rewrite HN, Z.mul_comm. apply Z.div_mul. lia. }
  assert (Hdyn : dynamic_shared cfg
                 = match tier cfg with
                   | NOSM => 0 | PARTIALSM => fft_footprint N
                   | FULLSM => full_footprint N end).
  { subst cfg. unfold choose_launch. rewrite Hfull, Hpart.
    destruct (capacity <? CInt.to_uint32 (fft_footprint N));
      [| destruct (capacity <? CInt.to_uint32 (full_footprint N))]; reflexivity. }
  assert (Hfoot : fft_footprint N = 8 * N
                  /\ full_footprint N = 4 * sizeof_Torus * N + 4 * N + 24 * N).
  { unfold fft_footprint, full_footprint. rewrite sixteen_halves, fortyeight_halves. lia. }
  destruct Hfoot as [Hfft Hfullv].
  assert (Hcases : full_footprint N <= capacity
                   \/ fft_footprint N <= capacity < full_footprint N
                   \/ capacity < fft_footprint N) by lia.
  unfold layout, within, apart, provided, selected_memory,
    accumulator_fft_at, body_res_fft_at, mask_res_fft_at,
    accumulator_body_rotated_at, accumulator_mask_rotated_at,
    accumulator_body_at, accumulator_mask_at, accumulator_body_decomposed_at,
    accumulator_mask_decomposed_at.
  rewrite Hdyn.
  destruct Hcases as [Hc | [Hc | Hc]];
    [destruct (Hf Hc) as [Htier Hper] | destruct (Hp Hc) as [Htier Hper]
     | destruct (Hn Hc) as [Htier Hper]].
  all: rewrite Htier, Hper, Hhalf.
  all: destruct Hwidth as [Hw | Hw]; rewrite Hw in *.
  all: change (4 / 2) with 2; change (16 / 4) with 4;
       change (8 / 2) with 4; change (16 / 8) with 2.
  all: rewrite ?Hhalf, ?Hquarter; cbn [space start bytes].
  all: split.
  all: try solve [repeat (constructor; [cbn; lia |]); constructor].
  all: repeat (apply FOP_cons;
               [repeat (constructor;
                        [cbn; first [left; discriminate | right; lia] |]);
                constructor |]);
       apply FOP_nil.
Qed.

End Layout.


(** * Further properties of the device layer *)

Section DeviceErrors.
Import Cuda Device Spec.

Lemma index_turned_down (gpu_index : Z) (rt : cuda_runtime) :
  0 <= device_count rt < 2 ^ 31 -> device_count rt <= gpu_index ->
  (gpu_index >=? CInt.to_uint32 (device_count rt)) = true.
Proof.
  intros Hcount Hidx. rewrite to_uint32_small by lia.
  apply Z.geb_le. lia.
Qed.

(** X1. An index at or beyond the device count is turned down by every
    entry point that tests it: the allocation check, the device
    synchronisation, the release of an array, the query of the shared-memory
    capacity and, for a copy of at least one byte, both asynchronous copies.
    Each returns -2 after its single call to [cudaGetDeviceCount]: no device
    is selected, nothing is freed, copied or waited for, and devices, memory
    and allocations are as before. *)
Theorem invalid_device_index_is_turned_down (properties : Z -> cudaDeviceProp)
    (dest src size ptr v_stream gpu_index : Z) (rt : cuda_runtime) :
  0 <= device_count rt < 2 ^ 31 -> device_count rt <= gpu_index ->
  turned_down (cuda_check_valid_malloc size gpu_index) rt
  /\ turned_down (cuda_synchronize_device gpu_index) rt
  /\ cuda_drop ptr gpu_index rt = (Some InvalidDevice, snd (cudaGetDeviceCount rt))
  /\ turned_down (cuda_get_max_shared_memory properties gpu_index) rt
  /\ (size <> 0 ->
      turned_down (cuda_memcpy_async_to_gpu dest src size v_stream gpu_index) rt
      /\ turned_down (cuda_memcpy_async_to_cpu dest src size v_stream gpu_index) rt)
  /\ same_devices rt (snd (cudaGetDeviceCount rt))
  /\ issued cudaGetDeviceCount rt = [CudaGetDeviceCount].
Proof.
  intros Hcount Hidx.
  pose proof (index_turned_down gpu_index rt Hcount Hidx) as Hge.
  unfold turned_down, cuda_check_valid_malloc, cuda_synchronize_device, cuda_drop,
    cuda_get_max_shared_memory, cuda_memcpy_async_to_gpu, cuda_memcpy_async_to_cpu,
    cuda_get_number_of_gpus, cudaGetDeviceCount, bind, log, ret.
  cbn. rewrite Hge.
  split; [reflexivity |]. split; [reflexivity |]. split; [reflexivity |].
  split; [reflexivity |]. split; [| split].
  - intros Hsize. apply Z.eqb_neq in Hsize. rewrite Hsize. cbn. rewrite Hge.
    split; reflexivity.
  - unfold same_devices. cbn. repeat split; reflexivity.
  - unfold issued. cbn. apply drop_app_length.
Qed.

Lemma invalid_device_index_is_turned_down_witness :
  (0 <= device_count Examples.two_gpus < 2 ^ 31
   /\ device_count Examples.two_gpus <= 5)
  /\ cuda_drop 300 5 Examples.two_gpus
     = (Some InvalidDevice, snd (cudaGetDeviceCount Examples.two_gpus))
  /\ turned_down (cuda_get_max_shared_memory Examples.two_gpus_properties 5)
       Examples.two_gpus.
Proof.
  assert (Hc : 0 <= device_count Examples.two_gpus < 2 ^ 31) by (cbn; lia).
  assert (Hi : device_count Examples.two_gpus <= 5) by (cbn; lia).
  split; [split; assumption |].
  destruct (invalid_device_index_is_turned_down Examples.two_gpus_properties
              100 7 16 300 1 5 Examples.two_gpus Hc Hi)
    as (_ & _ & Hdrop & Hmax & _).
  split; assumption.
Defined.

Lemma check_passed (size gpu_index : Z) (rt : cuda_runtime) :
  0 <= device_count rt < 2 ^ 31 -> 0 <= gpu_index < 2 ^ 32 ->
  fst (cuda_check_valid_malloc size gpu_index rt) = ok ->
  let checked := snd (cuda_check_valid_malloc size gpu_index rt) in
  gpu_index < device_count rt
  /\ size <= free_mem rt gpu_index
  /\ device_count checked = device_count rt
  /\ current_device checked = gpu_index
  /\ free_mem checked = free_mem rt
  /\ allocations checked = allocations rt.
Proof.
  intros Hcount Hidx. cbv zeta.
  unfold cuda_check_valid_malloc, cuda_get_number_of_gpus, cudaGetDeviceCount,
    cudaSetDevice, cudaMemGetInfo, bind, log, ret, ok. cbn.
  rewrite to_uint32_small by lia.
  destruct (Z.geb_spec gpu_index (device_count rt)) as [Hge | Hlt]; cbn;
    [discriminate |].
  assert (Hin : (0 <=? gpu_index) && (gpu_index <? device_count rt) = true).
  { apply andb_true_intro; split; [apply Z.leb_le | apply Z.ltb_lt]; lia. }
  rewrite Hin. cbn.
  destruct (Z.gtb_spec size (free_mem rt gpu_index)) as [Hgt | Hle]; cbn;
    [discriminate |].
  intros _. repeat split; try reflexivity; lia.
Qed.

Lemma cuda_malloc_granted (size gpu_index : Z) (rt : cuda_runtime) :
  0 <= gpu_index < device_count rt -> size <= free_mem rt gpu_index ->
  let result := cuda_malloc size gpu_index rt in
  fst result = Some (Z.of_nat (length (allocations rt)))
  /\ allocations (snd result) = allocations rt ++ [(gpu_index, size)]
  /\ current_device (snd result) = gpu_index
  /\ free_mem (snd result) gpu_index = free_mem rt gpu_index - size
  /\ (forall d, d <> gpu_index -> free_mem (snd result) d = free_mem rt d).
Proof.
  intros Hidx Hfree. cbv zeta.
  unfold cuda_malloc, cudaMalloc_checked, cudaSetDevice, cudaMalloc, bind, log, ret.
  cbn.
  assert (Hin : (0 <=? gpu_index) && (gpu_index <? device_count rt) = true).
  { apply andb_true_intro; split; [apply Z.leb_le | apply Z.ltb_lt]; lia. }
  rewrite Hin. cbn.
  destruct (Z.leb_spec size (free_mem rt gpu_index)) as [_ | Hbad]; [| lia].
  cbn. rewrite Z.eqb_refl.
  repeat split; try reflexivity.
  intros d Hd. apply Z.eqb_neq in Hd. rewrite Hd. reflexivity.
Qed.

(** X2. The pattern device.cu asks of a safe wrapper: when
    [cuda_check_valid_malloc] has answered 0 for a size and an index,
    [cuda_malloc] called next with the same arguments is granted. It
    returns a pointer to a new allocation of that size on that device,
    which is then the current device; its free memory has gone down by
    exactly [size] and is still non-negative, and the other devices are
    untouched. *)
Theorem checked_allocation_is_granted (size gpu_index : Z) (rt : cuda_runtime) :
  0 <= device_count rt < 2 ^ 31 -> 0 <= gpu_index < 2 ^ 32 ->
  fst (cuda_check_valid_malloc size gpu_index rt) = ok ->
  let checked := snd (cuda_check_valid_malloc size gpu_index rt) in
  let result := cuda_malloc size gpu_index checked in
  fst result = Some (Z.of_nat (length (allocations rt)))
  /\ allocations (snd result) = allocations rt ++ [(gpu_index, size)]
  /\ current_device (snd result) = gpu_index
  /\ free_mem (snd result) gpu_index = free_mem rt gpu_index - size
  /\ 0 <= free_mem (snd result) gpu_index
  /\ (forall d, d <> gpu_index -> free_mem (snd result) d = free_mem rt d).
Proof.
  intros Hcount Hidx Hok checked.
  destruct (check_passed size gpu_index rt Hcount Hidx Hok)
    as (Hlt & Hfree & Hdev & _ & Hmem & Halloc).
  fold checked in Hdev, Hmem, Halloc.
  assert (Hidx' : 0 <= gpu_index < device_count checked) by (rewrite Hdev; lia).
  assert (Hfree' : size <= free_mem checked gpu_index) by (rewrite Hmem; exact Hfree).
  destruct (cuda_malloc_granted size gpu_index checked Hidx' Hfree')
    as (Hptr & Hnew & Hcur & Hless & Hrest).
  intros result. fold result in Hptr, Hnew, Hcur, Hless, Hrest.
  rewrite Hmem in Hless, Hrest. rewrite Halloc in Hptr, Hnew.
  repeat split; try assumption. rewrite Hless. lia.
Qed.

Lemma checked_allocation_is_granted_witness :
  (0 <= device_count Examples.two_gpus < 2 ^ 31 /\ 0 <= 1 < 2 ^ 32
   /\ fst (cuda_check_valid_malloc 512 1 Examples.two_gpus) = ok)
  /\ fst (cuda_malloc 512 1 (snd (cuda_check_valid_malloc 512 1 Examples.two_gpus)))
     = Some 0
  /\ free_mem (snd (cuda_malloc 512 1
                      (snd (cuda_check_valid_malloc 512 1 Examples.two_gpus)))) 1
     = 488.
Proof.
  assert (Hc : 0 <= device_count Examples.two_gpus < 2 ^ 31) by (cbn; lia).
  assert (Hi : 0 <= 1 < 2 ^ 32) by lia.
  assert (Hok : fst (cuda_check_valid_malloc 512 1 Examples.two_gpus) = ok)
    by reflexivity.
  split; [repeat split; try assumption; lia |].
  destruct (checked_allocation_is_granted 512 1 Examples.two_gpus Hc Hi Hok)
    as (Hptr & _ & _ & Hfree & _).
  split; [exact Hptr | exact Hfree].
Defined.

(** X3. [cuda_malloc] itself tests nothing. With an index the runtime does
    not have, the device is not switched and a request the current device
    can serve is taken from the current device. With a valid index and a
    size above the free memory of that device, the runtime refuses,
    [checkCudaErrors] ends the process, and nothing has been allocated. *)
Theorem unchecked_allocation_is_unsafe (size gpu_index : Z) (rt : cuda_runtime) :
  let result := cuda_malloc size gpu_index rt in
  (device_count rt <= gpu_index -> size <= free_mem rt (current_device rt) ->
     fst result = Some (Z.of_nat (length (allocations rt)))
     /\ allocations (snd result) = allocations rt ++ [(current_device rt, size)]
     /\ current_device (snd result) = current_device rt)
  /\ (0 <= gpu_index < device_count rt -> free_mem rt gpu_index < size ->
        fst result = None
        /\ allocations (snd result) = allocations rt
        /\ free_mem (snd result) = free_mem rt).
Proof.
  cbv zeta.
  unfold cuda_malloc, cudaMalloc_checked, cudaSetDevice, cudaMalloc, bind, log, ret.
  cbn. split.
  - intros Hidx Hfree.
    assert (Hout : (0 <=? gpu_index) && (gpu_index <? device_count rt) = false).
    { apply andb_false_intro2. apply Z.ltb_ge. lia. }
    rewrite Hout. cbn.
    destruct (Z.leb_spec size (free_mem rt (current_device rt))) as [_ | Hbad]; [| lia].
    cbn. repeat split; reflexivity.
  - intros Hidx Hfree.
    assert (Hin : (0 <=? gpu_index) && (gpu_index <? device_count rt) = true).
    { apply andb_true_intro; split; [apply Z.leb_le | apply Z.ltb_lt]; lia. }
    rewrite Hin. cbn.
    destruct (Z.leb_spec size (free_mem rt gpu_index)) as [Hbad | _]; [lia |].
    cbn. repeat split; reflexivity.
Qed.

Lemma unchecked_allocation_is_unsafe_witness :
  (device_count Examples.two_gpus <= 7
   /\ 100 <= free_mem Examples.two_gpus (current_device Examples.two_gpus)
   /\ 0 <= 1 < device_count Examples.two_gpus
   /\ free_mem Examples.two_gpus 1 < 2000)
  /\ allocations (snd (cuda_malloc 100 7 Examples.two_gpus)) = [(0, 100)]
  /\ fst (cuda_malloc 2000 1 Examples.two_gpus) = None.
Proof.
  assert (H1 : device_count Examples.two_gpus <= 7) by (cbn; lia).
  assert (H2 : 100 <= free_mem Examples.two_gpus (current_device Examples.two_gpus))
    by (cbn; lia).
  assert (H3 : 0 <= 1 < device_count Examples.two_gpus) by (cbn; lia).
  assert (H4 : free_mem Examples.two_gpus 1 < 2000) by (cbn; lia).
  split; [repeat split; try assumption; lia |].
  split.
  - exact (proj1 (proj2 (proj1 (unchecked_allocation_is_unsafe 100 7 Examples.two_gpus)
                           H1 H2))).
  - exact (proj1 (proj2 (unchecked_allocation_is_unsafe 2000 1 Examples.two_gpus)
                    H3 H4)).
Defined.

(** The tests of an asynchronous copy, whichever pointer [ptr] and copy
    [copy] it is about. *)
Lemma copy_outcome (ptr : Z) (copy : cuda_call) (size gpu_index : Z) (rt : cuda_runtime)
    (f : Host Z) :
  f = (if size =? 0 then ret (-3)
       else bind cuda_get_number_of_gpus (fun num_gpus =>
         if gpu_index >=? CInt.to_uint32 num_gpus then ret (-2)
         else bind (cudaPointerGetAttributes ptr) (fun attr =>
           if pointer_rejected attr gpu_index then ret (-1)
           else bind (cudaSetDevice gpu_index) (fun _ =>
                  bind (log copy) (fun _ => ret 0))))) ->
  enqueues_work copy = true ->
  0 <= device_count rt < 2 ^ 31 -> 0 <= gpu_index ->
  (size = 0 -> f rt = (ZeroSizeCopy, rt))
  /\ (fst (f rt) <> ok ->
      same_devices rt (snd (f rt))
      /\ existsb enqueues_work (issued f rt) = false)
  /\ (fst (f rt) = ok ->
      current_device (snd (f rt)) = gpu_index
      /\ List.filter enqueues_work (issued f rt) = [copy]).
Proof.
  intros -> Hcopy Hcount Hidx.
  unfold cuda_get_number_of_gpus, cudaGetDeviceCount, cudaPointerGetAttributes,
    cudaSetDevice, bind, log, ret, issued, same_devices, ok, ZeroSizeCopy.
  split; [intros ->; reflexivity |].
  destruct (size =? 0); cbn.
  { rewrite drop_all. split; [intros _; repeat split; reflexivity | intros H; discriminate]. }
  rewrite to_uint32_small by lia.
  destruct (Z.geb_spec gpu_index (device_count rt)) as [Hge | Hlt]; cbn.
  { rewrite drop_app_length.
    split; [intros _; repeat split; reflexivity | intros H; discriminate]. }
  destruct (pointer_rejected (pointer_attributes rt ptr) gpu_index); cbn.
  { rewrite <- app_assoc, drop_app_length.
    split; [intros _; repeat split; reflexivity | intros H; discriminate]. }
  assert (Hin : (0 <=? gpu_index) && (gpu_index <? device_count rt) = true).
  { apply andb_true_intro; split; [apply Z.leb_le | apply Z.ltb_lt]; lia. }
  rewrite Hin. cbn. rewrite <- !app_assoc, drop_app_length. cbn. rewrite Hcopy.
  split; [intros H; contradiction H; reflexivity | intros _; repeat split; reflexivity].
Qed.

(** X4. A copy that is turned down leaves no trace. With size 0 either
    copy returns -3 without a single runtime call; with any other non-zero
    status it has selected no device and enqueued nothing, and devices,
    memory and allocations are as before. A copy that returns 0 has made
    [gpu_index] the current device and enqueued exactly one operation, the
    copy of [size] bytes in its direction on the given stream. *)
Theorem rejected_copy_leaves_no_trace (dest src size v_stream gpu_index : Z)
    (rt : cuda_runtime) :
  0 <= device_count rt < 2 ^ 31 -> 0 <= gpu_index ->
  let to_gpu := cuda_memcpy_async_to_gpu dest src size v_stream gpu_index in
  let to_cpu := cuda_memcpy_async_to_cpu dest src size v_stream gpu_index in
  (size = 0 -> to_gpu rt = (ZeroSizeCopy, rt) /\ to_cpu rt = (ZeroSizeCopy, rt))
  /\ (fst (to_gpu rt) <> ok ->
      same_devices rt (snd (to_gpu rt))
      /\ existsb enqueues_work (issued to_gpu rt) = false)
  /\ (fst (to_cpu rt) <> ok ->
      same_devices rt (snd (to_cpu rt))
      /\ existsb enqueues_work (issued to_cpu rt) = false)
  /\ (fst (to_gpu rt) = ok ->
      current_device (snd (to_gpu rt)) = gpu_index
      /\ List.filter enqueues_work (issued to_gpu rt)
         = [CudaMemcpyAsync dest src size cudaMemcpyHostToDevice v_stream])
  /\ (fst (to_cpu rt) = ok ->
      current_device (snd (to_cpu rt)) = gpu_index
      /\ List.filter enqueues_work (issued to_cpu rt)
         = [CudaMemcpyAsync dest src size cudaMemcpyDeviceToHost v_stream]).
Proof.
  intros Hcount Hidx to_gpu to_cpu.
  destruct (copy_outcome dest
              (CudaMemcpyAsync dest src size cudaMemcpyHostToDevice v_stream)
              size gpu_index rt to_gpu eq_refl eq_refl Hcount Hidx)
    as (Hzero_gpu & Hbad_gpu & Hok_gpu).
  destruct (copy_outcome src
              (CudaMemcpyAsync dest src size cudaMemcpyDeviceToHost v_stream)
              size gpu_index rt to_cpu eq_refl eq_refl Hcount Hidx)
    as (Hzero_cpu & Hbad_cpu & Hok_cpu).
  split; [intros Hsize; split; [apply Hzero_gpu | apply Hzero_cpu]; exact Hsize |].
  split; [exact Hbad_gpu |]. split; [exact Hbad_cpu |].
  split; [exact Hok_gpu | exact Hok_cpu].
Qed.

Lemma rejected_copy_leaves_no_trace_witness :
  (0 <= device_count Examples.two_gpus < 2 ^ 31 /\ 0 <= 1)
  /\ fst (cuda_memcpy_async_to_gpu 200 7 16 1 1 Examples.two_gpus) = InvalidPointer
  /\ same_devices Examples.two_gpus
       (snd (cuda_memcpy_async_to_gpu 200 7 16 1 1 Examples.two_gpus)).
Proof.
  assert (Hc : 0 <= device_count Examples.two_gpus < 2 ^ 31) by (cbn; lia).
  assert (Hi : 0 <= 1) by lia.
  split; [split; assumption |].
  split; [reflexivity |].
  destruct (rejected_copy_leaves_no_trace 200 7 16 1 1 Examples.two_gpus Hc Hi)
    as (_ & Hbad & _).
  apply Hbad. vm_compute. discriminate.
Defined.

End DeviceErrors.

(** * Further properties of the bootstrapping-key header *)

(** ** The twiddle builder on any size *)

Lemma lxor_below (K a b : Z) :
  0 <= K -> 0 <= a < 2 ^ K -> 0 <= b < 2 ^ K -> 0 <= Z.lxor a b < 2 ^ K.
Proof.
  intros HK Ha Hb.
  assert (Hnn : 0 <= Z.lxor a b) by (apply Z.lxor_nonneg; lia).
  split; [exact Hnn |].
  destruct (Z.eq_dec (Z.lxor a b) 0) as [-> | Hnz]; [apply Z.pow_pos_nonneg; lia |].
  assert (HKpos : 0 < K).
  { destruct (Z.eq_dec K 0) as [-> | HK0]; [| lia].
    change (2 ^ 0) with 1 in Ha, Hb.
    assert (a = 0) by lia. assert (b = 0) by lia. subst a b.
    contradiction Hnz. reflexivity. }
  apply Z.log2_lt_pow2; [lia |].
  pose proof (Z.log2_lxor a b ltac:(lia) ltac:(lia)) as Hlog.
  assert (Hla : Z.log2 a < K).
  { destruct (Z.eq_dec a 0) as [-> | Ha0]; [cbn; lia |]. apply Z.log2_lt_pow2; lia. }
  assert (Hlb : Z.log2 b < K).
  { destruct (Z.eq_dec b 0) as [-> | Hb0]; [cbn; lia |]. apply Z.log2_lt_pow2; lia. }
  lia.
Qed.

Lemma clear_leading_ones_below (K : Z) (fuel : nat) :
  0 <= K ->
  forall j bit r,
    0 <= j < 2 ^ K -> 0 <= bit < 2 ^ K ->
    Bsk.clear_leading_ones fuel j bit = Some r ->
    0 <= fst r < 2 ^ K /\ 0 <= snd r < 2 ^ K.
Proof.
  intros HK. induction fuel as [| fuel IH]; intros j bit r Hj Hbit;
    cbn [Bsk.clear_leading_ones].
  - destruct (Z.land j bit =? 0); [| discriminate].
    intros [= <-]. cbn. split; assumption.
  - destruct (Z.land j bit =? 0).
    + intros [= <-]. cbn. split; assumption.
    + apply IH.
      * apply lxor_below; assumption.
      * rewrite Z.shiftr_div_pow2 by lia. change (2 ^ 1) with 2.
        split; [apply Z.div_pos; lia |].
        apply Z.div_lt_upper_bound; lia.
Qed.

Section TwiddleSafety.
Import Bsk Spec.
Variable N : Z.
Hypothesis HN : 0 <= N < 2 ^ 32.

Let order : Z := N / 2.
Let K : Z := Z.log2 (Z.shiftr order 1) + 1.

Lemma order_range : 0 <= order < 2 ^ 31 /\ div32 N 2 = order.
Proof.
  subst order. split.
  - split; [apply Z.div_pos; lia |]. apply Z.div_lt_upper_bound; lia.
  - apply div32_small; lia.
Qed.

Lemma first_bit_below :
  0 <= K /\ 0 <= Z.shiftr order 1 < 2 ^ K /\ (2 <= order -> 2 ^ K <= order).
Proof.
  destruct order_range as [Ho _].
  assert (Hbit : 0 <= Z.shiftr order 1) by (apply Z.shiftr_nonneg; lia).
  pose proof (Z.log2_nonneg (Z.shiftr order 1)) as Hlog.
  subst K. split; [lia |]. split.
  - split; [exact Hbit |].
    destruct (Z.eq_dec (Z.shiftr order 1) 0) as [-> | Hnz]; [cbn; lia |].
    apply Z.log2_lt_pow2; lia.
  - intros H2.
    assert (Hhalf : Z.shiftr order 1 = order / 2)
      by (rewrite Z.shiftr_div_pow2 by lia; reflexivity).
    assert (Hpos : 0 < Z.shiftr order 1).
    { rewrite Hhalf. apply Z.div_str_pos. lia. }
    pose proof (Z.log2_spec (Z.shiftr order 1) Hpos) as [Hlow _].
    rewrite Z.pow_add_r by lia. change (2 ^ 1) with 2.
    pose proof (Z.mul_div_le order 2 ltac:(lia)). lia.
Qed.

Lemma twiddle_step_safe (m : Z) (st : twiddle_state) :
  0 <= m -> m + 1 < order -> twiddle_safe (2 ^ K) order m st ->
  exists st', twiddle_step N (Some st) (m + 1) = Some st'
              /\ twiddle_safe (2 ^ K) order (m + 1) st'.
Proof.
  intros Hm Hlt (Hj & Hcnt & Hlen1 & Hlen2).
  destruct order_range as [Ho Hhalf].
  destruct first_bit_below as (HK & Hbit & Hpow).
  unfold twiddle_step. rewrite Hhalf.
  destruct (clear_leading_ones_total 32 (tw_j st) (Z.shiftr order 1)) as [[j bit] Hloop].
  { split; [lia |]. change (Z.of_nat 32) with 32.
    rewrite Z.shiftr_div_pow2 by lia. change (2 ^ 1) with 2.
    apply Z.div_lt_upper_bound; lia. }
  rewrite Hloop.
  destruct (clear_leading_ones_below K 32 HK _ _ _ Hj Hbit Hloop) as [Hj' Hbit'].
  cbn [fst snd] in Hj', Hbit'.
  pose proof (lxor_below K j bit HK Hj' Hbit') as Hnext.
  unfold twiddle_safe.
  destruct (m + 1 <? Z.lxor j bit); eexists; (split; [reflexivity |]);
    cbn [tw_j tw_cnt sw1_h sw2_h]; rewrite ?length_insert; repeat split; try lia.
Qed.

Lemma twiddle_loop_safe (m : nat) :
  Z.of_nat m < order \/ m = 0%nat ->
  exists st,
    fold_left (twiddle_step N) (seqZ 1 (Z.of_nat m))
      (Some {| tw_j := 0; tw_cnt := 0;
               sw1_h := replicate (Z.to_nat (CInt.to_int32 (div32 N 2))) 0;
               sw2_h := replicate (Z.to_nat (CInt.to_int32 (div32 N 2))) 0 |})
    = Some st
    /\ twiddle_safe (2 ^ K) order (Z.of_nat m) st.
Proof.
  destruct order_range as [Ho Hhalf].
  destruct first_bit_below as (HK & Hbit & Hpow).
  rewrite Hhalf, to_int32_small by lia.
  induction m as [| m IH]; intros Hlt.
  - eexists. split; [reflexivity |].
    unfold twiddle_safe. cbn [tw_j tw_cnt sw1_h sw2_h].
    rewrite !length_replicate. repeat split; lia.
  - destruct IH as (st & Hfold & Hsafe); [lia |].
    replace (Z.of_nat (S m)) with (Z.of_nat m + 1) by lia.
    rewrite seqZ_app, fold_left_app, Hfold by lia.
    rewrite (Z.add_comm 1 (Z.of_nat m)).
    change (seqZ (Z.of_nat m + 1) 1) with [Z.of_nat m + 1]. cbn [fold_left].
    apply twiddle_step_safe; [lia | lia | exact Hsafe].
Qed.


Lemma twiddle_step_entries (m : Z) (st st' : twiddle_state) :
  order <= 2 ^ 15 ->
  0 <= m -> m + 1 < order -> twiddle_safe (2 ^ K) order m st ->
  twiddle_entries order st ->
  twiddle_step N (Some st) (m + 1) = Some st' ->
  twiddle_entries order st'.
Proof.
  intros Hshort Hm Hlt (Hj & Hcnt & Hlen1 & Hlen2) [H1 H2].
  destruct order_range as [Ho Hhalf].
  destruct first_bit_below as (HK & Hbit & Hpow).
  unfold twiddle_step. rewrite Hhalf.
  destruct (clear_leading_ones 32 (tw_j st) (Z.shiftr order 1)) as [[j bit] |] eqn:Hloop;
    [| discriminate].
  destruct (clear_leading_ones_below K 32 HK _ _ _ Hj Hbit Hloop) as [Hj' Hbit'].
  cbn [fst snd] in Hj', Hbit'.
  pose proof (lxor_below K j bit HK Hj' Hbit') as Hnext.
  specialize (Hpow ltac:(lia)).
  unfold twiddle_entries.
  destruct (m + 1 <? Z.lxor j bit); intros [= <-]; cbn [sw1_h sw2_h].
  - rewrite !to_int16_small by lia.
    split; apply Forall_insert; try assumption; lia.
  - split; assumption.
Qed.

Lemma twiddle_loop_entries (m : nat) (st : twiddle_state) :
  order <= 2 ^ 15 -> Z.of_nat m < order \/ m = 0%nat ->
  fold_left (twiddle_step N) (seqZ 1 (Z.of_nat m))
    (Some {| tw_j := 0; tw_cnt := 0;
             sw1_h := replicate (Z.to_nat (CInt.to_int32 (div32 N 2))) 0;
             sw2_h := replicate (Z.to_nat (CInt.to_int32 (div32 N 2))) 0 |})
  = Some st ->
  twiddle_entries order st.
Proof.
  intros Hshort. revert st. induction m as [| m IH]; intros st Hlt.
  - cbn [Z.of_nat seqZ fold_left]. change (seqZ 1 0) with (@nil Z). cbn [fold_left].
    intros [= <-]. unfold twiddle_entries. cbn [sw1_h sw2_h].
    destruct order_range as [Ho Hhalf]. rewrite Hhalf, to_int32_small by lia.
    assert (Hz : Forall (fun e => 0 <= e < order) (replicate (Z.to_nat order) 0)).
    { destruct (Z.eq_dec order 0) as [-> | Hnz]; [constructor |].
      apply Forall_replicate. lia. }
    split; exact Hz.
  - destruct (twiddle_loop_safe m ltac:(lia)) as (st0 & Hfold & Hsafe).
    replace (Z.of_nat (S m)) with (Z.of_nat m + 1) by lia.
    rewrite seqZ_app, fold_left_app, Hfold by lia.
    rewrite (Z.add_comm 1 (Z.of_nat m)).
    change (seqZ (Z.of_nat m + 1) 1) with [Z.of_nat m + 1]. cbn [fold_left].
    apply twiddle_step_entries; try assumption; try lia.
    apply (IH st0); [lia | exact Hfold].
Qed.

End TwiddleSafety.

(** X5. The twiddle builder is safe for every [polynomial_size], power of
    two or not. The inner loop always ends, so the builder returns its two
    tables, of [N / 2] entries each. While the outer loop runs, [cnt] never
    exceeds the number of turns made, so every store [sw1_h[cnt]],
    [sw2_h[cnt]] falls inside the tables, and [j] stays below [N / 2]. When
    [N / 2] is at most 2^15, so that the entries fit a [short], every entry
    of both tables is a position of a table of [N / 2] entries. *)
Theorem twiddle_builder_stays_in_bounds (N : Z) :
  0 <= N < 2 ^ 32 ->
  let init := {| Bsk.tw_j := 0; Bsk.tw_cnt := 0;
                 Bsk.sw1_h := replicate (Z.to_nat (CInt.to_int32 (Bsk.div32 N 2))) 0;
                 Bsk.sw2_h := replicate (Z.to_nat (CInt.to_int32 (Bsk.div32 N 2))) 0 |} in
  (exists sw1 sw2,
     Bsk.cuda_initialize_twiddles N = Some (sw1, sw2)
     /\ length sw1 = Z.to_nat (N / 2) /\ length sw2 = Z.to_nat (N / 2)
     /\ (N / 2 <= 2 ^ 15 ->
         Forall (fun e => 0 <= e < N / 2) sw1 /\ Forall (fun e => 0 <= e < N / 2) sw2))
  /\ (forall m, 0 <= m -> m + 1 < N / 2 ->
        exists st,
          fold_left (Bsk.twiddle_step N) (seqZ 1 m) (Some init) = Some st
          /\ 0 <= Bsk.tw_cnt st <= m
          /\ 0 <= Bsk.tw_j st < N / 2
          /\ length (Bsk.sw1_h st) = Z.to_nat (N / 2)
          /\ length (Bsk.sw2_h st) = Z.to_nat (N / 2)).
Proof.
  intros HN init.
  destruct (order_range N HN) as [Ho Hhalf].
  destruct (first_bit_below N HN) as (HK & Hbit & Hpow).
  split.
  - unfold Bsk.cuda_initialize_twiddles.
    destruct (Z.le_gt_cases (N / 2) 1) as [Hsmall | Hbig].
    + replace (Bsk.div32 N 2 - 1) with (N / 2 - 1) by (rewrite Hhalf; reflexivity).
      rewrite Hhalf. rewrite (seqZ_nil 1 (N / 2 - 1)) by lia. cbn [fold_left Bsk.sw1_h Bsk.sw2_h].
      rewrite to_int32_small by lia.
      eexists _, _. split; [reflexivity |]. rewrite !length_replicate.
      split; [reflexivity |]. split; [reflexivity |]. intros _.
      assert (Hz : Forall (fun e => 0 <= e < N / 2) (replicate (Z.to_nat (N / 2)) 0)).
      { destruct (Z.eq_dec (N / 2) 0) as [-> | Hnz]; [constructor |].
        apply Forall_replicate. lia. }
      split; exact Hz.
    + destruct (twiddle_loop_safe N HN (Z.to_nat (N / 2 - 1)) ltac:(lia))
        as (st & Hfold & (_ & _ & Hlen1 & Hlen2)).
      pose proof (twiddle_loop_entries N HN (Z.to_nat (N / 2 - 1)) st) as Hentries.
      rewrite Z2Nat.id in Hfold, Hentries by lia.
      replace (Bsk.div32 N 2 - 1) with (N / 2 - 1) by (rewrite Hhalf; reflexivity).
      rewrite Hfold.
      eexists _, _. split; [reflexivity |].
      split; [exact Hlen1 |]. split; [exact Hlen2 |].
      intros Hshort. apply Hentries; [exact Hshort | lia | exact Hfold].
  - intros m Hm Hlt.
    destruct (twiddle_loop_safe N HN (Z.to_nat m) ltac:(lia))
      as (st & Hfold & (Hj & Hcnt & Hlen1 & Hlen2)).
    rewrite Z2Nat.id in Hfold, Hcnt by lia.
    exists st. split; [exact Hfold |].
    specialize (Hpow ltac:(lia)).
    repeat split; try assumption; lia.
Qed.

Lemma twiddle_builder_stays_in_bounds_witness :
  0 <= 12 < 2 ^ 32
  /\ exists sw1 sw2,
       Bsk.cuda_initialize_twiddles 12 = Some (sw1, sw2)
       /\ length sw1 = Z.to_nat (12 / 2) /\ length sw2 = Z.to_nat (12 / 2)
       /\ (12 / 2 <= 2 ^ 15 ->
           Forall (fun e => 0 <= e < 12 / 2) sw1
           /\ Forall (fun e => 0 <= e < 12 / 2) sw2).
Proof.
  assert (H12 : 0 <= 12 < 2 ^ 32) by lia.
  split; [exact H12 |].
  exact (proj1 (twiddle_builder_stays_in_bounds 12 H12)).
Defined.

(** X6. For every power of two from 4 to 2^16, not only the five degrees
    of the key converter, the builder returns the swap tables of the bit
    reversal of order [N / 2]: the pairs [(i, rev i)] with [i < rev i] in
    increasing [i], then zeros, [N / 2] entries each. *)
Theorem twiddles_for_every_power_of_two (e : nat) :
  (2 <= e <= 16)%nat ->
  Bsk.cuda_initialize_twiddles (2 ^ Z.of_nat e) = Some (Spec.swap_tables (2 ^ Z.of_nat e))
  /\ length (fst (Spec.swap_tables (2 ^ Z.of_nat e))) = Z.to_nat (2 ^ Z.of_nat e / 2)
  /\ length (snd (Spec.swap_tables (2 ^ Z.of_nat e))) = Z.to_nat (2 ^ Z.of_nat e / 2).
Proof.
  intros He. destruct e as [| [| k]]; [lia | lia |].
  assert (Hk : (S k <= 15)%nat) by lia.
  assert (Hpow : 2 ^ Z.of_nat (S (S k)) = 2 * 2 ^ Z.of_nat (S k)).
  { rewrite (Nat2Z.inj_succ (S k)), Z.pow_succ_r by lia. reflexivity. }
  rewrite Hpow.
  split; [exact (twiddles_of_power_of_two k Hk) | exact (swap_tables_length k Hk)].
Qed.

Lemma twiddles_for_every_power_of_two_witness :
  (2 <= 4 <= 16)%nat
  /\ Bsk.cuda_initialize_twiddles (2 ^ Z.of_nat 4) = Some (Spec.swap_tables (2 ^ Z.of_nat 4)).
Proof.
  assert (H4 : (2 <= 4 <= 16)%nat) by lia.
  split; [exact H4 |].
  exact (proj1 (twiddles_for_every_power_of_two 4 H4)).
Defined.

(** ** The tables as a schedule of swaps *)

(** The reversal read from the other end: the highest digit becomes the
    lowest. *)
Lemma reverse_digits_top (b : nat) :
  forall t y, 0 <= t <= 1 -> 0 <= y < 2 ^ Z.of_nat b ->
    Spec.reverse_digits (S b) (t * 2 ^ Z.of_nat b + y) = 2 * Spec.reverse_digits b y + t.
Proof.
  induction b as [| b IH]; intros t y Ht Hy.
  - change (2 ^ Z.of_nat 0) with 1 in *. assert (y = 0) by lia. subst y.
    cbn [Spec.reverse_digits]. change (2 ^ Z.of_nat 0) with 1.
    rewrite Z.mul_1_r, Z.add_0_r, Z.mod_small by lia. lia.
  - assert (Hpow : 2 ^ Z.of_nat (S b) = 2 * 2 ^ Z.of_nat b).
    { rewrite Nat2Z.inj_succ, Z.pow_succ_r by lia. reflexivity. }
    assert (Hpos : 0 < 2 ^ Z.of_nat b) by (apply Z.pow_pos_nonneg; lia).
    pose proof (Z.div_mod y 2 ltac:(lia)) as Hy2.
    pose proof (Z.mod_pos_bound y 2 ltac:(lia)) as Hmod.
    set (x := t * 2 ^ Z.of_nat (S b) + y).
    assert (Hx : x = y mod 2 + (t * 2 ^ Z.of_nat b + y / 2) * 2) by (subst x; lia).
    assert (Hxmod : x mod 2 = y mod 2).
    { rewrite Hx, Z_mod_plus_full. apply Z.mod_small. lia. }
    assert (Hxdiv : x / 2 = t * 2 ^ Z.of_nat b + y / 2).
    { rewrite Hx, Z.div_add by lia. rewrite (Z.div_small (y mod 2)) by lia. lia. }
    change (Spec.reverse_digits (S (S b)) x)
      with (x mod 2 * 2 ^ Z.of_nat (S b) + Spec.reverse_digits (S b) (x / 2)).
    rewrite Hxmod, Hxdiv, IH by lia.
    change (Spec.reverse_digits (S b) y)
      with (y mod 2 * 2 ^ Z.of_nat b + Spec.reverse_digits b (y / 2)).
    lia.
Qed.

Lemma reverse_digits_involutive (b : nat) :
  forall i, 0 <= i < 2 ^ Z.of_nat b ->
    Spec.reverse_digits b (Spec.reverse_digits b i) = i.
Proof.
  induction b as [| b IH]; intros i Hi.
  - change (2 ^ Z.of_nat 0) with 1 in Hi. cbn. lia.
  - assert (Hpow : 2 ^ Z.of_nat (S b) = 2 * 2 ^ Z.of_nat b).
    { rewrite Nat2Z.inj_succ, Z.pow_succ_r by lia. reflexivity. }
    pose proof (Z.div_mod i 2 ltac:(lia)) as Hi2.
    pose proof (Z.mod_pos_bound i 2 ltac:(lia)) as Hmod.
    pose proof (reverse_digits_range b (i / 2)) as Hr.
    change (Spec.reverse_digits (S b) i)
      with (i mod 2 * 2 ^ Z.of_nat b + Spec.reverse_digits b (i / 2)).
    rewrite reverse_digits_top by lia.
    rewrite IH by lia. lia.
Qed.

Section Schedule.
Import Bsk Spec.
Variable bits : nat.
Variable m : Z.
Hypothesis Hm : m < 2 ^ Z.of_nat bits.

Let rev := reverse_digits bits.

Lemma swaps_up_to_firsts :
  map fst (swaps_up_to bits m) = List.filter (fun i => i <? rev i) (seqZ 1 m).
Proof.
  unfold swaps_up_to. generalize (seqZ 1 m). intros l.
  unfold rev.
  induction l as [| i l IH]; [reflexivity |].
  cbn [map List.filter fst snd].
  destruct (i <? reverse_digits bits i); cbn [map fst]; rewrite IH; reflexivity.
Qed.

Lemma swaps_up_to_seconds :
  map snd (swaps_up_to bits m) = map rev (List.filter (fun i => i <? rev i) (seqZ 1 m)).
Proof.
  unfold swaps_up_to. generalize (seqZ 1 m). intros l.
  unfold rev.
  induction l as [| i l IH]; [reflexivity |].
  cbn [map List.filter fst snd].
  destruct (i <? reverse_digits bits i); cbn [map snd]; rewrite IH; reflexivity.
Qed.

Lemma In_swaps_up_to (a b : Z) :
  In (a, b) (swaps_up_to bits m) <-> 1 <= a <= m /\ b = rev a /\ a < b.
Proof.
  unfold swaps_up_to. rewrite filter_In, in_map_iff. cbn [fst snd]. split.
  - intros [(i & Heq & Hin) Hlt]. inversion Heq; subst.
    apply In_seqZ in Hin. apply Z.ltb_lt in Hlt. repeat split; lia.
  - intros (Ha & -> & Hlt). split; [| apply Z.ltb_lt; exact Hlt].
    exists a. split; [reflexivity | apply In_seqZ; lia].
Qed.

Lemma swaps_up_to_NoDup :
  NoDup (map fst (swaps_up_to bits m) ++ map snd (swaps_up_to bits m)).
Proof.
  rewrite swaps_up_to_firsts, swaps_up_to_seconds.
  assert (Hsel : forall i, i ∈ List.filter (fun i => i <? rev i) (seqZ 1 m) ->
                   1 <= i <= m /\ i < rev i).
  { intros i Hi. apply list_elem_of_In, filter_In in Hi. destruct Hi as [Hin Hlt].
    apply In_seqZ in Hin. apply Z.ltb_lt in Hlt. lia. }
  assert (Hnd : NoDup (List.filter (fun i => i <? rev i) (seqZ 1 m))).
  { apply NoDup_ListNoDup, List.NoDup_filter, NoDup_ListNoDup, NoDup_seqZ. }
  apply NoDup_app. split; [exact Hnd |]. split.
  - intros x Hx Hx'. apply Hsel in Hx.
    apply list_elem_of_fmap in Hx'. destruct Hx' as (i & -> & Hi). apply Hsel in Hi.
    subst rev. rewrite reverse_digits_involutive in Hx by lia. lia.
  - apply NoDup_fmap_2_strong; [| exact Hnd].
    intros x y Hx Hy Heq. apply Hsel in Hx, Hy.
    apply (f_equal rev) in Heq. subst rev.
    rewrite !reverse_digits_involutive in Heq by lia. exact Heq.
Qed.

End Schedule.

(** X14. For every power of two from 4 to 2^16 the two tables are a valid
    schedule of swaps for the bit reversal of order [N / 2]. The builder
    stores the pairs, then zeros. The reversal maps the positions below
    [N / 2] to themselves and is its own inverse. A pair [(a, b)] is listed
    exactly when [b] is the reversal of [a] and [a < b]. No position occurs
    twice among the listed entries of both tables: the swaps touch disjoint
    cells, and carried out in any order they reverse the digits of every
    position. *)
Theorem swap_tables_are_a_swap_schedule (e : nat) :
  (2 <= e <= 16)%nat ->
  let N := 2 ^ Z.of_nat e in
  let rev := Spec.bit_reverse (e - 1) in
  let pairs := Spec.swap_pairs (N / 2) in
  (exists padding,
     Bsk.cuda_initialize_twiddles N
     = Some (map fst pairs ++ padding, map snd pairs ++ padding)
     /\ Forall (eq 0) padding)
  /\ (forall i, 0 <= i < N / 2 -> 0 <= rev i < N / 2 /\ rev (rev i) = i)
  /\ (forall a b, In (a, b) pairs <-> 0 <= a < N / 2 /\ b = rev a /\ a < b)
  /\ NoDup (map fst pairs ++ map snd pairs).
Proof.
  intros He. destruct e as [| [| k]]; [lia | lia |].
  assert (Hk : (S k <= 15)%nat) by lia.
  replace (S (S k) - 1)%nat with (S k) by lia.
  assert (Hpow : 2 ^ Z.of_nat (S (S k)) = 2 * 2 ^ Z.of_nat (S k)).
  { rewrite (Nat2Z.inj_succ (S k)), Z.pow_succ_r by lia. reflexivity. }
  assert (Hpos : 0 < 2 ^ Z.of_nat (S k)) by (apply Z.pow_pos_nonneg; lia).
  assert (Hhalf : 2 ^ Z.of_nat (S (S k)) / 2 = 2 ^ Z.of_nat (S k)).
  { rewrite Hpow, Z.mul_comm. apply Z.div_mul. lia. }
  cbv zeta. rewrite Hhalf.
  rewrite (swap_pairs_as_swaps k Hk).
  assert (Hrev : forall i, Spec.bit_reverse (S k) i = Spec.reverse_digits (S k) i)
    by (intros i; apply bit_reverse_digits).
  assert (Hm : 2 ^ Z.of_nat (S k) - 1 < 2 ^ Z.of_nat (S k)) by lia.
  split; [| split; [| split]].
  - eexists. split.
    + rewrite Hpow, (twiddles_of_power_of_two k Hk). unfold Spec.swap_tables.
      rewrite <- Hpow, Hhalf, (swap_pairs_as_swaps k Hk). reflexivity.
    + apply Forall_replicate. reflexivity.
  - intros i Hi. rewrite !Hrev. split.
    + apply reverse_digits_range.
    + apply reverse_digits_involutive. exact Hi.
  - intros a b. rewrite In_swaps_up_to, Hrev. split.
    + intros (Ha & Hb & Hlt). repeat split; try assumption; lia.
    + intros (Ha & Hb & Hlt). repeat split; try assumption; try lia.
      destruct (Z.eq_dec a 0) as [-> | Hnz]; [| lia].
      rewrite Hb, reverse_digits_zero in Hlt. lia.
  - apply swaps_up_to_NoDup. exact Hm.
Qed.

Lemma swap_tables_are_a_swap_schedule_witness :
  (2 <= 4 <= 16)%nat
  /\ NoDup (map fst (Spec.swap_pairs (2 ^ Z.of_nat 4 / 2))
            ++ map snd (Spec.swap_pairs (2 ^ Z.of_nat 4 / 2))).
Proof.
  assert (H4 : (2 <= 4 <= 16)%nat) by lia.
  split; [exact H4 |].
  exact (proj2 (proj2 (proj2 (swap_tables_are_a_swap_schedule 4 H4)))).
Defined.

(** ** The staging buffer of the converter *)

(** X7. The key handed to the device is written in full and from the
    key alone. For an even degree and a key within the 32-bit index
    arithmetic, every cell of the staging buffer is stored by the packing
    loops: what [malloc] had left there never reaches the device, and the
    converter reads the first [n * (g+1)^2 * l * N] source coefficients and
    no other. Two calls that agree on those coefficients stage the same
    buffer and end in the same launches and the same destination. *)
Theorem staged_key_is_fully_written (FO : FloatOps) (garbage garbage' : nat -> double2)
    (choose_opt : Z -> Z)
    (batch_NSMFFT : Z -> Z -> list double2 -> list double2 -> list double2)
    (w : Z) (dest : list double2) (src src' : list Z) (v_stream gpu_index : Z)
    (n g l N : Z) :
  0 < N -> Z.even N = true -> 0 <= n -> 0 <= g -> 0 <= l ->
  n * (g + 1) ^ 2 * l * N < 2 ^ 31 ->
  (forall p, 0 <= p < n * (g + 1) ^ 2 * l * N ->
     src !!! Z.to_nat p = src' !!! Z.to_nat p) ->
  Bsk.packed_key garbage w src n g l N = Bsk.packed_key garbage' w src' n g l N
  /\ Bsk.cuda_convert_lwe_bootstrap_key choose_opt batch_NSMFFT garbage w dest src
       v_stream gpu_index n g l N
     = Bsk.cuda_convert_lwe_bootstrap_key choose_opt batch_NSMFFT garbage' w dest src'
         v_stream gpu_index n g l N.
Proof.
  intros HN Heven Hn Hg Hl Hfit Hsame.
  apply Z.even_spec in Heven. destruct Heven as [h HNh].
  assert (Hh : 0 < h) by lia.
  assert (Htotal : n * (g + 1) ^ 2 * l = Spec.key_polynomials n g l).
  { unfold Spec.key_polynomials. rewrite Z.pow_2_r. reflexivity. }
  rewrite Htotal in Hfit, Hsame.
  pose proof (total_nonneg n g l Hn Hg Hl) as Ht.
  assert (Hkey : Bsk.packed_key garbage w src n g l N
                 = Bsk.packed_key garbage' w src' n g l N).
  { apply list_eq. intros q.
    destruct (Nat.lt_ge_cases q (Z.to_nat (Spec.key_polynomials n g l * h))) as [Hlt | Hge].
    - assert (Hq : Z.of_nat q = Z.of_nat q / h * h + Z.of_nat q mod h).
      { pose proof (Z.div_mod (Z.of_nat q) h ltac:(lia)). lia. }
      pose proof (Z.mod_pos_bound (Z.of_nat q) h Hh) as Hj.
      assert (Hi : 0 <= Z.of_nat q / h < Spec.key_polynomials n g l).
      { split; [apply Z.div_pos; lia |]. apply Z.div_lt_upper_bound; [lia |]. nia. }
      replace q with (Z.to_nat (Z.of_nat q / h * h + Z.of_nat q mod h)) by lia.
      rewrite (packed_key_lookup garbage w src n g l N h Hh HNh Hn Hg Hl Hfit _ _ Hi Hj).
      rewrite (packed_key_lookup garbage' w src' n g l N h Hh HNh Hn Hg Hl Hfit _ _ Hi Hj).
      f_equal. unfold Spec.packed_value.
      rewrite !Hsame by nia. reflexivity.
    - rewrite !lookup_ge_None_2; [reflexivity | |].
      + rewrite (packed_key_length garbage' w src' n g l N h Hh HNh Hn Hg Hl Hfit). exact Hge.
      + rewrite (packed_key_length garbage w src n g l N h Hh HNh Hn Hg Hl Hfit). exact Hge. }
  split; [exact Hkey |].
  unfold Bsk.cuda_convert_lwe_bootstrap_key. rewrite Hkey. reflexivity.
Qed.

Lemma staged_key_is_fully_written_witness :
  (0 < 4 /\ Z.even 4 = true /\ 0 <= 1 /\ 1 * (1 + 1) ^ 2 * 1 * 4 < 2 ^ 31)
  /\ Bsk.packed_key (FO := exact_double) (fun _ => (0, 0)%Q) 32
       (map (fun i => 3 * i - 20) (seqZ 0 16)) 1 1 1 4
     = Bsk.packed_key (FO := exact_double) (fun _ => (7, 7)%Q) 32
         (map (fun i => 3 * i - 20) (seqZ 0 16) ++ [99]) 1 1 1 4.
Proof.
  assert (H1 : 0 < 4) by lia.
  assert (H2 : Z.even 4 = true) by reflexivity.
  assert (H3 : 0 <= 1) by lia.
  assert (H4 : 1 * (1 + 1) ^ 2 * 1 * 4 < 2 ^ 31) by (vm_compute; reflexivity).
  split; [repeat split; assumption |].
  assert (Hsame : forall p, 0 <= p < 1 * (1 + 1) ^ 2 * 1 * 4 ->
            map (fun i => 3 * i - 20) (seqZ 0 16) !!! Z.to_nat p
            = (map (fun i => 3 * i - 20) (seqZ 0 16) ++ [99]) !!! Z.to_nat p).
  { intros p Hp. symmetry. apply lookup_total_app_l.
    change (1 * (1 + 1) ^ 2 * 1 * 4) with 16 in Hp.
    rewrite length_map, length_seqZ. lia. }
  exact (proj1 (staged_key_is_fully_written exact_double (fun _ => (0, 0)%Q)
                  (fun _ => (7, 7)%Q) (fun _ => 1) (fun _ _ _ d => d) 32 []
                  (map (fun i => 3 * i - 20) (seqZ 0 16))
                  (map (fun i => 3 * i - 20) (seqZ 0 16) ++ [99])
                  0 0 1 1 1 4 H1 H2 H3 H3 H3 H4 Hsame)).
Defined.

(** ** The index functions on any GLWE dimension *)

Lemma grows (a b : Z) : 0 <= a -> 1 <= b -> a <= a * b.
Proof. intros Ha Hb. nia. Qed.

Section AnyDimension.
Import Bsk Spec.
Variables n g l N h : Z.
Hypothesis Hh : 0 < h.
Hypothesis HN : N = 2 * h.
Hypothesis Hn : 0 <= n.
Hypothesis Hg : 0 <= g.
Hypothesis Hl : 0 <= l.
Hypothesis Hfit : key_polynomials n g l * N < 2 ^ 31.

Lemma scaled_half (x : Z) : 0 <= x -> x * N < 2 ^ 32 -> div32 (mul32 x N) 2 = x * h.
Proof.
  intros Hx Hlt.
  assert (0 <= x * N) by (apply Z.mul_nonneg_nonneg; lia).
  rewrite mul32_small by lia.
  rewrite div32_small by lia.
  rewrite HN. replace (x * (2 * h)) with (x * h * 2) by lia.
  apply Z.div_mul. lia.
Qed.

Lemma row_rank_bound (i k level : Z) :
  0 <= i < n -> 0 <= k <= g -> 0 <= level < l ->
  let p := (i * l + level) * ((g + 1) * (g + 1)) + k * (g + 1) in
  0 <= p /\ p + (g + 1) <= key_polynomials n g l.
Proof.
  intros Hi Hk Hlv p. subst p. unfold key_polynomials.
  set (G := g + 1). assert (HG : 1 <= G) by (subst G; lia).
  assert (HkG : 0 <= k * G /\ k * G + G <= G * G) by nia.
  set (A := G * G) in *. assert (HA : 1 <= A) by (subst A; nia).
  assert (Hr : 0 <= i * l + level /\ i * l + level + 1 <= n * l) by nia.
  set (r := i * l + level) in *.
  assert (0 <= r * A /\ r * A + A <= n * l * A) by nia.
  replace (n * A * l) with (n * l * A) by ring. lia.
Qed.

Lemma key_block_exact (i k level : Z) :
  0 <= i < n -> 0 <= k <= g -> 0 <= level < l ->
  let p := (i * l + level) * ((g + 1) * (g + 1)) + k * (g + 1) in
  get_ith_mask_kth_block i k level N g l = p * h
  /\ get_ith_body_kth_block i k level N g l = (p + 1) * h.
Proof.
  intros Hi Hk Hlv p.
  destruct (row_rank_bound i k level Hi Hk Hlv) as [Hp0 Hp1]. fold p in Hp0, Hp1.
  set (G := g + 1) in *. assert (HG : 1 <= G) by (subst G; lia).
  set (T := key_polynomials n g l) in *.
  assert (HT : T * h * 2 < 2 ^ 31) by (rewrite HN in Hfit; lia).
  assert (Hl1 : 1 <= l) by lia.
  (* the partial products, smallest first *)
  assert (Hih : 0 <= i * h) by (apply Z.mul_nonneg_nonneg; lia).
  assert (Hlh : 0 <= level * h) by (apply Z.mul_nonneg_nonneg; lia).
  assert (Hkh : 0 <= k * h) by (apply Z.mul_nonneg_nonneg; lia).
  pose proof (grows (i * h) G Hih HG) as Hi1.
  pose proof (grows (i * h * G) G ltac:(lia) HG) as Hi2.
  pose proof (grows (i * h * G * G) l ltac:(lia) Hl1) as Hi3.
  pose proof (grows (level * h) G Hlh HG) as Hl2.
  pose proof (grows (level * h * G) G ltac:(lia) HG) as Hl3.
  pose proof (grows (k * h) G Hkh HG) as Hk2.
  pose proof (grows h G ltac:(lia) HG) as Hh2.
  assert (Htop : (p + G) * h <= T * h) by (apply Z.mul_le_mono_nonneg_r; lia).
  assert (Hsum : i * h * G * G * l + level * h * G * G + k * h * G = p * h)
    by (subst p; fold G; ring).
  assert (Hstart : get_start_ith_ggsw i N g l = i * h * G * G * l).
  { unfold get_start_ith_ggsw. fold G.
    rewrite scaled_half by (rewrite ?HN; lia).
    rewrite (mul32_small (i * h) G) by lia.
    rewrite (mul32_small (i * h * G) G) by lia.
    rewrite (mul32_small (i * h * G * G) l) by lia.
    apply to_int32_small. lia. }
  assert (Hlevel : mul32 (mul32 (div32 (mul32 level N) 2) G) G = level * h * G * G).
  { rewrite scaled_half by (rewrite ?HN; lia).
    rewrite (mul32_small (level * h) G) by lia.
    apply mul32_small. lia. }
  assert (Hrow : mul32 (div32 (mul32 k N) 2) G = k * h * G).
  { rewrite scaled_half by (rewrite ?HN; lia).
    apply mul32_small. lia. }
  assert (Hhalf : div32 N 2 = h).
  { rewrite div32_small by (rewrite ?HN; lia).
    rewrite HN, Z.mul_comm. apply Z.div_mul. lia. }
  unfold get_ith_mask_kth_block, get_ith_body_kth_block. fold G.
  rewrite Hstart, Hlevel, Hrow, Hhalf, Hsum.
  split; rewrite to_uint32_small by lia; ring.
Qed.

End AnyDimension.

(** X8. The two index functions for any GLWE dimension [g], for an even
    degree and a key within the 32-bit index arithmetic. The mask block of
    GGSW [i], row [k], level [level] starts at polynomial
    [(i * l + level) * (g+1)^2 + k * (g+1)] of the converted key, at the
    offset the converter gives that polynomial, and the body block starts
    [N / 2] cells further, at the next polynomial. For [g >= 1] that
    polynomial is again one of the key. *)
Theorem key_blocks_for_any_glwe_dimension (n g l N : Z) :
  0 < N -> Z.even N = true -> 0 <= n -> 0 <= g -> 0 <= l ->
  n * (g + 1) ^ 2 * l * N < 2 ^ 31 ->
  forall i k level,
    0 <= i < n -> 0 <= k <= g -> 0 <= level < l ->
    let p := (i * l + level) * (g + 1) ^ 2 + k * (g + 1) in
    0 <= p < Bsk.total_polynomials n g l
    /\ Bsk.get_ith_mask_kth_block i k level N g l = Bsk.complex_current_poly_idx p N
    /\ Bsk.get_ith_mask_kth_block i k level N g l = p * (N / 2)
    /\ Bsk.get_ith_body_kth_block i k level N g l
       = Bsk.get_ith_mask_kth_block i k level N g l + N / 2
    /\ (1 <= g ->
        p + 1 < Bsk.total_polynomials n g l
        /\ Bsk.get_ith_body_kth_block i k level N g l
           = Bsk.complex_current_poly_idx (p + 1) N).
Proof.
  intros HN Heven Hn Hg Hl Hfit i k level Hi Hk Hlv p.
  apply Z.even_spec in Heven. destruct Heven as [h HNh].
  assert (Hh : 0 < h) by lia.
  assert (Hhalf : N / 2 = h) by (rewrite HNh, Z.mul_comm; apply Z.div_mul; lia).
  assert (Hfit' : Spec.key_polynomials n g l * N < 2 ^ 31).
  { unfold Spec.key_polynomials. rewrite Z.pow_2_r in Hfit. exact Hfit. }
  assert (Hp : p = (i * l + level) * ((g + 1) * (g + 1)) + k * (g + 1))
    by (subst p; rewrite Z.pow_2_r; reflexivity).
  destruct (row_rank_bound n g l Hn Hg Hl i k level Hi Hk Hlv) as [Hp0 Hp1].
  destruct (key_block_exact n g l N h Hh HNh Hn Hg Hl Hfit' i k level Hi Hk Hlv)
    as [Hmask Hbody].
  cbv zeta in Hp0, Hp1, Hmask, Hbody. rewrite <- Hp in Hp0, Hp1, Hmask, Hbody.
  assert (Htp : Bsk.total_polynomials n g l = Spec.key_polynomials n g l)
    by (eapply total_polynomials_product; eassumption).
  assert (Hidx : forall q, 0 <= q < Spec.key_polynomials n g l ->
                   Bsk.complex_current_poly_idx q N = q * h).
  { intros q Hq. eapply proj1. eapply (poly_idx_exact n g l N h); eassumption. }
  rewrite Htp, Hmask, Hbody, Hhalf.
  split; [lia |]. split; [| split; [reflexivity | split; [ring |]]].
  - symmetry. apply Hidx. lia.
  - intros Hg1. split; [lia |]. symmetry. apply Hidx. lia.
Qed.

Lemma key_blocks_for_any_glwe_dimension_witness :
  (0 < 8 /\ Z.even 8 = true /\ 0 <= 2 /\ 2 * (2 + 1) ^ 2 * 2 * 8 < 2 ^ 31)
  /\ Bsk.get_ith_mask_kth_block 1 2 1 8 2 2 = 33 * (8 / 2)
  /\ Bsk.get_ith_body_kth_block 1 2 1 8 2 2 = Bsk.get_ith_mask_kth_block 1 2 1 8 2 2 + 8 / 2.
Proof.
  assert (H1 : 0 < 8) by lia.
  assert (H2 : Z.even 8 = true) by reflexivity.
  assert (H3 : 0 <= 2) by lia.
  assert (H4 : 2 * (2 + 1) ^ 2 * 2 * 8 < 2 ^ 31) by (vm_compute; reflexivity).
  split; [repeat split; assumption |].
  destruct (key_blocks_for_any_glwe_dimension 2 2 2 8 H1 H2 H3 H3 H3 H4 1 2 1
              ltac:(lia) ltac:(lia) ltac:(lia))
    as (_ & _ & Hmask & Hbody & _).
  split; [exact Hmask | exact Hbody].
Defined.

(** * Further properties of the launcher and of the kernel *)

(** ** Shared memory and device scratch of a launch *)

(** X9. Whatever the tier, the launch fits the capacity it was chosen
    for: the dynamic shared memory it requests is at most
    [max_shared_memory]. The shared memory and the per-sample device scratch
    of a launch always add up to the full footprint [SM_FULL]: the tiers
    differ in where the scratch of a block lives, not in how much there
    is. *)
Theorem launch_fits_the_capacity (P : Params) (N count capacity : Z) :
  0 <= N -> 0 <= sizeof_Torus -> (4 * sizeof_Torus + 28) * N < 2 ^ 31 ->
  0 <= capacity < 2 ^ 32 ->
  let cfg := Pbs.choose_launch N count capacity in
  0 <= Pbs.dynamic_shared cfg <= capacity
  /\ 0 <= Pbs.per_sample cfg
  /\ Pbs.dynamic_shared cfg + Pbs.per_sample cfg = Pbs.SM_FULL N.
Proof.
  intros HN HT Hfit Hcap cfg.
  destruct (choose_launch_shape N count capacity HN HT Hfit Hcap)
    as (Hle & _ & Hdyn & Hper & _ & Hcase).
  fold cfg in Hdyn, Hper, Hcase.
  rewrite (SM_FULL_exact N HN HT Hfit), Hdyn, Hper.
  destruct (Pbs.tier cfg); lia.
Qed.

Lemma launch_fits_the_capacity_witness :
  (0 <= 1024 /\ 0 <= @sizeof_Torus Examples.small_params
   /\ (4 * @sizeof_Torus Examples.small_params + 28) * 1024 < 2 ^ 31
   /\ 0 <= 49152 < 2 ^ 32)
  /\ 0 <= Pbs.dynamic_shared (@Pbs.choose_launch Examples.small_params 1024 5 49152)
     <= 49152
  /\ Pbs.dynamic_shared (@Pbs.choose_launch Examples.small_params 1024 5 49152)
     + Pbs.per_sample (@Pbs.choose_launch Examples.small_params 1024 5 49152)
     = @Pbs.SM_FULL Examples.small_params 1024.
Proof.
  assert (H1 : 0 <= 1024) by lia.
  assert (H2 : 0 <= @sizeof_Torus Examples.small_params) by (cbn; lia).
  assert (H3 : (4 * @sizeof_Torus Examples.small_params + 28) * 1024 < 2 ^ 31)
    by (vm_compute; reflexivity).
  assert (H4 : 0 <= 49152 < 2 ^ 32) by lia.
  split; [repeat split; try assumption; lia |].
  destruct (launch_fits_the_capacity Examples.small_params 1024 5 49152 H1 H2 H3 H4)
    as (Hdyn & _ & Hsum).
  split; [exact Hdyn | exact Hsum].
Defined.

Section Tiles.
Import Cuda Pbs Spec.
Context {P : Params}.

(** X11. The device scratch is tiled by the blocks. When the product of
    the footprint by the batch size fits the 32 bits it is computed in, the
    single [cudaMalloc] of the launcher asks for exactly
    [count * per_sample] bytes, the slice the kernel selects for block [b]
    lies inside that allocation, and the slices of two different blocks
    share no byte. Under [FULLSM] nothing is asked of the device. *)
Theorem device_scratch_is_tiled (N count capacity : Z) :
  0 <= N -> 0 <= sizeof_Torus -> (4 * sizeof_Torus + 28) * N < 2 ^ 31 ->
  0 <= capacity < 2 ^ 32 ->
  0 <= count -> SM_FULL N * count < 2 ^ 32 ->
  let cfg := choose_launch N count capacity in
  let slice := fun b => selected_memory_at (tier cfg) b (per_sample cfg) in
  d_mem_bytes cfg = count * per_sample cfg
  /\ (forall b, 0 <= b < count ->
        0 <= slice b /\ slice b + per_sample cfg <= d_mem_bytes cfg)
  /\ (forall b b', 0 <= b < count -> 0 <= b' < count -> b <> b' ->
        disjoint_slices (slice b) (slice b') (per_sample cfg)).
Proof.
  intros HN HT Hfit Hcap Hcount Hall cfg slice.
  destruct (choose_launch_shape N count capacity HN HT Hfit Hcap)
    as (Hle & Hbound & _ & Hper & Hmem & _).
  fold cfg in Hper, Hmem.
  rewrite (SM_FULL_exact N HN HT Hfit) in Hall.
  assert (Hps : 0 <= per_sample cfg <= full_footprint N)
    by (rewrite Hper; destruct (tier cfg); lia).
  assert (Htotal : 0 <= per_sample cfg * count < 2 ^ 32) by nia.
  assert (Hslice : forall b, 0 <= b < count -> slice b = b * per_sample cfg
                                               \/ (slice b = 0 /\ per_sample cfg = 0)).
  { intros b Hb. subst slice. unfold selected_memory_at. cbv beta.
    destruct (tier cfg) eqn:Htier.
    - left. apply to_uint64_small. nia.
    - left. apply to_uint64_small. nia.
    - right. split; [reflexivity | exact Hper]. }
  rewrite Hmem, to_uint32_small by exact Htotal.
  split; [lia |]. split.
  - intros b Hb. destruct (Hslice b Hb) as [-> | [-> Hz]]; nia.
  - intros b b' Hb Hb' Hne. unfold disjoint_slices.
    destruct (Hslice b Hb) as [-> | [-> Hz]], (Hslice b' Hb') as [-> | [-> Hz']]; nia.
Qed.

End Tiles.

Lemma device_scratch_is_tiled_witness :
  (0 <= 1024 /\ 0 <= @sizeof_Torus Examples.small_params
   /\ (4 * @sizeof_Torus Examples.small_params + 28) * 1024 < 2 ^ 31
   /\ 0 <= 1000 < 2 ^ 32 /\ 0 <= 5
   /\ @Pbs.SM_FULL Examples.small_params 1024 * 5 < 2 ^ 32)
  /\ Pbs.d_mem_bytes (@Pbs.choose_launch Examples.small_params 1024 5 1000)
     = 5 * Pbs.per_sample (@Pbs.choose_launch Examples.small_params 1024 5 1000)
  /\ Spec.disjoint_slices
       (Pbs.selected_memory_at (Pbs.tier (@Pbs.choose_launch Examples.small_params 1024 5 1000)) 1
          (Pbs.per_sample (@Pbs.choose_launch Examples.small_params 1024 5 1000)))
       (Pbs.selected_memory_at (Pbs.tier (@Pbs.choose_launch Examples.small_params 1024 5 1000)) 4
          (Pbs.per_sample (@Pbs.choose_launch Examples.small_params 1024 5 1000)))
       (Pbs.per_sample (@Pbs.choose_launch Examples.small_params 1024 5 1000)).
Proof.
  assert (H1 : 0 <= 1024) by lia.
  assert (H2 : 0 <= @sizeof_Torus Examples.small_params) by (cbn; lia).
  assert (H3 : (4 * @sizeof_Torus Examples.small_params + 28) * 1024 < 2 ^ 31)
    by (vm_compute; reflexivity).
  assert (H4 : 0 <= 1000 < 2 ^ 32) by lia.
  assert (H5 : 0 <= 5) by lia.
  assert (H6 : @Pbs.SM_FULL Examples.small_params 1024 * 5 < 2 ^ 32)
    by (vm_compute; reflexivity).
  split; [repeat split; try assumption; lia |].
  destruct (@device_scratch_is_tiled Examples.small_params 1024 5 1000
              H1 H2 H3 H4 H5 H6) as (Hbytes & _ & Hapart).
  split; [exact Hbytes |].
  apply Hapart; lia.
Defined.


(** X10. For a 32- or 64-bit torus and a degree that is a multiple of 4,
    with footprints that fit an [int]: whichever tier the launcher picks,
    the nine buffers the kernel carves out by pointer arithmetic lie within
    the dynamic shared memory and the per-sample scratch of that launch,
    and no two of them share a byte. *)
Theorem scratch_buffers_fit_and_are_apart (P : Params) (N m count capacity : Z) :
  sizeof_Torus = 4 \/ sizeof_Torus = 8 ->
  0 <= m -> N = 4 * m -> (4 * sizeof_Torus + 28) * N < 2 ^ 31 ->
  0 <= capacity < 2 ^ 32 ->
  let cfg := Pbs.choose_launch N count capacity in
  Forall (Spec.within (Pbs.provided cfg)) (Pbs.layout (Pbs.tier cfg) N)
  /\ ForallOrdPairs Spec.apart (Pbs.layout (Pbs.tier cfg) N).
Proof.
  intros Hwidth Hm HN Hfit Hcap. apply (scratch_layout_fits N m); assumption.
Qed.

Lemma scratch_buffers_fit_and_are_apart_witness :
  ((@sizeof_Torus Examples.small_params = 4 \/ @sizeof_Torus Examples.small_params = 8)
   /\ 0 <= 256 /\ 1024 = 4 * 256
   /\ (4 * @sizeof_Torus Examples.small_params + 28) * 1024 < 2 ^ 31
   /\ 0 <= 49152 < 2 ^ 32)
  /\ Forall (Spec.within (Pbs.provided (@Pbs.choose_launch Examples.small_params 1024 5 49152)))
       (@Pbs.layout Examples.small_params
          (Pbs.tier (@Pbs.choose_launch Examples.small_params 1024 5 49152)) 1024).
Proof.
  assert (H1 : @sizeof_Torus Examples.small_params = 4
               \/ @sizeof_Torus Examples.small_params = 8) by (right; reflexivity).
  assert (H2 : 0 <= 256) by lia.
  assert (H3 : 1024 = 4 * 256) by reflexivity.
  assert (H4 : (4 * @sizeof_Torus Examples.small_params + 28) * 1024 < 2 ^ 31)
    by (vm_compute; reflexivity).
  assert (H5 : 0 <= 49152 < 2 ^ 32) by lia.
  split; [repeat split; try assumption; lia |].
  exact (proj1 (scratch_buffers_fit_and_are_apart Examples.small_params 1024 256 5
                  49152 H1 H2 H3 H4 H5)).
Defined.

(** ** The cells of the strided loops *)

Lemma flat_map_bind {A B : Type} (f : A -> list B) (l : list A) :
  flat_map f l = l ≫= f.
Proof. induction l as [| x l IH]; [reflexivity |]. cbn. rewrite IH. reflexivity. Qed.

Section Tiling.
Import Cuda Pbs Spec.
Context {P : Params}.
Hypothesis Hopt : 0 < opt.
Hypothesis Heven : Z.even opt = true.
Hypothesis Hdiv : degree mod opt = 0.
Hypothesis Hdeg : 0 < degree.

Lemma threads_positive : 0 < degree / opt /\ 0 < opt / 2.
Proof.
  destruct (degree_split Hopt Heven Hdiv) as [Hd Hhalf].
  assert (0 <= degree / opt) by (apply Z.div_pos; lia).
  assert (0 <= opt / 2) by (apply Z.div_pos; lia).
  assert (opt / 2 <> 0).
  { intros Hz. apply Z.even_spec in Heven. destruct Heven as [J HJ].
    rewrite HJ, Z.mul_comm, Z.div_mul in Hz by lia. lia. }
  split; [| lia]. nia.
Qed.

Lemma block_positions_NoDup : NoDup (block_positions (degree / opt)).
Proof.
  destruct threads_positive as [HT HJ].
  unfold block_positions. rewrite flat_map_bind.
  apply NoDup_bind.
  - intros t1 t2 pos Ht1 Ht2 Hp1 Hp2.
    apply list_elem_of_In, In_seqZ in Ht1, Ht2.
    unfold thread_positions in Hp1, Hp2.
    apply list_elem_of_In, in_map_iff in Hp1, Hp2.
    destruct Hp1 as (j1 & Hpos1 & Hj1), Hp2 as (j2 & Hpos2 & Hj2).
    apply In_seqZ in Hj1, Hj2.
    assert (j1 = j2) by nia. nia.
  - intros t Ht. unfold thread_positions.
    apply (NoDup_fmap_2_strong (fun j => t + j * (degree / opt))).
    + intros j1 j2 _ _ Heq. nia.
    + apply NoDup_seqZ.
  - apply NoDup_seqZ.
Qed.

Lemma block_positions_cells (pos : Z) :
  In pos (block_positions (degree / opt)) <-> 0 <= pos < degree / 2.
Proof.
  destruct threads_positive as [HT HJ].
  destruct (degree_split Hopt Heven Hdiv) as [Hd Hhalf].
  rewrite In_block_positions. split.
  - intros (tid & j & Htid & Hj & ->). rewrite Hhalf. nia.
  - intros Hpos.
    exists (pos mod (degree / opt)), (pos / (degree / opt)).
    pose proof (Z.mod_pos_bound pos (degree / opt) HT).
    assert (HTnz : degree / opt <> 0) by lia.
    pose proof (Z.div_mod pos (degree / opt) HTnz).
    assert (0 <= pos / (degree / opt)) by (apply Z.div_pos; lia).
    assert (pos / (degree / opt) < opt / 2).
    { apply Z.div_lt_upper_bound; [exact HT |]. lia. }
    repeat split; lia.
Qed.

Lemma block_positions_tile :
  block_positions (degree / opt) ≡ₚ seqZ 0 (degree / 2).
Proof.
  apply NoDup_Permutation.
  - apply block_positions_NoDup.
  - apply NoDup_seqZ.
  - intros pos. rewrite !list_elem_of_In, block_positions_cells, In_seqZ. lia.
Qed.

End Tiling.

(** X12. The strided loops of the kernel tile the frequency-domain
    buffers. With [opt] even and dividing the degree, and one thread per
    [opt] coefficients, the positions [threadIdx.x + j * degree / opt]
    visited by the [degree / opt] threads, [j] running below [opt / 2], are
    the cells 0 to [degree / 2 - 1], each exactly once: every cell is
    reached, none twice (no two threads store to the same cell), and no
    position falls outside the buffer. Running the loop is applying its
    body to these positions. *)
Theorem threads_tile_the_cells (P : Params) :
  0 < opt -> Z.even opt = true -> degree mod opt = 0 -> 0 < degree ->
  Spec.block_positions (degree / opt) ≡ₚ seqZ 0 (degree / 2)
  /\ (forall (St : Type) (body : Z -> St -> St) (s : St),
        Pbs.all_threads (degree / opt) (Pbs.thread_cells body) s
        = fold_left (fun s pos => body pos s) (Spec.block_positions (degree / opt)) s).
Proof.
  intros Hopt Heven Hdiv Hdeg. split.
  - apply block_positions_tile; assumption.
  - intros St body s. apply all_threads_fold.
Qed.

Lemma threads_tile_the_cells_witness :
  (0 < @opt Examples.small_params
   /\ Z.even (@opt Examples.small_params) = true
   /\ @degree Examples.small_params mod @opt Examples.small_params = 0
   /\ 0 < @degree Examples.small_params)
  /\ @Spec.block_positions Examples.small_params
       (@degree Examples.small_params / @opt Examples.small_params)
     ≡ₚ seqZ 0 (@degree Examples.small_params / 2).
Proof.
  assert (H1 : 0 < @opt Examples.small_params) by (cbn; lia).
  assert (H2 : Z.even (@opt Examples.small_params) = true) by reflexivity.
  assert (H3 : @degree Examples.small_params mod @opt Examples.small_params = 0)
    by reflexivity.
  assert (H4 : 0 < @degree Examples.small_params) by (cbn; lia).
  split; [repeat split; assumption |].
  exact (proj1 (threads_tile_the_cells Examples.small_params H1 H2 H3 H4)).
Defined.

(** ** What a block reads of the batch *)

Section Samples.
Import Cuda Pbs Spec.
Context {FO : FloatOps} {P : Params} {DF : DeviceFunctions}.

Lemma blind_rotate_iteration_reads_one (SMD : sharedMemDegree) (blockDim : Z)
    (block1 block2 : list Z) (bootstrapping_key : list double2)
    (polynomial_size base_log l_gadget : Z) (s : scratch) (iteration : Z) :
  block1 !!! Z.to_nat iteration = block2 !!! Z.to_nat iteration ->
  blind_rotate_iteration SMD blockDim block1 bootstrapping_key polynomial_size
                         base_log l_gadget s iteration
  = blind_rotate_iteration SMD blockDim block2 bootstrapping_key polynomial_size
                           base_log l_gadget s iteration.
Proof. intros Heq. unfold blind_rotate_iteration. rewrite Heq. reflexivity. Qed.

(** X13. A block reads of the input batch its own ciphertext and nothing
    else: the [lwe_mask_size] mask elements and the body at
    [blockIdx.x * (lwe_mask_size + 1)] and after. Two batches that agree on
    these [lwe_mask_size + 1] words give the block the same final state
    and the same output, whatever the other ciphertexts hold. *)
Theorem block_reads_only_its_ciphertext (SMD : sharedMemDegree) (blockDim blockIdx : Z)
    (lwe_out lut_vector lut_vector_indexes lwe_in lwe_in' : list Z)
    (bootstrapping_key : list double2)
    (lwe_mask_size polynomial_size base_log l_gadget lwe_idx : Z) (s : scratch) :
  0 <= lwe_mask_size -> 0 <= blockIdx -> blockIdx * (lwe_mask_size + 1) < 2 ^ 32 ->
  (forall k, 0 <= k <= lwe_mask_size ->
     lwe_in !!! Z.to_nat (blockIdx * (lwe_mask_size + 1) + k)
     = lwe_in' !!! Z.to_nat (blockIdx * (lwe_mask_size + 1) + k)) ->
  blind_rotation SMD blockDim blockIdx lut_vector lut_vector_indexes lwe_in
    bootstrapping_key lwe_mask_size polynomial_size base_log l_gadget lwe_idx s
  = blind_rotation SMD blockDim blockIdx lut_vector lut_vector_indexes lwe_in'
      bootstrapping_key lwe_mask_size polynomial_size base_log l_gadget lwe_idx s
  /\ device_bootstrap_amortized SMD blockDim blockIdx lwe_out lut_vector
       lut_vector_indexes lwe_in bootstrapping_key lwe_mask_size polynomial_size
       base_log l_gadget lwe_idx s
     = device_bootstrap_amortized SMD blockDim blockIdx lwe_out lut_vector
         lut_vector_indexes lwe_in' bootstrapping_key lwe_mask_size polynomial_size
         base_log l_gadget lwe_idx s.
Proof.
  intros Hn Hb Hfit Hsame.
  assert (Hslot : forall k, 0 <= k <= lwe_mask_size ->
            drop (Z.to_nat (Bsk.mul32 blockIdx (lwe_mask_size + 1))) lwe_in !!! Z.to_nat k
            = drop (Z.to_nat (Bsk.mul32 blockIdx (lwe_mask_size + 1))) lwe_in' !!! Z.to_nat k).
  { intros k Hk. rewrite !lookup_total_drop.
    rewrite mul32_small by nia.
    replace (Z.to_nat (blockIdx * (lwe_mask_size + 1)) + Z.to_nat k)%nat
      with (Z.to_nat (blockIdx * (lwe_mask_size + 1) + k)) by nia.
    apply Hsame. exact Hk. }
  assert (Hrot : blind_rotation SMD blockDim blockIdx lut_vector lut_vector_indexes
                   lwe_in bootstrapping_key lwe_mask_size polynomial_size base_log
                   l_gadget lwe_idx s
                 = blind_rotation SMD blockDim blockIdx lut_vector lut_vector_indexes
                     lwe_in' bootstrapping_key lwe_mask_size polynomial_size base_log
                     l_gadget lwe_idx s).
  { unfold blind_rotation. cbn zeta.
    rewrite (Hslot lwe_mask_size) by lia.
    apply fold_left_ext_in. intros s' i Hi. apply In_seqZ in Hi.
    apply blind_rotate_iteration_reads_one. apply Hslot. lia. }
  split; [exact Hrot |].
  unfold device_bootstrap_amortized. rewrite Hrot. reflexivity.
Qed.

End Samples.

Lemma block_reads_only_its_ciphertext_witness :
  (0 <= 3 /\ 0 <= 0 /\ 0 * (3 + 1) < 2 ^ 32)
  /\ @Pbs.device_bootstrap_amortized exact_double Examples.small_params
       Examples.small_device Cuda.FULLSM 2 0 Examples.lwe_out Examples.lut_vector
       Examples.lut_vector_indexes Examples.lwe_in Examples.bootstrapping_key
       3 8 4 2 0 (Examples.stale 7 0)
     = @Pbs.device_bootstrap_amortized exact_double Examples.small_params
         Examples.small_device Cuda.FULLSM 2 0 Examples.lwe_out Examples.lut_vector
         Examples.lut_vector_indexes Examples.lwe_in_other Examples.bootstrapping_key
         3 8 4 2 0 (Examples.stale 7 0).
Proof.
  assert (H1 : 0 <= 3) by lia.
  assert (H2 : 0 <= 0) by lia.
  assert (H3 : 0 * (3 + 1) < 2 ^ 32) by (vm_compute; reflexivity).
  split; [repeat split; assumption |].
  apply (@block_reads_only_its_ciphertext exact_double Examples.small_params
           Examples.small_device Cuda.FULLSM 2 0 Examples.lwe_out Examples.lut_vector
           Examples.lut_vector_indexes Examples.lwe_in Examples.lwe_in_other
           Examples.bootstrapping_key 3 8 4 2 0 (Examples.stale 7 0) H1 H2 H3).
  intros k Hk.
  assert (Hcases : k = 0 \/ k = 1 \/ k = 2 \/ k = 3) by lia.
  destruct Hcases as [-> | [-> | [-> | ->]]]; reflexivity.
Defined.

